(** * avrocurio: Avro serialization with Confluent framing and a schema registry

    A shallow embedding of the Python package [avrocurio]:
    - [ConfluentWireFormat]: the framing envelope (magic byte, big-endian
      schema id, payload);
    - [InMemoryClient]: the in-memory schema registry;
    - [ApicurioClient]: the HTTP registry client, over an abstract transport;
    - [AvroSerializer]: the serializer/deserializer that ties them together.

    Python exceptions are values of type [exn]; a method that can raise and
    that mutates [self] is a function [S -> (exn + A) * S]: the state reached
    when the exception is raised is kept, as in Python.  The [asyncio] lock of
    the in-memory client and the [await] points are not modelled: every method
    runs to completion. *)

From Stdlib Require Import ZArith List Bool Lia.
From Stdlib Require Import Strings.Byte.
From stdpp Require Import base option list gmap strings fin_maps pretty.

Local Open Scope string_scope.
Local Open Scope list_scope.
Local Open Scope Z_scope.

Set Warnings "-register-all".

(** ** Python values that travel as JSON *)

(** The values [json.loads] produces; a [dict] keeps its insertion order. *)
Inductive json : Type :=
  | JNull
  | JBool (b : bool)
  | JNum (n : Z)
  | JStr (s : string)
  | JList (l : list json)
  | JDict (kvs : list (string * json)).

Definition bytes := list byte.

(** ** Exceptions *)

Record response := mkResponse { status_code : Z; text : string }.

(** The exception classes the package defines or catches.  [OtherError]
    stands for any other subclass of [Exception], named by its class. *)
Inductive exn_kind : Type :=
  | AvroCurioError
  | SchemaNotFoundError
  | InvalidWireFormatError
  | SerializationError
  | DeserializationError
  | SchemaMismatchError
  | SchemaMatchError
  | HTTPStatusError (r : response)
  | RequestError
  | JSONDecodeError
  | KeyError
  | TypeError
  | AttributeError
  | StructError
  | NotImplementedError
  | OtherError (class_name : string).

(** An exception: its class, [str(e)], and [e.__context__], the exception
    that was being handled when this one was raised. *)
Inductive exn : Type :=
  | Exn (k : exn_kind) (msg : string) (ctx : option exn).

Definition kind (e : exn) : exn_kind := let 'Exn k _ _ := e in k.
Definition str (e : exn) : string := let 'Exn _ m _ := e in m.
Definition context (e : exn) : option exn := let 'Exn _ _ c := e in c.

Definition is_SerializationError (e : exn) : bool :=
  match kind e with SerializationError => true | _ => false end.
Definition is_DeserializationError (e : exn) : bool :=
  match kind e with DeserializationError => true | _ => false end.
Definition is_SchemaMismatchError (e : exn) : bool :=
  match kind e with SchemaMismatchError => true | _ => false end.
Definition is_SchemaMatchError (e : exn) : bool :=
  match kind e with SchemaMatchError => true | _ => false end.
Definition is_HTTPStatusError (e : exn) : option response :=
  match kind e with HTTPStatusError r => Some r | _ => None end.
Definition is_RequestError (e : exn) : bool :=
  match kind e with RequestError => true | _ => false end.
Definition is_JSONDecodeError (e : exn) : bool :=
  match kind e with JSONDecodeError => true | _ => false end.

(** ** Methods: state and exceptions *)

Definition result (A : Type) : Type := (exn + A)%type.

Definition M (S A : Type) : Type := S -> result A * S.

Definition ret {S A} (a : A) : M S A := fun s => (inr a, s).

Definition raise {S A} (e : exn) : M S A := fun s => (inl e, s).

Definition lift {S A} (r : result A) : M S A := fun s => (r, s).

Definition bind {S A B} (m : M S A) (k : A -> M S B) : M S B :=
  fun s =>
    match m s with
    | (inr a, s') => k a s'
    | (inl e, s') => (inl e, s')
    end.

(** [try: m  except Exception as e: h e] *)
Definition try_except {S A} (m : M S A) (h : exn -> M S A) : M S A :=
  fun s =>
    match m s with
    | (inl e, s') => h e s'
    | (inr a, s') => (inr a, s')
    end.

Definition gets {S A} (f : S -> A) : M S A := fun s => (inr (f s), s).

Definition modify {S} (f : S -> S) : M S unit := fun s => (inr tt, f s).

Declare Scope py_scope.
Delimit Scope py_scope with py.
Notation "x <- m ;; k" := (bind m (fun x => k))
  (at level 100, m at next level, right associativity) : py_scope.
Notation "m ;;; k" := (bind m (fun _ => k))
  (at level 100, right associativity) : py_scope.

(** Bind on plain results, for code that touches no state. *)
Definition rbind {A B} (r : result A) (k : A -> result B) : result B :=
  match r with
  | inr a => k a
  | inl e => inl e
  end.

(** ** ConfluentWireFormat *)

Module ConfluentWireFormat.

Definition MAGIC_BYTE : byte := x00.

Definition byte_val (b : byte) : Z := Z.of_N (Byte.to_N b).

Definition byte_of_Z (z : Z) : byte :=
  match Byte.of_N (Z.to_N (z mod 256)) with
  | Some b => b
  | None => x00
  end.

(** [int.from_bytes(bs, "big")] *)
Definition int_from_bytes_big (bs : bytes) : Z :=
  fold_left (fun acc b => acc * 256 + byte_val b) bs 0.

(** The four bytes of [struct.pack(">I", n)]. *)
Definition pack_uint32_big (n : Z) : bytes :=
  [ byte_of_Z (n / 2 ^ 24); byte_of_Z (n / 2 ^ 16);
    byte_of_Z (n / 2 ^ 8); byte_of_Z n ].

(** Modelled from the spec: the module [wire_format.py] is missing from the
    sources.  Its [encode] "always succeeds for valid uint32 schemaId;
    produces [0x00][big-endian schemaId][payload]", with no validation of
    the payload.  The spec is silent on an id outside [0, 2^32); the model
    raises there, as packing into four bytes must. *)
Definition encode (schema_id : Z) (payload : bytes) : result bytes :=
  if bool_decide (0 <= schema_id < 2 ^ 32) then
    inr (MAGIC_BYTE :: pack_uint32_big schema_id ++ payload)
  else
    inl (Exn StructError "schema id out of range for uint32" None).

(** Modelled from the spec: the module [wire_format.py] is missing from the
    sources.  Its [decode] "fails with InvalidWireFormat if len(message) < 5
    or message[0] != 0x00.  Otherwise reads bytes 1-4 as big-endian uint32
    schemaId, and the remainder as payload (possibly zero-length)". *)
Definition decode (message : bytes) : result (Z * bytes) :=
  if (length message <? 5)%nat then
    inl (Exn InvalidWireFormatError "Message too short" None)
  else
    match message with
    | magic :: rest =>
        if Byte.eqb magic MAGIC_BYTE then
          inr (int_from_bytes_big (take 4 rest), drop 4 rest)
        else
          inl (Exn InvalidWireFormatError "Invalid magic byte" None)
    | [] => inl (Exn InvalidWireFormatError "Message too short" None)
    end.

End ConfluentWireFormat.

(** ** External collaborators

    The standard [json] module, [fastavro] and [dataclasses_avroschema] are
    libraries the package calls; they are taken as parameters. *)

Class Json := {
  (** [json.loads(s)]: the value, or the exception raised.  Text that is not
      JSON raises [JSONDecodeError]; the decoder also raises a plain
      [ValueError] (an integer literal over the interpreter's digit limit)
      and [RecursionError] (nesting too deep), which a clause
      [except json.JSONDecodeError] does not catch. *)
  json_loads : string -> result json;
  (** [json.dumps(x)] *)
  json_dumps : json -> string;
  (** [json.dumps(x, sort_keys=True, separators=(",", ":"))] *)
  json_dumps_sorted : json -> string;
  (** [str(x)] of a value that is not a [str], as an f-string prints it *)
  py_repr : json -> string
}.

Class Fastavro := {
  (** [schemaless_writer(buffer, schema, data)]; the bytes left in [buffer] *)
  schemaless_writer : json -> json -> result bytes;
  (** [schemaless_reader(buffer, writer_schema, reader_schema)] *)
  schemaless_reader : bytes -> json -> option json -> result json;
  to_parsing_canonical_form : json -> result string;
  (** [fingerprint(canonical, algorithm)] *)
  fingerprint : string -> string -> result string
}.

(** What the serializer asks of an [AvroModel] instance ... *)
Class AvroModel (Obj : Type) := {
  avro_schema : Obj -> result string;
  asdict : Obj -> result json
}.

(** ... and of an [AvroModel] class given as [target_class]. *)
Record model_class (Obj : Type) := {
  avro_schema_to_python : result json;
  parse_obj : json -> result Obj
}.
Arguments avro_schema_to_python {Obj} _.
Arguments parse_obj {Obj} _ _.

(** [json.loads(s)] where the call stands in the code. *)
Definition json_loads_r `{Json} (s : string) : result json := json_loads s.

(** [json.loads(x)] of an arbitrary value: only a [str] is accepted. *)
Definition json_loads_value `{Json} (x : json) : result json :=
  match x with
  | JStr s => json_loads_r s
  | _ => inl (Exn TypeError "the JSON object must be str, bytes or bytearray" None)
  end.

(** [f"{x}"] *)
Definition py_format `{Json} (x : json) : string :=
  match x with
  | JStr s => s
  | _ => py_repr x
  end.

Fixpoint dict_get (k : string) (kvs : list (string * json)) : option json :=
  match kvs with
  | [] => None
  | (k', v) :: kvs' => if String.eqb k k' then Some v else dict_get k kvs'
  end.

(** [isinstance(x, dict) and k in x] *)
Definition is_dict_with (k : string) (x : json) : option json :=
  match x with
  | JDict kvs => dict_get k kvs
  | _ => None
  end.

(** [x[k]] *)
Definition py_getitem (x : json) (k : string) : result json :=
  match x with
  | JDict kvs =>
      match dict_get k kvs with
      | Some v => inr v
      | None => inl (Exn KeyError k None)
      end
  | _ => inl (Exn TypeError "indices must be integers" None)
  end.

(** [x.get(k, default)] *)
Definition py_get (x : json) (k : string) (default : json) : result json :=
  match x with
  | JDict kvs => inr (match dict_get k kvs with Some v => v | None => default end)
  | _ => inl (Exn AttributeError "object has no attribute 'get'" None)
  end.

Fixpoint string_chars (s : string) : list json :=
  match s with
  | EmptyString => []
  | String c s' => JStr (String c EmptyString) :: string_chars s'
  end.

(** The items [for a in x] visits. *)
Definition py_iter (x : json) : result (list json) :=
  match x with
  | JList l => inr l
  | JDict kvs => inr (map (fun kv => JStr (fst kv)) kvs)
  | JStr s => inr (string_chars s)
  | _ => inl (Exn TypeError "object is not iterable" None)
  end.

(** [str.lower], a builtin of Python, is a parameter as well. *)
Class PyStr := {
  py_lower : string -> string
}.

Fixpoint str_starts_with (prefix s : string) : bool :=
  match prefix, s with
  | EmptyString, _ => true
  | String c prefix', String d s' => Ascii.eqb c d && str_starts_with prefix' s'
  | String _ _, EmptyString => false
  end.

(** [needle in s], for two strings *)
Fixpoint str_contains (needle s : string) : bool :=
  str_starts_with needle s
  || match s with
     | EmptyString => false
     | String _ s' => str_contains needle s'
     end.

(** ** The registry interface ([protocol.py])

    [SchemaRegistryClient] lists the methods the serializer may call on its
    client.  The serializer also calls [find_artifact_by_fingerprint], which
    the protocol class omits; it is part of the interface here, and a client
    without the method raises [AttributeError] (see [InMemoryClient]). *)
Class SchemaRegistryClient (C : Type) := {
  client_get_schema_by_global_id : Z -> M C json;
  client_get_latest_schema : string -> string -> M C (Z * json);
  client_find_artifact_by_content :
    string -> option string -> M C (option (string * string));
  client_find_artifact_by_fingerprint :
    string -> option string -> M C (option (string * string));
  client_register_schema : string -> string -> string -> string -> M C Z
}.

(** ** A [dict] whose iteration order is observed

    Python dictionaries iterate in insertion order; assigning to a key that is
    present keeps its position, assigning to a new key appends it. *)
Section OrderedDict.
Context {K V : Type} `{EqDecision K}.

Fixpoint odict_get (k : K) (d : list (K * V)) : option V :=
  match d with
  | [] => None
  | (k', v) :: d' => if decide (k = k') then Some v else odict_get k d'
  end.

Fixpoint odict_set (k : K) (v : V) (d : list (K * V)) : list (K * V) :=
  match d with
  | [] => [(k, v)]
  | (k', v') :: d' =>
      if decide (k = k') then (k, v) :: d' else (k', v') :: odict_set k v d'
  end.
End OrderedDict.

(** ** InMemoryClient ([inmemory_client.py]) *)

Module InMemoryClient.

Record SchemaVersion := mkSchemaVersion {
  version : Z;
  global_id : Z;
  schema_content : string
}.

Abbreviation coordinate := (string * string)%type.

Record t := mk {
  _schemas : gmap Z json;
  _artifacts : list (coordinate * list SchemaVersion);
  _schema_to_global_id : gmap string Z
}.

(** [__init__] *)
Definition init : t := mk ∅ [] ∅.

Section Methods.
Context `{Json}.

Definition _normalize_schema (schema_content : string) : result string :=
  rbind (json_loads_r schema_content) (fun schema_dict =>
  inr (json_dumps_sorted schema_dict)).

Definition _get_next_global_id (self : t) : Z :=
  match (map_to_list (_schemas self)).*1 with
  | [] => 1
  | k :: ks => foldr Z.max k ks + 1
  end.

Definition get_schema_by_global_id (gid : Z) : M t json := fun self =>
  match _schemas self !! gid with
  | None =>
      (inl (Exn SchemaNotFoundError
              ("Schema with global ID " +:+ pretty gid +:+ " not found") None), self)
  | Some schema => (inr schema, self)
  end.

Definition get_latest_schema (group_id artifact_id : string) : M t (Z * json) :=
  fun self =>
    let not_found :=
      Exn SchemaNotFoundError
        ("Schema " +:+ group_id +:+ "/" +:+ artifact_id +:+ " not found") None in
    match odict_get (group_id, artifact_id) (_artifacts self) with
    | None => (inl not_found, self)
    | Some versions =>
        match last versions with
        | None => (inl not_found, self)
        | Some latest_version =>
            match _schemas self !! global_id latest_version with
            | None =>
                (inl (Exn SchemaNotFoundError
                        ("Schema with global ID " +:+ pretty (global_id latest_version)
                           +:+ " not found") None), self)
            | Some schema => (inr (global_id latest_version, schema), self)
            end
        end
    end.

(** [for version in self._artifacts[key]: if version.global_id == gid],
    guarded by [key in self._artifacts] *)
Definition has_version (key : coordinate) (gid : Z) (self : t) : bool :=
  match odict_get key (_artifacts self) with
  | Some versions => existsb (fun v => Z.eqb (global_id v) gid) versions
  | None => false
  end.

(** [if key not in self._artifacts: self._artifacts[key] = []], then
    [self._artifacts[key].append(SchemaVersion(len(...) + 1, gid, content))] *)
Definition append_version (key : coordinate) (gid : Z) (content : string)
    (self : t) : t :=
  let versions := default [] (odict_get key (_artifacts self)) in
  let schema_version :=
    mkSchemaVersion (Z.of_nat (length versions) + 1) gid content in
  mk (_schemas self)
     (odict_set key (versions ++ [schema_version]) (_artifacts self))
     (_schema_to_global_id self).

(** The tail both registration methods share: a fresh global id, the
    parsed schema stored under it, and a new version of [key]. *)
Definition store_new_schema (key : coordinate) (normalized content : string)
    : M t Z := fun self =>
  let gid := _get_next_global_id self in
  match json_loads_r content with
  | inl e => (inl e, self)
  | inr schema_dict =>
      let self' :=
        mk (<[gid := schema_dict]> (_schemas self))
           (_artifacts self)
           (<[normalized := gid]> (_schema_to_global_id self)) in
      (inr gid, append_version key gid content self')
  end.

Definition register_schema (group artifact_name content artifact_type : string)
    : M t Z := fun self =>
  match _normalize_schema content with
  | inl e => (inl e, self)
  | inr normalized =>
      let key := (group, artifact_name) in
      match _schema_to_global_id self !! normalized with
      | Some existing_id =>
          if has_version key existing_id self then (inr existing_id, self)
          else (inr existing_id, append_version key existing_id content self)
      | None => store_new_schema key normalized content self
      end
  end.

Definition register_schema_version (group_id artifact_id content : string)
    : M t Z := fun self =>
  match _normalize_schema content with
  | inl e => (inl e, self)
  | inr normalized =>
      let key := (group_id, artifact_id) in
      match odict_get key (_artifacts self) with
      | None =>
          (inl (Exn AvroCurioError
                  ("Artifact " +:+ group_id +:+ "/" +:+ artifact_id +:+ " does not exist")
                  None), self)
      | Some _ =>
          match _schema_to_global_id self !! normalized with
          | Some existing_id =>
              if has_version key existing_id self then (inr existing_id, self)
              else (inr existing_id, append_version key existing_id content self)
          | None => store_new_schema key normalized content self
          end
      end
  end.

Definition check_artifact_exists (group_id artifact_id : string) : M t bool :=
  fun self =>
    match odict_get (group_id, artifact_id) (_artifacts self) with
    | Some versions => (inr (0 <? length versions)%nat, self)
    | None => (inr false, self)
    end.

(** [for version in versions: if normalize(version.schema_content) == normalized] *)
Fixpoint any_version_matches (normalized : string) (versions : list SchemaVersion)
    : result bool :=
  match versions with
  | [] => inr false
  | v :: versions' =>
      rbind (_normalize_schema (schema_content v)) (fun version_normalized =>
      if String.eqb version_normalized normalized then inr true
      else any_version_matches normalized versions')
  end.

Fixpoint scan_artifacts (normalized : string) (group_id : option string)
    (items : list (coordinate * list SchemaVersion)) : result (option coordinate) :=
  match items with
  | [] => inr None
  | ((art_group_id, artifact_id), versions) :: items' =>
      let filtered_out :=
        match group_id with
        | Some g => negb (String.eqb g "") && negb (String.eqb art_group_id g)
        | None => false
        end in
      if filtered_out then scan_artifacts normalized group_id items'
      else
        rbind (any_version_matches normalized versions) (fun found =>
        if found then inr (Some (art_group_id, artifact_id))
        else scan_artifacts normalized group_id items')
  end.

Definition find_artifact_by_content (content : string) (group_id : option string)
    : M t (option coordinate) := fun self =>
  match _normalize_schema content with
  | inl e => (inl e, self)
  | inr normalized => (scan_artifacts normalized group_id (_artifacts self), self)
  end.

(** The class has no [find_artifact_by_fingerprint]: looking the
    attribute up raises. *)
Definition find_artifact_by_fingerprint (content : string) (group_id : option string)
    : M t (option coordinate) :=
  raise (Exn AttributeError
    "'InMemoryClient' object has no attribute 'find_artifact_by_fingerprint'" None).

#[global] Instance client : SchemaRegistryClient t := {
  client_get_schema_by_global_id := get_schema_by_global_id;
  client_get_latest_schema := get_latest_schema;
  client_find_artifact_by_content := find_artifact_by_content;
  client_find_artifact_by_fingerprint := find_artifact_by_fingerprint;
  client_register_schema := register_schema
}.

(** One entry of the list [search_artifacts] returns. *)
Definition artifact_entry (group_id artifact_id artifact_type : string)
    (latest_version : SchemaVersion) : json :=
  JDict [("groupId", JStr group_id);
         ("artifactId", JStr artifact_id);
         ("id", JStr artifact_id);
         ("name", JStr artifact_id);
         ("artifactType", JStr artifact_type);
         ("globalId", JNum (global_id latest_version));
         ("version", JNum (version latest_version))].

(** [name and name.lower() not in artifact_id.lower()] *)
Definition name_excludes `{PyStr} (name : option string) (artifact_id : string) : bool :=
  match name with
  | Some n =>
      negb (String.eqb n "")
      && negb (str_contains (py_lower n) (py_lower artifact_id))
  | None => false
  end.

Fixpoint search_items `{PyStr} (name : option string) (artifact_type : string)
    (items : list (coordinate * list SchemaVersion)) : list json :=
  match items with
  | [] => []
  | ((group_id, artifact_id), versions) :: items' =>
      if name_excludes name artifact_id then search_items name artifact_type items'
      else
        match last versions with
        | Some latest_version =>
            artifact_entry group_id artifact_id artifact_type latest_version
              :: search_items name artifact_type items'
        | None => search_items name artifact_type items'
        end
  end.

Definition search_artifacts `{PyStr} (name : option string) (artifact_type : string)
    : M t (list json) := fun self =>
  (inr (search_items name artifact_type (_artifacts self)), self).

(** The helper for tests.  The schema is stored first; the index and the
    version follow only if its text normalizes. *)
Definition add_schema (gid : Z) (schema_dict : json) (group_id artifact_id : string)
    : M t unit := fun self =>
  let self1 :=
    mk (<[gid := schema_dict]> (_schemas self)) (_artifacts self)
       (_schema_to_global_id self) in
  let content := json_dumps schema_dict in
  match _normalize_schema content with
  | inl e => (inl e, self1)
  | inr normalized =>
      let self2 :=
        mk (_schemas self1) (_artifacts self1)
           (<[normalized := gid]> (_schema_to_global_id self1)) in
      (inr tt, append_version (group_id, artifact_id) gid content self2)
  end.

(** [reset]: the three tables are cleared. *)
Definition reset : M t unit := fun self => (inr tt, init).
End Methods.

End InMemoryClient.

(** ** AvroSerializer ([serializer.py]) *)

Module AvroSerializer.

Record t (C : Type) := mk {
  client : C;
  cache_schemas : bool;
  _parsed_schema_cache : gmap Z json
}.
Arguments mk {C} _ _ _.
Arguments client {C} _.
Arguments cache_schemas {C} _.
Arguments _parsed_schema_cache {C} _.

(** [AvroSerializer(client, cache_schemas)] *)
Definition init {C} (c : C) (cache : bool) : t C := mk c cache ∅.

(** [AvroSerializer(client)]: caching is on by default *)
Definition init_default {C} (c : C) : t C := init c true.

(** [await self.client.m(...)]: the call runs on the client the serializer
    holds, and what it does to the client stays done. *)
Definition on_client {C A} (m : M C A) : M (t C) A := fun self =>
  let (r, c') := m (client self) in
  (r, mk c' (cache_schemas self) (_parsed_schema_cache self)).

Section Methods.
Context {C Obj : Type} `{SchemaRegistryClient C} `{Json} `{Fastavro} `{AvroModel Obj}.

(** The middle of [_get_parsed_schema]: take the schema out of its
    [{"schema": ...}] envelope if it has one, and parse it if it is text. *)
Definition parse_registry_schema (schema_id : Z) (registry_schema : json)
    : result json :=
  let schema_content :=
    match is_dict_with "schema" registry_schema with
    | Some inner => inner
    | None => registry_schema
    end in
  match schema_content with
  | JStr text =>
      match json_loads_r text with
      | inr parsed_schema => inr parsed_schema
      | inl e =>
          if is_JSONDecodeError e then
            inl (Exn DeserializationError
                   ("Invalid JSON schema for ID " +:+ pretty schema_id) (Some e))
          else inl e
      end
  | _ => inr schema_content
  end.

Definition _get_parsed_schema (schema_id : Z) (registry_schema : json)
    : M (t C) json := fun self =>
  match (if cache_schemas self then _parsed_schema_cache self !! schema_id
         else None) with
  | Some cached => (inr cached, self)
  | None =>
      match parse_registry_schema schema_id registry_schema with
      | inl e => (inl e, self)
      | inr parsed_schema =>
          if cache_schemas self then
            (inr parsed_schema,
             mk (client self) (cache_schemas self)
                (<[schema_id := parsed_schema]> (_parsed_schema_cache self)))
          else (inr parsed_schema, self)
      end
  end.

Definition _validate_data_against_schema (data schema : json) : result unit :=
  match schemaless_writer schema data with
  | inr _ => inr tt
  | inl e =>
      inl (Exn SchemaMismatchError
             ("Data does not match schema: " +:+ str e) (Some e))
  end.

Definition _serialize_with_schema_id (obj : Obj) (schema_id : Z) : M (t C) bytes :=
  (registry_schema <- on_client (client_get_schema_by_global_id schema_id) ;;
   parsed_schema <- _get_parsed_schema schema_id registry_schema ;;
   obj_dict <- lift (asdict obj) ;;
   lift (_validate_data_against_schema obj_dict parsed_schema) ;;;
   avro_payload <- lift (schemaless_writer parsed_schema obj_dict) ;;
   lift (ConfluentWireFormat.encode schema_id avro_payload))%py.

(** The [try] block of [serialize]. *)
Definition serialize_body (obj : Obj) (schema_id : option Z) : M (t C) bytes :=
  match schema_id with
  | Some sid => _serialize_with_schema_id obj sid
  | None =>
      (schema_content <- lift (avro_schema obj) ;;
       match_result <-
         on_client (client_find_artifact_by_content schema_content None) ;;
       match_result <-
         match match_result with
         | None => on_client (client_find_artifact_by_fingerprint schema_content None)
         | Some _ => ret match_result
         end ;;
       match match_result with
       | None =>
           raise (Exn SchemaMatchError
             ("No matching schema found in registry for automatic lookup. "
              +:+ "Please register the schema manually or specify a schema_id.")
             None)
       | Some (found_group_id, found_artifact_id) =>
           latest <-
             on_client (client_get_latest_schema found_group_id found_artifact_id) ;;
           _serialize_with_schema_id obj (fst latest)
       end)%py
  end.

(** The [except Exception as e] block of [serialize]. *)
Definition serialize_handler (schema_id : option Z) (e : exn) : M (t C) bytes :=
  if is_SerializationError e || is_SchemaMismatchError e || is_SchemaMatchError e
  then raise e
  else
    let error_context :=
      match schema_id with
      | Some sid => "schema ID " +:+ pretty sid
      | None => "automatic schema lookup"
      end in
    raise (Exn SerializationError
             ("Failed to serialize object with " +:+ error_context +:+ ": " +:+ str e)
             (Some e)).

Definition serialize (obj : Obj) (schema_id : option Z) : M (t C) bytes :=
  try_except (serialize_body obj schema_id) (serialize_handler schema_id).

(** The [except Exception as e] block of the two deserializing methods;
    [what] is the method's own text. *)
Definition deserialize_handler {A} (what : string) (e : exn) : M (t C) A :=
  if is_DeserializationError e then raise e
  else raise (Exn DeserializationError (what +:+ ": " +:+ str e) (Some e)).

Definition deserialize (message : bytes) (target_class : model_class Obj)
    : M (t C) Obj :=
  try_except
    (decoded <- lift (ConfluentWireFormat.decode message) ;;
     let '(schema_id, avro_payload) := decoded in
     registry_schema <- on_client (client_get_schema_by_global_id schema_id) ;;
     parsed_schema <- _get_parsed_schema schema_id registry_schema ;;
     reader_schema <- lift (avro_schema_to_python target_class) ;;
     obj_dict <-
       lift (schemaless_reader avro_payload parsed_schema (Some reader_schema)) ;;
     lift (parse_obj target_class obj_dict))%py
    (deserialize_handler "Failed to deserialize message").

Definition deserialize_with_schema (message : bytes) (target_class : model_class Obj)
    : M (t C) (Obj * json) :=
  try_except
    (decoded <- lift (ConfluentWireFormat.decode message) ;;
     let '(schema_id, avro_payload) := decoded in
     registry_schema <- on_client (client_get_schema_by_global_id schema_id) ;;
     parsed_schema <- _get_parsed_schema schema_id registry_schema ;;
     obj_dict <- lift (schemaless_reader avro_payload parsed_schema None) ;;
     obj <- lift (parse_obj target_class obj_dict) ;;
     ret (obj, registry_schema))%py
    (deserialize_handler "Failed to deserialize message with schema").

Definition register_schema (obj : Obj) (group_id artifact_id : string) : M (t C) Z :=
  raise (Exn NotImplementedError
    ("Schema registration is not implemented. "
     +:+ "Please register schemas manually through the Apicurio Registry UI or API.")
    None).
End Methods.

End AvroSerializer.

(** ** ApicurioClient ([schema_client.py])

    The methods the properties below concern.  [httpx] is external: the
    network and the registry behind it are a state [W] that answers GET
    requests, possibly raising. *)

Class Httpx (W : Type) := {
  (** [await client.get(url, params=params)] *)
  http_get : string -> list (string * json) -> M W response;
  (** [response.is_success], by status code *)
  is_success : Z -> bool;
  (** the text of the [HTTPStatusError] that [raise_for_status] raises *)
  status_error_message : response -> string
}.

(** POST requests, which only the content search and the registration
    methods send. *)
Class HttpxPost (W : Type) := {
  (** [await client.post(url, content=content, params=params, headers=...)] *)
  http_post : string -> string -> list (string * json) -> M W response
}.

(** [bool(x)] *)
Definition py_truthy (x : json) : bool :=
  match x with
  | JNull => false
  | JBool b => b
  | JNum n => negb (n =? 0)
  | JStr s => negb (String.eqb s "")
  | JList l => match l with [] => false | _ => true end
  | JDict kvs => match kvs with [] => false | _ => true end
  end.

(** [x[0]] *)
Definition py_index0 (x : json) : result json :=
  match x with
  | JList (first :: _) => inr first
  | JList [] => inl (Exn (OtherError "IndexError") "list index out of range" None)
  | JStr (String c _) => inr (JStr (String c EmptyString))
  | JStr EmptyString =>
      inl (Exn (OtherError "IndexError") "string index out of range" None)
  | JDict _ => inl (Exn KeyError "0" None)
  | _ => inl (Exn TypeError "object is not subscriptable" None)
  end.

Module ApicurioClient.

Record t (W : Type) := mk {
  (** whether [self._client] is an [httpx.AsyncClient] rather than [None] *)
  _client : bool;
  _schema_cache : gmap Z json;
  (** what the HTTP client talks to *)
  transport : W
}.
Arguments mk {W} _ _ _.
Arguments _client {W} _.
Arguments _schema_cache {W} _.
Arguments transport {W} _.

Section Methods.
Context {W : Type} `{Httpx W} `{Json} `{Fastavro}.

Definition _ensure_client : M (t W) unit := fun self =>
  if _client self then (inr tt, self)
  else (inr tt, mk true (_schema_cache self) (transport self)).

(** [await self._client.get(url, params=params)] *)
Definition get (url : string) (params : list (string * json)) : M (t W) response :=
  fun self =>
    let (r, w') := http_get url params (transport self) in
    (r, mk (_client self) (_schema_cache self) w').

(** [response.raise_for_status()] *)
Definition raise_for_status (r : response) : result unit :=
  if is_success (status_code r) then inr tt
  else inl (Exn (HTTPStatusError r) (status_error_message r) None).

(** [response.json()] *)
Definition response_json (r : response) : result json := json_loads_r (text r).

Definition http_error (e : exn) (r : response) : exn :=
  Exn AvroCurioError
    ("HTTP error " +:+ pretty (status_code r) +:+ ": " +:+ text r) (Some e).

Definition request_error (e : exn) : exn :=
  Exn AvroCurioError ("Request error: " +:+ str e) (Some e).

(** [except httpx.HTTPStatusError as e: ... except httpx.RequestError as e: ...]
    of the two fetching methods; [not_found] is the text for a 404. *)
Definition fetch_handler {A} (not_found : string) (e : exn) : M (t W) A :=
  match is_HTTPStatusError e with
  | Some r =>
      if status_code r =? 404 then raise (Exn SchemaNotFoundError not_found (Some e))
      else raise (http_error e r)
  | None =>
      if is_RequestError e then raise (request_error e) else raise e
  end.

Definition get_schema_by_global_id (gid : Z) : M (t W) json := fun self =>
  match _schema_cache self !! gid with
  | Some schema => (inr schema, self)
  | None =>
      let not_found := "Schema with global ID " +:+ pretty gid +:+ " not found" in
      (_ensure_client ;;;
       try_except
         (response <- get ("/apis/registry/v3/ids/globalIds/" +:+ pretty gid) [] ;;
          if status_code response =? 404 then
            raise (Exn SchemaNotFoundError not_found None)
          else
            lift (raise_for_status response) ;;;
            schema <-
              lift (match json_loads (text response) with
                    | inr schema => inr schema
                    | inl e =>
                        if is_JSONDecodeError e then
                          inr (JDict [("schema", JStr (text response))])
                        else inl e
                    end) ;;
            modify (fun self' =>
              mk (_client self') (<[gid := schema]> (_schema_cache self'))
                 (transport self')) ;;;
            ret schema)
         (fetch_handler not_found))%py self
  end.

(** The [globalId] of version metadata.  The registry sends an integer;
    for a value of another type the model raises [TypeError], where
    Python would carry the ill-typed value along. *)
Definition as_global_id (x : json) : result Z :=
  match x with
  | JNum n => inr n
  | _ => inl (Exn TypeError "globalId is not an integer" None)
  end.

Definition get_latest_schema (group_id artifact_id : string) : M (t W) (Z * json) :=
  let coordinate := group_id +:+ "/" +:+ artifact_id in
  let not_found := "Schema " +:+ coordinate +:+ " not found" in
  (_ensure_client ;;;
   try_except
     (response <-
        get ("/apis/registry/v3/groups/" +:+ group_id +:+ "/artifacts/"
             +:+ artifact_id +:+ "/versions/branch=latest") [] ;;
      if status_code response =? 404 then
        raise (Exn SchemaNotFoundError not_found None)
      else
        lift (raise_for_status response) ;;;
        version_metadata <- lift (response_json response) ;;
        global_id <- lift (py_get version_metadata "globalId" JNull) ;;
        match global_id with
        | JNull =>
            raise (Exn AvroCurioError
                     ("No global ID found in metadata for " +:+ coordinate) None)
        | _ =>
            gid <- lift (as_global_id global_id) ;;
            schema <- get_schema_by_global_id gid ;;
            ret (gid, schema)
        end)
     (fetch_handler not_found))%py.

Definition check_artifact_exists (group_id artifact_id : string) : M (t W) bool :=
  (_ensure_client ;;;
   try_except
     (response <-
        get ("/apis/registry/v3/groups/" +:+ group_id +:+ "/artifacts/"
             +:+ artifact_id) [] ;;
      ret (status_code response =? 200))
     (fun e =>
        match is_HTTPStatusError e with
        | Some _ => ret false
        | None => if is_RequestError e then ret false else raise e
        end))%py.

(** [fingerprint(to_parsing_canonical_form(schema), algorithm='md5')] *)
Definition md5_fingerprint (schema : json) : result string :=
  rbind (to_parsing_canonical_form schema) (fun canonical =>
  fingerprint canonical "md5").

(** The [try] block inside the loop of [find_artifact_by_fingerprint]:
    [Some] of the coordinate when the fingerprints are equal. *)
Definition compare_candidate (target_fingerprint : string) (artifact : json)
    : M (t W) (option (json * json)) :=
  (artifact_group_id <- lift (py_getitem artifact "groupId") ;;
   artifact_id <- lift (py_getitem artifact "artifactId") ;;
   latest <-
     get_latest_schema (py_format artifact_group_id) (py_format artifact_id) ;;
   let schema := snd latest in
   let schema_content_str :=
     match is_dict_with "schema" schema with
     | Some inner => inner
     | None => JStr (json_dumps schema)
     end in
   artifact_schema <- lift (json_loads_value schema_content_str) ;;
   artifact_fingerprint <- lift (md5_fingerprint artifact_schema) ;;
   if String.eqb artifact_fingerprint target_fingerprint
   then ret (Some (artifact_group_id, artifact_id))
   else ret None)%py.

(** [for artifact in artifacts: try: ... except Exception: continue],
    then [return None] *)
Fixpoint scan_artifacts (target_fingerprint : string) (artifacts : list json)
    : M (t W) (option (json * json)) :=
  match artifacts with
  | [] => ret None
  | artifact :: rest =>
      (found <-
         try_except (compare_candidate target_fingerprint artifact)
           (fun _ => ret None) ;;
       match found with
       | Some coordinate => ret (Some coordinate)
       | None => scan_artifacts target_fingerprint rest
       end)%py
  end.

(** [if group_id:] *)
Definition truthy (group_id : option string) : option string :=
  match group_id with
  | Some g => if String.eqb g "" then None else Some g
  | None => None
  end.

Definition search_params (group_id : option string) : list (string * json) :=
  [("artifactType", JStr "AVRO"); ("limit", JNum 100)]
    ++ match truthy group_id with
       | Some g => [("groupId", JStr g)]
       | None => []
       end.

(** Everything of [find_artifact_by_fingerprint] before the loop: the
    target fingerprint and the candidates the registry lists. *)
Definition fingerprint_candidates (schema_content : string)
    (group_id : option string) : M (t W) (string * list json) :=
  (target_schema <- lift (json_loads_r schema_content) ;;
   target_fingerprint <- lift (md5_fingerprint target_schema) ;;
   response <- get "/apis/registry/v3/search/artifacts" (search_params group_id) ;;
   lift (raise_for_status response) ;;;
   search_results <- lift (response_json response) ;;
   artifacts <- lift (py_get search_results "artifacts" (JList [])) ;;
   candidates <- lift (py_iter artifacts) ;;
   ret (target_fingerprint, candidates))%py.

Definition find_artifact_by_fingerprint (schema_content : string)
    (group_id : option string) : M (t W) (option (json * json)) :=
  (_ensure_client ;;;
   try_except
     (prepared <- fingerprint_candidates schema_content group_id ;;
      scan_artifacts (fst prepared) (snd prepared))
     (fun e =>
        match is_HTTPStatusError e with
        | Some r => raise (http_error e r)
        | None =>
            if is_RequestError e then raise (request_error e)
            else if is_JSONDecodeError e then
              raise (Exn AvroCurioError
                       ("Invalid JSON schema content: " +:+ str e) (Some e))
            else raise e
        end))%py.

(** The [except] clauses of the two search methods: no case for 404. *)
Definition search_handler {A} (e : exn) : M (t W) A :=
  match is_HTTPStatusError e with
  | Some r => raise (http_error e r)
  | None => if is_RequestError e then raise (request_error e) else raise e
  end.

Definition search_artifacts (name : option string) (artifact_type : string)
    : M (t W) json :=
  (_ensure_client ;;;
   try_except
     (let params :=
        [("artifactType", JStr artifact_type)]
          ++ match truthy name with
             | Some n => [("name", JStr n)]
             | None => []
             end in
      response <- get "/apis/registry/v3/search/artifacts" params ;;
      lift (raise_for_status response) ;;;
      search_results <- lift (response_json response) ;;
      lift (py_get search_results "artifacts" (JList [])))
     search_handler)%py.

Context `{HttpxPost W}.

(** [await self._client.post(url, content=content, params=params, ...)] *)
Definition post (url content : string) (params : list (string * json))
    : M (t W) response := fun self =>
  let (r, w') := http_post url content params (transport self) in
  (r, mk (_client self) (_schema_cache self) w').

(** [a.get("artifactId") or a.get("id") or a.get("name", "unknown")] *)
Definition artifact_id_of (first_artifact : json) : result json :=
  rbind (py_get first_artifact "artifactId" JNull) (fun by_artifact_id =>
  if py_truthy by_artifact_id then inr by_artifact_id
  else
    rbind (py_get first_artifact "id" JNull) (fun by_id =>
    if py_truthy by_id then inr by_id
    else py_get first_artifact "name" (JStr "unknown"))).

Definition content_search_params (group_id : option string) : list (string * json) :=
  [("canonical", JStr "true"); ("artifactType", JStr "AVRO"); ("limit", JNum 10)]
    ++ match truthy group_id with
       | Some g => [("groupId", JStr g)]
       | None => []
       end.

Definition find_artifact_by_content (schema_content : string)
    (group_id : option string) : M (t W) (option (json * json)) :=
  (_ensure_client ;;;
   try_except
     (response <-
        post "/apis/registry/v3/search/artifacts" schema_content
          (content_search_params group_id) ;;
      lift (raise_for_status response) ;;;
      search_results <- lift (response_json response) ;;
      artifacts <- lift (py_get search_results "artifacts" (JList [])) ;;
      if py_truthy artifacts then
        first_artifact <- lift (py_index0 artifacts) ;;
        artifact_id <- lift (artifact_id_of first_artifact) ;;
        found_group_id <- lift (py_get first_artifact "groupId" (JStr "default")) ;;
        ret (Some (found_group_id, artifact_id))
      else ret None)
     search_handler)%py.
End Methods.

End ApicurioClient.

(** ** A client that records the calls it receives

    What the unit tests do with [AsyncMock]: every method appends the call to
    a log before it runs on the client underneath. *)

Inductive call : Type :=
  | Call_get_schema_by_global_id (gid : Z)
  | Call_get_latest_schema (group_id artifact_id : string)
  | Call_find_artifact_by_content (content : string) (group_id : option string)
  | Call_find_artifact_by_fingerprint (content : string) (group_id : option string)
  | Call_register_schema (group artifact_name content artifact_type : string).

Module Recording.

Definition t (C : Type) : Type := C * list call.

Definition underlying {C} (r : t C) : C := fst r.
Definition calls {C} (r : t C) : list call := snd r.

Definition record {C A} (c : call) (m : M C A) : M (t C) A := fun r =>
  let (res, c') := m (underlying r) in
  (res, (c', calls r ++ [c])).

#[global] Instance client {C} `{SchemaRegistryClient C} : SchemaRegistryClient (t C) := {
  client_get_schema_by_global_id gid :=
    record (Call_get_schema_by_global_id gid) (client_get_schema_by_global_id gid);
  client_get_latest_schema g a :=
    record (Call_get_latest_schema g a) (client_get_latest_schema g a);
  client_find_artifact_by_content s g :=
    record (Call_find_artifact_by_content s g) (client_find_artifact_by_content s g);
  client_find_artifact_by_fingerprint s g :=
    record (Call_find_artifact_by_fingerprint s g)
      (client_find_artifact_by_fingerprint s g);
  client_register_schema g a s ty :=
    record (Call_register_schema g a s ty) (client_register_schema g a s ty)
}.

End Recording.

(** ** A small concrete setting

    Instances of the external collaborators on which the methods run by
    computation: a fragment of JSON, a codec for records with one field
    [id] holding a byte, and a client with canned answers, as the unit tests
    set up with [return_value]. *)

Module Example.

Definition loads (s : string) : result json :=
  if String.eqb s "{}" || String.eqb s "{ }" then inr (JDict [])
  else if String.eqb s "[]" then inr (JList [])
  else if String.eqb s "null" then inr JNull
  else inl (Exn JSONDecodeError "Expecting value" None).

Definition dumps (x : json) : string :=
  match x with
  | JNull => "null"
  | JBool true => "true"
  | JBool false => "false"
  | JNum n => pretty n
  | JStr s => s
  | JList [] => "[]"
  | JDict [] => "{}"
  | JList _ => "[...]"
  | JDict _ => "{...}"
  end.

#[export] Instance json_fragment : Json := {
  json_loads := loads;
  json_dumps := dumps;
  json_dumps_sorted := dumps;
  py_repr := dumps
}.

Definition value_error (text : string) : exn := Exn (OtherError "ValueError") text None.

(** The schema [null], under which a codec writes and reads nothing,
    whatever the value. *)
Definition is_null_schema (schema : json) : bool :=
  match schema with
  | JStr name => String.eqb name "null"
  | _ => false
  end.

Definition write_id (schema data : json) : result bytes :=
  if is_null_schema schema then inr []
  else
    match is_dict_with "id" data with
    | Some (JNum n) =>
        if bool_decide (0 <= n < 256) then inr [ConfluentWireFormat.byte_of_Z n]
        else inl (value_error "id out of range")
    | _ => inl (value_error "no value for field id")
    end.

Definition read_id (payload : bytes) (writer_schema : json)
    (reader_schema : option json) : result json :=
  if is_null_schema writer_schema then inr JNull
  else
    match payload with
    | [b] => inr (JDict [("id", JNum (ConfluentWireFormat.byte_val b))])
    | _ => inl (Exn (OtherError "EOFError") "cannot read the record" None)
    end.

#[export] Instance codec : Fastavro := {
  schemaless_writer := write_id;
  schemaless_reader := read_id;
  to_parsing_canonical_form x := inr (dumps x);
  fingerprint canonical algorithm := inr canonical
}.

(** A record with the single field [id]. *)
#[export] Instance id_record : AvroModel Z := {
  avro_schema n := inr "{}";
  asdict n := inr (JDict [("id", JNum n)])
}.

Definition IdRecord : model_class Z := {|
  avro_schema_to_python := inr (JDict []);
  parse_obj d :=
    match is_dict_with "id" d with
    | Some (JNum n) => inr n
    | _ => inl (value_error "no value for field id")
    end
|}.

(** The answers a canned client gives, whatever the arguments. *)
Record canned := {
  by_global_id : result json;
  latest : result (Z * json);
  by_content : result (option (string * string));
  by_fingerprint : result (option (string * string));
  registered : result Z
}.

#[export] Instance canned_client : SchemaRegistryClient canned := {
  client_get_schema_by_global_id gid := fun c => (by_global_id c, c);
  client_get_latest_schema g a := fun c => (latest c, c);
  client_find_artifact_by_content s g := fun c => (by_content c, c);
  client_find_artifact_by_fingerprint s g := fun c => (by_fingerprint c, c);
  client_register_schema g a s ty := fun c => (registered c, c)
}.

Definition not_called {A} : result A :=
  inl (Exn (OtherError "AssertionError") "unexpected call" None).

(** A registry that knows one schema, under id 7, and finds it by content
    when [content_hit], else by fingerprint when [fingerprint_hit]. *)
Definition registry (content_hit fingerprint_hit : bool) : canned := {|
  by_global_id := inr (JDict []);
  latest := inr (7, JDict []);
  by_content := inr (if content_hit then Some ("default", "ids") else None);
  by_fingerprint := inr (if fingerprint_hit then Some ("default", "ids") else None);
  registered := not_called
|}.

(** A registry that cannot be reached. *)
Definition unreachable : canned :=
  let down {A} : result A := inl (Exn AvroCurioError "Request error: timed out" None) in
  {| by_global_id := down; latest := down; by_content := down;
     by_fingerprint := down; registered := down |}.

(** An HTTP client whose every GET fails with an exception that is
    neither [HTTPStatusError] nor [RequestError]. *)
#[export] Instance invalid_url : Httpx unit := {
  http_get url params := raise (Exn (OtherError "InvalidURL") "Invalid URL" None);
  is_success status := (200 <=? status) && (status <? 300);
  status_error_message r := "Client error"
}.

(** The in-memory registry after the schema of [IdRecord] has been
    registered under [default/ids]. *)
Definition one_schema : InMemoryClient.t :=
  InMemoryClient.mk (<[1 := JDict []]> ∅)
    [(("default", "ids"), [InMemoryClient.mkSchemaVersion 1 1 "{}"])]
    (<["{}" := 1]> ∅).

(** An HTTP client with scripted answers, as the unit tests set up with
    [side_effect]: each request takes the next answer, and fails with a
    [RequestError] once the answers have run out. *)
Definition next_answer : M (list response) response := fun answers =>
  match answers with
  | r :: answers' => (inr r, answers')
  | [] => (inl (Exn RequestError "All connection attempts failed" None), [])
  end.

#[export] Instance scripted : Httpx (list response) := {
  http_get url params := next_answer;
  is_success status := (200 <=? status) && (status <? 300);
  status_error_message r := "Client error"
}.

#[export] Instance scripted_post : HttpxPost (list response) := {
  http_post url content params := next_answer
}.

Definition quoted (s : string) : string :=
  String (Ascii.ascii_of_nat 34) s +:+ String (Ascii.ascii_of_nat 34) "".

(** The version metadata of a schema with global id 7. *)
Definition metadata_text : string := "{" +:+ quoted "globalId" +:+ ": 7}".

(** The JSON fragment, with the version metadata added. *)
Definition json_metadata : Json := {|
  json_loads s :=
    if String.eqb s metadata_text then inr (JDict [("globalId", JNum 7)]) else loads s;
  json_dumps := dumps;
  json_dumps_sorted := dumps;
  py_repr := dumps
|}.

(** [str.lower] on ASCII. *)
Definition lower_ascii (c : Ascii.ascii) : Ascii.ascii :=
  let n := Ascii.nat_of_ascii c in
  if ((65 <=? n) && (n <=? 90))%nat then Ascii.ascii_of_nat (n + 32) else c.

Fixpoint lower (s : string) : string :=
  match s with
  | EmptyString => EmptyString
  | String c s' => String (lower_ascii c) (lower s')
  end.

#[export] Instance ascii_lower : PyStr := { py_lower := lower }.

End Example.

(** ** Vocabulary of the properties *)

(** The exceptions [serialize] re-raises as they are. *)
Definition passes_through (e : exn) : bool :=
  is_SerializationError e || is_SchemaMismatchError e || is_SchemaMatchError e.

(** The [SerializationError] that [serialize] makes of another exception:
    its text names the schema id, or the automatic lookup, and ends with the
    text of [e]; [e] is its context. *)
Definition wrapped (schema_id : option Z) (e : exn) : exn :=
  Exn SerializationError
    ("Failed to serialize object with "
       +:+ match schema_id with
           | Some sid => "schema ID " +:+ pretty sid
           | None => "automatic schema lookup"
           end
       +:+ ": " +:+ str e)
    (Some e).

(** The state of the serializer once its client has moved to [c']. *)
Definition with_client {C} (self : AvroSerializer.t C) (c' : C) : AvroSerializer.t C :=
  AvroSerializer.mk c' (AvroSerializer.cache_schemas self)
    (AvroSerializer._parsed_schema_cache self).

(** The exception of an automatic lookup that found nothing. *)
Definition no_match : exn :=
  Exn SchemaMatchError
    ("No matching schema found in registry for automatic lookup. "
     +:+ "Please register the schema manually or specify a schema_id.")
    None.

Definition is_registration (c : call) : bool :=
  match c with
  | Call_register_schema _ _ _ _ => true
  | _ => false
  end.

(** A method of a serializer over a recording client registers nothing:
    from every state it only appends calls, none of them a registration. *)
Definition registers_nothing {C A} (m : M (AvroSerializer.t (Recording.t C)) A) : Prop :=
  forall self : AvroSerializer.t (Recording.t C),
    exists new : list call,
      Recording.calls (AvroSerializer.client (snd (m self))) =
        Recording.calls (AvroSerializer.client self) ++ new
      /\ forallb (fun c => negb (is_registration c)) new = true.

(** What a deserializing method raises when a step fails with [e]:
    [e] itself if it is a [DeserializationError], else a
    [DeserializationError] with [e] as context. *)
Definition deserialize_error (what : string) (e : exn) : exn :=
  if is_DeserializationError e then e
  else Exn DeserializationError (what +:+ ": " +:+ str e) (Some e).





(** *** States of the in-memory registry *)

Section RegistryStates.
Import InMemoryClient.
Context `{Json}.

(** The states the registry reaches from [InMemoryClient()] through its two
    registration methods.  (The test helper [add_schema], which stores a
    schema under an id of the caller's choice, is not a registration.) *)
Inductive reachable : t -> Prop :=
  | reachable_init : reachable init
  | reachable_register group artifact_name content artifact_type self r self' :
      reachable self ->
      register_schema group artifact_name content artifact_type self = (r, self') ->
      reachable self'
  | reachable_register_version group_id artifact_id content self r self' :
      reachable self ->
      register_schema_version group_id artifact_id content self = (r, self') ->
      reachable self'.

(** Every stored version is indexed: its content has a canonical form, and
    the index maps that form to the global id of the version. *)
Definition versions_indexed (artifacts : list (coordinate * list SchemaVersion))
    (index : gmap string Z) : Prop :=
  forall key versions v,
    odict_get key artifacts = Some versions -> v ∈ versions ->
    exists normalized,
      _normalize_schema (schema_content v) = inr normalized
      /\ index !! normalized = Some (global_id v).

Definition consistent (self : t) : Prop :=
  versions_indexed (_artifacts self) (_schema_to_global_id self)
  /\ (forall normalized gid,
        _schema_to_global_id self !! normalized = Some gid ->
        is_Some (_schemas self !! gid))
  /\ (forall n1 n2 gid,
        _schema_to_global_id self !! n1 = Some gid ->
        _schema_to_global_id self !! n2 = Some gid -> n1 = n2).

(** The coordinate holds a version whose content has canonical form
    [normalized]. *)
Definition registered_under (key : coordinate) (normalized : string) (v : SchemaVersion)
    (self : t) : Prop :=
  exists versions,
    odict_get key (_artifacts self) = Some versions
    /\ v ∈ versions
    /\ _normalize_schema (schema_content v) = inr normalized.
End RegistryStates.

(** *** The fingerprint search, as the specification words it *)

Section FingerprintSearch.
Import ApicurioClient.
Context {W : Type} `{Httpx W} `{Json} `{Fastavro}.

(** The text of the schema in a registry document: the [schema] member of
    an envelope, else the document dumped. *)
Definition schema_text (schema : json) : json :=
  match is_dict_with "schema" schema with
  | Some inner => inner
  | None => JStr (json_dumps schema)
  end.

(** The fingerprint of a schema given as text: the MD5 fingerprint of the
    parsing canonical form of the text parsed. *)
Definition fingerprint_of_text (schema_content : json) : result string :=
  rbind (json_loads_value schema_content) (fun schema =>
  rbind (to_parsing_canonical_form schema) (fun canonical =>
  fingerprint canonical "md5")).

(** [candidate_fingerprint artifact self outcome self1]: what the registry,
    in state [self], gives for one candidate of the listing.  The outcome is
    the coordinate of the candidate, its [groupId] and [artifactId], with
    the fingerprint of the latest schema of that coordinate; or [None] when
    the candidate lacks one of the two, the latest schema cannot be
    fetched, or its text cannot be fingerprinted.  [self1] is the state the
    request for the latest schema, if any was made, leaves. *)
Inductive candidate_fingerprint (artifact : json) (self : t W)
    : option (json * json * string) -> t W -> Prop :=
  | fingerprint_known g a latest self1 fp :
      py_getitem artifact "groupId" = inr g ->
      py_getitem artifact "artifactId" = inr a ->
      get_latest_schema (py_format g) (py_format a) self = (inr latest, self1) ->
      fingerprint_of_text (schema_text (snd latest)) = inr fp ->
      candidate_fingerprint artifact self (Some (g, a, fp)) self1
  | no_group_id e :
      py_getitem artifact "groupId" = inl e ->
      candidate_fingerprint artifact self None self
  | no_artifact_id g e :
      py_getitem artifact "groupId" = inr g ->
      py_getitem artifact "artifactId" = inl e ->
      candidate_fingerprint artifact self None self
  | no_latest_schema g a e self1 :
      py_getitem artifact "groupId" = inr g ->
      py_getitem artifact "artifactId" = inr a ->
      get_latest_schema (py_format g) (py_format a) self = (inl e, self1) ->
      candidate_fingerprint artifact self None self1
  | no_fingerprint g a latest self1 e :
      py_getitem artifact "groupId" = inr g ->
      py_getitem artifact "artifactId" = inr a ->
      get_latest_schema (py_format g) (py_format a) self = (inr latest, self1) ->
      fingerprint_of_text (schema_text (snd latest)) = inl e ->
      candidate_fingerprint artifact self None self1.

(** [first_match target candidates self found self']: going through the
    candidates in order from state [self], a candidate without an outcome
    or whose latest schema has another fingerprint is passed over, and
    [found] is the coordinate of the first candidate whose latest schema
    has the fingerprint [target], or [None] when the candidates run out;
    [self'] is the state reached. *)
Inductive first_match (target : string)
    : list json -> t W -> option (json * json) -> t W -> Prop :=
  | first_match_none self :
      first_match target [] self None self
  | first_match_hit artifact rest self g a self' :
      candidate_fingerprint artifact self (Some (g, a, target)) self' ->
      first_match target (artifact :: rest) self (Some (g, a)) self'
  | first_match_differs artifact rest self g a fp self1 found self' :
      candidate_fingerprint artifact self (Some (g, a, fp)) self1 ->
      fp <> target ->
      first_match target rest self1 found self' ->
      first_match target (artifact :: rest) self found self'
  | first_match_fails artifact rest self self1 found self' :
      candidate_fingerprint artifact self None self1 ->
      first_match target rest self1 found self' ->
      first_match target (artifact :: rest) self found self'.

(** What [find_artifact_by_fingerprint] makes of a failure before the
    loop. *)
Definition search_error (e : exn) : exn :=
  match is_HTTPStatusError e with
  | Some r => http_error e r
  | None =>
      if is_RequestError e then request_error e
      else if is_JSONDecodeError e then
        Exn AvroCurioError ("Invalid JSON schema content: " +:+ str e) (Some e)
      else e
  end.
End FingerprintSearch.

(** The two exception classes of [httpx] that [ApicurioClient] catches. *)
Definition is_httpx_error (e : exn) : bool :=
  match is_HTTPStatusError e with
  | Some _ => true
  | None => is_RequestError e
  end.

(** *** More on the states of the in-memory registry *)

Section RegistryInvariants.
Import InMemoryClient.
Context `{Json}.

(** The versions carry the numbers 1, 2, 3, ... in order. *)
Definition numbered (versions : list SchemaVersion) : Prop :=
  forall (i : nat) v, versions !! i = Some v -> version v = Z.of_nat i + 1.

(** No coordinate is listed twice, and every coordinate listed holds at
    least one version, the versions numbered from 1. *)
Definition orderly (self : t) : Prop :=
  NoDup (_artifacts self).*1
  /\ forall key versions,
       odict_get key (_artifacts self) = Some versions ->
       versions <> [] /\ numbered versions.

(** What the content index maps a canonical form to is the id of a stored
    document with that canonical form. *)
Definition index_sound (self : t) : Prop :=
  forall normalized gid,
    _schema_to_global_id self !! normalized = Some gid ->
    exists schema_dict,
      _schemas self !! gid = Some schema_dict
      /\ json_dumps_sorted schema_dict = normalized.

(** [self'] holds all that [self] holds: every stored document under its id,
    every entry of the content index, and, for every coordinate, its versions
    as the first versions of the coordinate. *)
Definition grows (self self' : t) : Prop :=
  (forall gid schema_dict,
      _schemas self !! gid = Some schema_dict ->
      _schemas self' !! gid = Some schema_dict)
  /\ (forall normalized gid,
        _schema_to_global_id self !! normalized = Some gid ->
        _schema_to_global_id self' !! normalized = Some gid)
  /\ (forall key versions,
        odict_get key (_artifacts self) = Some versions ->
        exists more, odict_get key (_artifacts self') = Some (versions ++ more)).

(** The entry of one coordinate in the result of [search_artifacts]: none
    when the name filter excludes its artifact id or it holds no version,
    else the entry of its latest version. *)
Definition listed_entry `{PyStr} (name : option string) (artifact_type : string)
    (item : coordinate * list SchemaVersion) : option json :=
  if name_excludes name (snd (fst item)) then None
  else
    artifact_entry (fst (fst item)) (snd (fst item)) artifact_type
      <$> last (snd item).

(** The group filter of [find_artifact_by_content] lets the group through. *)
Definition group_passes (group_id : option string) (art_group_id : string) : Prop :=
  forall g, group_id = Some g -> g <> "" -> art_group_id = g.
End RegistryInvariants.

(** [isinstance(e, AvroCurioError)]: the class itself and its six
    subclasses ([exceptions.py]). *)
Definition is_AvroCurioError (e : exn) : bool :=
  match kind e with
  | AvroCurioError | SchemaNotFoundError | InvalidWireFormatError
  | SerializationError | DeserializationError | SchemaMismatchError
  | SchemaMatchError => true
  | _ => false
  end.

(** *** What the fetching methods of [ApicurioClient] raise *)

(** What [get_schema_by_global_id] and [get_latest_schema] raise when their
    [try] block raises [e]; [not_found] is their text for a 404. *)
Definition fetch_error (not_found : string) (e : exn) : exn :=
  match is_HTTPStatusError e with
  | Some r =>
      if status_code r =? 404 then Exn SchemaNotFoundError not_found (Some e)
      else ApicurioClient.http_error e r
  | None => if is_RequestError e then ApicurioClient.request_error e else e
  end.

(** What the two search methods raise when their [try] block raises [e]. *)
Definition listing_error (e : exn) : exn :=
  match is_HTTPStatusError e with
  | Some r => ApicurioClient.http_error e r
  | None => if is_RequestError e then ApicurioClient.request_error e else e
  end.

(** The schema [get_schema_by_global_id] makes of an answer: the parsed
    text, or the text in an envelope when it is not JSON; another failure
    of the decoder is raised. *)
Definition schema_of_response `{Json} (r : response) : result json :=
  match json_loads (text r) with
  | inr schema => inr schema
  | inl e =>
      if is_JSONDecodeError e then inr (JDict [("schema", JStr (text r))])
      else inl e
  end.

(** A method of [ApicurioClient] keeps every entry of the schema cache. *)
Definition keeps_entries {W A} (m : M (ApicurioClient.t W) A) : Prop :=
  forall self : ApicurioClient.t W,
    ApicurioClient._schema_cache self ⊆ ApicurioClient._schema_cache (snd (m self)).

(** No exception of the two [httpx] classes leaves the method. *)
Definition catches_httpx {W A} (m : M (ApicurioClient.t W) A) : Prop :=
  forall self : ApicurioClient.t W,
    match fst (m self) with
    | inl e => is_httpx_error e = false
    | inr _ => True
    end.

(** * Properties *)

(** ** The framing envelope *)

Section WireFormat.
Import ConfluentWireFormat.

Lemma byte_val_range (b : byte) : 0 <= byte_val b < 256.
Proof.
  unfold byte_val. pose proof (Byte.to_N_bounded b) as Hb.
  lia.
Qed.


Lemma byte_of_Z_val (b : byte) : byte_of_Z (byte_val b) = b.
Proof.
  unfold byte_of_Z. pose proof (byte_val_range b) as Hr.
  rewrite Z.mod_small by lia. unfold byte_val.
  rewrite N2Z.id, Byte.of_to_N. reflexivity.
Qed.

Lemma int_from_bytes_big_4 (b1 b2 b3 b4 : byte) :
  int_from_bytes_big [b1; b2; b3; b4] =
    byte_val b1 * 2 ^ 24 + byte_val b2 * 2 ^ 16 + byte_val b3 * 2 ^ 8 + byte_val b4.
Proof. unfold int_from_bytes_big. simpl. lia. Qed.


Lemma pack_unpack_uint32 (b1 b2 b3 b4 : byte) :
  0 <= int_from_bytes_big [b1; b2; b3; b4] < 2 ^ 32.
Proof.
  rewrite int_from_bytes_big_4.
  pose proof (byte_val_range b1). pose proof (byte_val_range b2).
  pose proof (byte_val_range b3). pose proof (byte_val_range b4).
  change (2 ^ 24) with 16777216. change (2 ^ 16) with 65536.
  change (2 ^ 8) with 256. change (2 ^ 32) with 4294967296. lia.
Qed.


Lemma decode_short (message : bytes) :
  (length message < 5)%nat ->
  decode message = inl (Exn InvalidWireFormatError "Message too short" None).
Proof.
  intros Hlen. unfold decode.
  replace (length message <? 5)%nat with true
    by (symmetry; apply Nat.ltb_lt; exact Hlen).
  reflexivity.
Qed.

Lemma decode_long (magic : byte) (rest : bytes) :
  (4 <= length rest)%nat ->
  decode (magic :: rest) =
    if Byte.eqb magic x00
    then inr (int_from_bytes_big (take 4 rest), drop 4 rest)
    else inl (Exn InvalidWireFormatError "Invalid magic byte" None).
Proof.
  intros Hlen. unfold decode.
  replace (length (magic :: rest) <? 5)%nat with false
    by (symmetry; apply Nat.ltb_ge; cbn [length]; lia).
  reflexivity.
Qed.

(** C1.  [decode] raises [InvalidWireFormatError] on a message shorter than
    five bytes or whose first byte is not 0x00; on any other message it
    returns the big-endian unsigned 32-bit integer of bytes 1-4 as the schema
    id, which lies in [0, 2^32), and the bytes from index 5 on as the
    payload.  On [00 00 00 00 01] it returns schema id 1 and no payload. *)
Theorem decode_spec :
  (forall message : bytes,
      (length message < 5)%nat \/ message !! 0%nat <> Some x00 ->
      exists text, decode message = inl (Exn InvalidWireFormatError text None))
  /\ (forall message : bytes,
      (5 <= length message)%nat -> message !! 0%nat = Some x00 ->
      exists b1 b2 b3 b4 payload,
        message = x00 :: b1 :: b2 :: b3 :: b4 :: payload
        /\ payload = drop 5 message
        /\ decode message =
             inr (byte_val b1 * 2 ^ 24 + byte_val b2 * 2 ^ 16
                  + byte_val b3 * 2 ^ 8 + byte_val b4, payload)
        /\ 0 <= byte_val b1 * 2 ^ 24 + byte_val b2 * 2 ^ 16
                + byte_val b3 * 2 ^ 8 + byte_val b4 < 2 ^ 32)
  /\ decode [x00; x00; x00; x00; x01] = inr (1, []).
Proof.
  split; [|split].
  - intros message [Hlen | Hmagic].
    + eexists. apply decode_short, Hlen.
    + destruct (Nat.lt_ge_cases (length message) 5) as [Hlen | Hlen].
      * eexists. apply decode_short, Hlen.
      * destruct message as [|magic rest]; [cbn in Hlen; lia|].
        cbn [length] in Hlen. rewrite decode_long by lia.
        destruct (Byte.eqb magic x00) eqn:Heq; [|eexists; reflexivity].
        apply Byte.byte_dec_bl in Heq. subst magic. cbn in Hmagic. congruence.
  - intros message Hlen Hmagic.
    destruct message as [|magic [|b1 [|b2 [|b3 [|b4 payload]]]]];
      cbn [length] in Hlen; try lia.
    cbn in Hmagic. injection Hmagic as ->.
    exists b1, b2, b3, b4, payload. split; [reflexivity|]. split; [reflexivity|].
    rewrite decode_long by (cbn [length]; lia).
    cbn [Byte.eqb take drop firstn skipn].
    rewrite <- int_from_bytes_big_4. split; [reflexivity|].
    apply pack_unpack_uint32.
  - reflexivity.
Qed.

Lemma decode_spec_witness :
  (exists text,
      decode [x01; x00; x00; x00; x01] = inl (Exn InvalidWireFormatError text None))
  /\ (exists b1 b2 b3 b4 payload,
        [x00; x00; x00; x30; x39; x2a] = x00 :: b1 :: b2 :: b3 :: b4 :: payload
        /\ payload = drop 5 [x00; x00; x00; x30; x39; x2a]
        /\ decode [x00; x00; x00; x30; x39; x2a] =
             inr (byte_val b1 * 2 ^ 24 + byte_val b2 * 2 ^ 16
                  + byte_val b3 * 2 ^ 8 + byte_val b4, payload)
        /\ 0 <= byte_val b1 * 2 ^ 24 + byte_val b2 * 2 ^ 16
                + byte_val b3 * 2 ^ 8 + byte_val b4 < 2 ^ 32).
Proof.
  split.
  - apply (proj1 decode_spec [x01; x00; x00; x00; x01]).
    right. cbn. congruence.
  - apply (proj1 (proj2 decode_spec) [x00; x00; x00; x30; x39; x2a]).
    + cbn. lia.
    + reflexivity.
Defined.

End WireFormat.

(** ** Stepping through a method *)

Lemma bind_ok {S A B} (m : M S A) (k : A -> M S B) s a s' :
  m s = (inr a, s') -> bind m k s = k a s'.
Proof. intros Hm. unfold bind. rewrite Hm. reflexivity. Qed.

Lemma bind_raise {S A B} (m : M S A) (k : A -> M S B) s e s' :
  m s = (inl e, s') -> bind m k s = (inl e, s').
Proof. intros Hm. unfold bind. rewrite Hm. reflexivity. Qed.

Lemma try_except_ok {S A} (m : M S A) (h : exn -> M S A) s a s' :
  m s = (inr a, s') -> try_except m h s = (inr a, s').
Proof. intros Hm. unfold try_except. rewrite Hm. reflexivity. Qed.

Lemma try_except_raise {S A} (m : M S A) (h : exn -> M S A) s e s' :
  m s = (inl e, s') -> try_except m h s = h e s'.
Proof. intros Hm. unfold try_except. rewrite Hm. reflexivity. Qed.

Lemma on_client_run {C A} (m : M C A) (self : AvroSerializer.t C) r c' :
  m (AvroSerializer.client self) = (r, c') ->
  AvroSerializer.on_client m self =
    (r, AvroSerializer.mk c' (AvroSerializer.cache_schemas self)
          (AvroSerializer._parsed_schema_cache self)).
Proof. intros Hm. unfold AvroSerializer.on_client. rewrite Hm. reflexivity. Qed.

(** ** The serializer: failures while serializing *)

Section SerializeErrors.
Import AvroSerializer.
Context {C Obj : Type} `{SchemaRegistryClient C} `{Json} `{Fastavro} `{AvroModel Obj}.

Lemma serialize_handler_run (schema_id : option Z) (e : exn) (self : t C) :
  serialize_handler schema_id e self =
    (inl (if passes_through e then e else wrapped schema_id e), self).
Proof.
  unfold serialize_handler, passes_through, wrapped, raise.
  destruct (_ || _); reflexivity.
Qed.

Lemma serialize_run (obj : Obj) (schema_id : option Z) (self : t C) :
  serialize obj schema_id self =
    match serialize_body obj schema_id self with
    | (inr message, self') => (inr message, self')
    | (inl e, self') =>
        (inl (if passes_through e then e else wrapped schema_id e), self')
    end.
Proof.
  unfold serialize, try_except.
  destruct (serialize_body obj schema_id self) as [[e | message] self'];
    [apply serialize_handler_run | reflexivity].
Qed.

Lemma serialize_with_schema_id_fetch_fails (obj : Obj) (sid : Z) (self : t C) e c' :
  client_get_schema_by_global_id sid (client self) = (inl e, c') ->
  _serialize_with_schema_id obj sid self = (inl e, with_client self c').
Proof.
  intros Hfetch. unfold _serialize_with_schema_id.
  apply bind_raise. apply (on_client_run _ _ _ _ Hfetch).
Qed.

Lemma serialize_with_schema_id_run (obj : Obj) (sid : Z) (self : t C)
    registry_schema c' parsed self' :
  client_get_schema_by_global_id sid (client self) = (inr registry_schema, c') ->
  _get_parsed_schema sid registry_schema (with_client self c') = (inr parsed, self') ->
  _serialize_with_schema_id obj sid self =
    (match asdict obj with
     | inl e => inl e
     | inr obj_dict =>
         match schemaless_writer parsed obj_dict with
         | inl e =>
             inl (Exn SchemaMismatchError
                    ("Data does not match schema: " +:+ str e) (Some e))
         | inr avro_payload => ConfluentWireFormat.encode sid avro_payload
         end
     end, self').
Proof.
  intros Hfetch Hparse. unfold _serialize_with_schema_id.
  rewrite (bind_ok _ _ _ _ _ (on_client_run _ _ _ _ Hfetch)).
  rewrite (bind_ok _ _ _ _ _ Hparse).
  unfold bind, lift, _validate_data_against_schema.
  destruct (asdict obj) as [e | obj_dict]; [reflexivity|].
  destruct (schemaless_writer parsed obj_dict) as [e | avro_payload]; reflexivity.
Qed.

(** C4.  When the value does not fit the fetched schema, so that the codec
    fails on it, validation raises [SchemaMismatchError] with the codec's
    failure as context, [serialize] ends with that very exception, the
    handler of [serialize] re-raises it as it is on both paths, and it is
    not a [SerializationError]. *)
Theorem serialize_shape_mismatch (obj : Obj) (sid : Z) (self : t C)
    registry_schema c' parsed self' obj_dict e :
  client_get_schema_by_global_id sid (client self) = (inr registry_schema, c') ->
  _get_parsed_schema sid registry_schema (with_client self c') = (inr parsed, self') ->
  asdict obj = inr obj_dict ->
  schemaless_writer parsed obj_dict = inl e ->
  let mismatch :=
    Exn SchemaMismatchError ("Data does not match schema: " +:+ str e) (Some e) in
  _validate_data_against_schema obj_dict parsed = inl mismatch
  /\ serialize obj (Some sid) self = (inl mismatch, self')
  /\ (forall schema_id (s : t C),
        serialize_handler schema_id mismatch s = (inl mismatch, s))
  /\ kind mismatch <> SerializationError.
Proof.
  intros Hfetch Hparse Hdict Hwrite mismatch. split; [|split; [|split]].
  - unfold _validate_data_against_schema. rewrite Hwrite. reflexivity.
  - rewrite serialize_run. cbn [serialize_body].
    rewrite (serialize_with_schema_id_run _ _ _ _ _ _ _ Hfetch Hparse).
    rewrite Hdict, Hwrite. reflexivity.
  - intros schema_id s. rewrite serialize_handler_run. reflexivity.
  - discriminate.
Qed.

(** C5.  On the path with an explicit schema id: whatever the [try] block
    raises, [serialize] re-raises it unchanged when it is a
    [SerializationError], [SchemaMismatchError] or [SchemaMatchError], and
    otherwise raises one [SerializationError] whose text names the schema id
    and ends with the text of the failure, and whose context is the failure.
    This holds in particular when the registry fetch fails (schema not
    found, transport error) and when framing fails; and the failure inside a
    wrapper is never itself a [SerializationError]. *)
Theorem serialize_explicit_id_wraps_once (obj : Obj) (sid : Z) (self : t C) :
  (forall e self',
      serialize_body obj (Some sid) self = (inl e, self') ->
      serialize obj (Some sid) self =
        (inl (if passes_through e then e else wrapped (Some sid) e), self'))
  /\ (forall e c',
        client_get_schema_by_global_id sid (client self) = (inl e, c') ->
        passes_through e = false ->
        serialize obj (Some sid) self = (inl (wrapped (Some sid) e), with_client self c'))
  /\ (forall registry_schema c' parsed self' obj_dict avro_payload e,
        client_get_schema_by_global_id sid (client self) = (inr registry_schema, c') ->
        _get_parsed_schema sid registry_schema (with_client self c') = (inr parsed, self') ->
        asdict obj = inr obj_dict ->
        schemaless_writer parsed obj_dict = inr avro_payload ->
        ConfluentWireFormat.encode sid avro_payload = inl e ->
        serialize obj (Some sid) self = (inl (wrapped (Some sid) e), self'))
  /\ (forall e self',
        serialize obj (Some sid) self = (inl e, self') ->
        serialize_body obj (Some sid) self = (inl e, self') /\ passes_through e = true
        \/ exists cause,
             serialize_body obj (Some sid) self = (inl cause, self')
             /\ passes_through cause = false
             /\ is_SerializationError cause = false
             /\ e = wrapped (Some sid) cause
             /\ context e = Some cause
             /\ str e =
                  "Failed to serialize object with schema ID " +:+ pretty sid
                    +:+ ": " +:+ str cause).
Proof.
  split; [|split; [|split]].
  - intros e self' Hbody. rewrite serialize_run, Hbody. reflexivity.
  - intros e c' Hfetch Hpass. rewrite serialize_run. cbn [serialize_body].
    rewrite (serialize_with_schema_id_fetch_fails _ _ _ _ _ Hfetch), Hpass.
    reflexivity.
  - intros registry_schema c' parsed self' obj_dict avro_payload e
      Hfetch Hparse Hdict Hwrite Hencode.
    rewrite serialize_run. cbn [serialize_body].
    rewrite (serialize_with_schema_id_run _ _ _ _ _ _ _ Hfetch Hparse).
    rewrite Hdict, Hwrite, Hencode.
    unfold ConfluentWireFormat.encode in Hencode.
    destruct (bool_decide _); [discriminate|].
    injection Hencode as <-. reflexivity.
  - intros e self' Hser. rewrite serialize_run in Hser.
    destruct (serialize_body obj (Some sid) self) as [[cause | message] s'];
      [|discriminate].
    destruct (passes_through cause) eqn:Hpass.
    + left. injection Hser as <- <-. split; [reflexivity | exact Hpass].
    + right. exists cause. injection Hser as <- <-.
      repeat split; try reflexivity; try exact Hpass.
      unfold passes_through in Hpass.
      apply orb_false_iff in Hpass as [Hpass _].
      apply orb_false_iff in Hpass as [Hpass _]. exact Hpass.
Qed.

End SerializeErrors.

Section SerializeErrorsExamples.
Import AvroSerializer Example.

Lemma serialize_shape_mismatch_witness :
  let e := value_error "id out of range" in
  let mismatch :=
    Exn SchemaMismatchError ("Data does not match schema: " +:+ str e) (Some e) in
  _validate_data_against_schema (JDict [("id", JNum 300)]) (JDict []) = inl mismatch
  /\ serialize 300 (Some 7) (init_default (registry true true)) =
       (inl mismatch, mk (registry true true) true (<[7 := JDict []]> ∅))
  /\ (forall schema_id (s : t canned),
        serialize_handler schema_id mismatch s = (inl mismatch, s))
  /\ kind mismatch <> SerializationError.
Proof.
  exact (serialize_shape_mismatch 300 7 (init_default (registry true true))
           (JDict []) (registry true true) (JDict [])
           (mk (registry true true) true (<[7 := JDict []]> ∅))
           (JDict [("id", JNum 300)]) (value_error "id out of range")
           eq_refl eq_refl eq_refl eq_refl).
Defined.

Lemma serialize_explicit_id_wraps_once_witness :
  serialize 5 (Some 7) (init_default unreachable) =
    (inl (wrapped (Some 7) (Exn AvroCurioError "Request error: timed out" None)),
     init_default unreachable).
Proof.
  exact (proj1 (proj2 (serialize_explicit_id_wraps_once 5 7 (init_default unreachable)))
           (Exn AvroCurioError "Request error: timed out" None) unreachable
           eq_refl eq_refl).
Defined.

End SerializeErrorsExamples.

(** ** The serializer: automatic lookup *)

Section AutomaticLookup.
Import AvroSerializer.
Context {C Obj : Type} `{SchemaRegistryClient C} `{Json} `{Fastavro} `{AvroModel Obj}.

Lemma recorded_call {A} (cl : call) (m : M C A) (self : t (Recording.t C)) c log r c' :
  client self = (c, log) ->
  m c = (r, c') ->
  on_client (Recording.record cl m) self = (r, with_client self (c', log ++ [cl])).
Proof.
  intros Hself Hm. unfold on_client, Recording.record. rewrite Hself.
  cbn [Recording.underlying Recording.calls fst snd]. rewrite Hm. reflexivity.
Qed.

Lemma recorded_find_by_content text g (self : t (Recording.t C)) c log r c' :
  client self = (c, log) ->
  client_find_artifact_by_content text g c = (r, c') ->
  on_client (client_find_artifact_by_content text g) self =
    (r, with_client self (c', log ++ [Call_find_artifact_by_content text g])).
Proof. apply recorded_call. Qed.

Lemma recorded_find_by_fingerprint text g (self : t (Recording.t C)) c log r c' :
  client self = (c, log) ->
  client_find_artifact_by_fingerprint text g c = (r, c') ->
  on_client (client_find_artifact_by_fingerprint text g) self =
    (r, with_client self (c', log ++ [Call_find_artifact_by_fingerprint text g])).
Proof. apply recorded_call. Qed.

Lemma recorded_get_latest g a (self : t (Recording.t C)) c log r c' :
  client self = (c, log) ->
  client_get_latest_schema g a c = (r, c') ->
  on_client (client_get_latest_schema g a) self =
    (r, with_client self (c', log ++ [Call_get_latest_schema g a])).
Proof. apply recorded_call. Qed.


Lemma registers_nothing_ret {A} (a : A) : registers_nothing (C := C) (ret a).
Proof. intros self. exists []. rewrite app_nil_r. split; reflexivity. Qed.

Lemma registers_nothing_lift {A} (r : result A) : registers_nothing (C := C) (lift r).
Proof. intros self. exists []. rewrite app_nil_r. split; reflexivity. Qed.

Lemma registers_nothing_raise {A} (e : exn) : registers_nothing (C := C) (A := A) (raise e).
Proof. intros self. exists []. rewrite app_nil_r. split; reflexivity. Qed.

Lemma registers_nothing_bind {A B} (m : M (t (Recording.t C)) A)
    (k : A -> M (t (Recording.t C)) B) :
  registers_nothing m -> (forall a, registers_nothing (k a)) ->
  registers_nothing (bind m k).
Proof.
  intros Hm Hk self. unfold bind.
  destruct (Hm self) as (new1 & Hlog1 & Hnew1).
  destruct (m self) as [[e | a] self1]; cbn [snd] in *.
  - exists new1. split; assumption.
  - destruct (Hk a self1) as (new2 & Hlog2 & Hnew2).
    exists (new1 ++ new2). rewrite Hlog2, Hlog1, app_assoc.
    split; [reflexivity|]. rewrite forallb_app, Hnew1, Hnew2. reflexivity.
Qed.

Lemma registers_nothing_try_except {A} (m : M (t (Recording.t C)) A)
    (h : exn -> M (t (Recording.t C)) A) :
  registers_nothing m -> (forall e, registers_nothing (h e)) ->
  registers_nothing (try_except m h).
Proof.
  intros Hm Hh self. unfold try_except.
  destruct (Hm self) as (new1 & Hlog1 & Hnew1).
  destruct (m self) as [[e | a] self1]; cbn [snd] in *.
  - destruct (Hh e self1) as (new2 & Hlog2 & Hnew2).
    exists (new1 ++ new2). rewrite Hlog2, Hlog1, app_assoc.
    split; [reflexivity|]. rewrite forallb_app, Hnew1, Hnew2. reflexivity.
  - exists new1. split; assumption.
Qed.

Lemma registers_nothing_call {A} (cl : call) (m : M C A) :
  is_registration cl = false ->
  registers_nothing (on_client (Recording.record cl m)).
Proof.
  intros Hcl self. destruct (client self) as [c log] eqn:Hself.
  destruct (m c) as [r c'] eqn:Hm.
  rewrite (recorded_call _ _ _ _ _ _ _ Hself Hm). exists [cl].
  cbn. rewrite Hcl. split; reflexivity.
Qed.

Lemma registers_nothing_get_parsed_schema (sid : Z) (registry_schema : json) :
  registers_nothing (C := C) (_get_parsed_schema sid registry_schema).
Proof.
  intros self. exists []. rewrite app_nil_r. split; [|reflexivity].
  unfold _get_parsed_schema.
  repeat (match goal with
          | |- context [match ?x with _ => _ end] => destruct x
          end; try reflexivity).
Qed.

Lemma registers_nothing_serialize_with_schema_id (obj : Obj) (sid : Z) :
  registers_nothing (C := C) (_serialize_with_schema_id obj sid).
Proof.
  unfold _serialize_with_schema_id.
  apply registers_nothing_bind;
    [apply (registers_nothing_call (Call_get_schema_by_global_id sid)); reflexivity|].
  intros registry_schema. apply registers_nothing_bind;
    [apply registers_nothing_get_parsed_schema|].
  intros parsed. repeat (apply registers_nothing_bind;
    [apply registers_nothing_lift | intros ?]).
  apply registers_nothing_lift.
Qed.

Lemma registers_nothing_serialize (obj : Obj) (schema_id : option Z) :
  registers_nothing (C := C) (serialize obj schema_id).
Proof.
  unfold serialize. apply registers_nothing_try_except.
  - destruct schema_id as [sid|]; cbn [serialize_body].
    + apply registers_nothing_serialize_with_schema_id.
    + apply registers_nothing_bind; [apply registers_nothing_lift|].
      intros text. apply registers_nothing_bind;
        [apply (registers_nothing_call (Call_find_artifact_by_content text None));
         reflexivity|].
      intros found. apply registers_nothing_bind.
      * destruct found;
          [apply registers_nothing_ret
          |apply (registers_nothing_call (Call_find_artifact_by_fingerprint text None));
           reflexivity].
      * intros [[g a]|]; [|apply registers_nothing_raise].
        apply registers_nothing_bind;
          [apply (registers_nothing_call (Call_get_latest_schema g a)); reflexivity|].
        intros latest. apply registers_nothing_serialize_with_schema_id.
  - intros e. unfold serialize_handler.
    destruct (_ || _); apply registers_nothing_raise.
Qed.

(** Run the next client call of the method, [Hcall] being its outcome on
    the client underneath. *)
Ltac next_call lemma Hcall :=
  match goal with
  | |- context [bind (on_client _) _ ?s] =>
      rewrite (bind_ok _ _ s _ _ (lemma _ _ s _ _ _ _ eq_refl Hcall))
  end.

(** C3.  Without a schema id, [serialize] takes the schema text of the
    value and searches by content first.  When that finds a coordinate the
    fingerprint search is not called; when it finds none the fingerprint
    search is called next.  A coordinate found by either goes to
    [get_latest_schema], and serialization goes on with the id it returns.
    When both searches find nothing [serialize] raises [SchemaMatchError],
    unwrapped, after those two calls alone.  On no path is
    [register_schema] called. *)
Theorem serialize_automatic_lookup (obj : Obj) (self : t (Recording.t C))
    (c : C) (log : list call) (text : string) :
  client self = (c, log) ->
  avro_schema obj = inr text ->
  (forall g a c1 sid schema c2,
      client_find_artifact_by_content text None c = (inr (Some (g, a)), c1) ->
      client_get_latest_schema g a c1 = (inr (sid, schema), c2) ->
      serialize obj None self =
        try_except (_serialize_with_schema_id obj sid) (serialize_handler None)
          (with_client self
             (c2, log ++ [Call_find_artifact_by_content text None;
                          Call_get_latest_schema g a])))
  /\ (forall c1 g a c2 sid schema c3,
        client_find_artifact_by_content text None c = (inr None, c1) ->
        client_find_artifact_by_fingerprint text None c1 = (inr (Some (g, a)), c2) ->
        client_get_latest_schema g a c2 = (inr (sid, schema), c3) ->
        serialize obj None self =
          try_except (_serialize_with_schema_id obj sid) (serialize_handler None)
            (with_client self
               (c3, log ++ [Call_find_artifact_by_content text None;
                            Call_find_artifact_by_fingerprint text None;
                            Call_get_latest_schema g a])))
  /\ (forall c1 c2,
        client_find_artifact_by_content text None c = (inr None, c1) ->
        client_find_artifact_by_fingerprint text None c1 = (inr None, c2) ->
        serialize obj None self =
          (inl no_match,
           with_client self
             (c2, log ++ [Call_find_artifact_by_content text None;
                          Call_find_artifact_by_fingerprint text None]))
        /\ kind no_match = SchemaMatchError)
  /\ registers_nothing (serialize obj None).
Proof.
  intros Hself Htext. split; [|split; [|split]].
  - intros g a c1 sid schema c2 Hcontent Hlatest.
    unfold serialize, try_except at 1. cbn [serialize_body].
    unfold bind at 1, lift at 1. rewrite Htext.
    rewrite (bind_ok _ _ _ _ _ (recorded_find_by_content _ _ _ _ _ _ _ Hself Hcontent)).
    unfold bind at 1, ret at 1.
    next_call recorded_get_latest Hlatest.
    cbn [fst]. unfold with_client. cbn. rewrite <- app_assoc. reflexivity.
  - intros c1 g a c2 sid schema c3 Hcontent Hfinger Hlatest.
    unfold serialize, try_except at 1. cbn [serialize_body].
    unfold bind at 1, lift at 1. rewrite Htext.
    rewrite (bind_ok _ _ _ _ _ (recorded_find_by_content _ _ _ _ _ _ _ Hself Hcontent)).
    next_call recorded_find_by_fingerprint Hfinger.
    next_call recorded_get_latest Hlatest.
    cbn [fst]. unfold with_client. cbn. rewrite <- !app_assoc. reflexivity.
  - intros c1 c2 Hcontent Hfinger. split; [|reflexivity].
    unfold serialize, try_except. cbn [serialize_body].
    unfold bind at 1, lift at 1. rewrite Htext.
    rewrite (bind_ok _ _ _ _ _ (recorded_find_by_content _ _ _ _ _ _ _ Hself Hcontent)).
    next_call recorded_find_by_fingerprint Hfinger.
    unfold raise at 1. rewrite serialize_handler_run. unfold with_client. cbn.
    rewrite <- app_assoc. reflexivity.
  - apply registers_nothing_serialize.
Qed.

End AutomaticLookup.

Section AutomaticLookupExamples.
Import AvroSerializer Example.

(** The content search misses, the fingerprint search hits: the schema
    found has id 7 and the message carries it. *)
Lemma serialize_automatic_lookup_witness :
  serialize 5 None (init_default ((registry false true, []) : Recording.t canned)) =
    (inr [x00; x00; x00; x00; x07; x05],
     mk (registry false true,
         [Call_find_artifact_by_content "{}" None;
          Call_find_artifact_by_fingerprint "{}" None;
          Call_get_latest_schema "default" "ids";
          Call_get_schema_by_global_id 7])
        true (<[7 := JDict []]> ∅)).
Proof.
  destruct (serialize_automatic_lookup (C := canned) 5
              (init_default (registry false true, [])) (registry false true) [] "{}")
    as (_ & Hfingerprint & _); [reflexivity | reflexivity |].
  etransitivity;
    [apply (Hfingerprint (registry false true) "default" "ids" (registry false true)
              7 (JDict []) (registry false true));
     reflexivity|].
  reflexivity.
Defined.

End AutomaticLookupExamples.

(** ** The serializer: reading messages *)

Section Deserialize.
Import AvroSerializer.
Context {C Obj : Type} `{SchemaRegistryClient C} `{Json} `{Fastavro} `{AvroModel Obj}.

Lemma deserialize_handler_run {A} (what : string) (e : exn) (self : t C) :
  deserialize_handler (A := A) what e self = (inl (deserialize_error what e), self).
Proof.
  unfold deserialize_handler, deserialize_error, raise.
  destruct (is_DeserializationError e); reflexivity.
Qed.

Lemma deserialize_run (message : bytes) (target_class : model_class Obj) (self : t C)
    sid avro_payload registry_schema c' parsed self' :
  ConfluentWireFormat.decode message = inr (sid, avro_payload) ->
  client_get_schema_by_global_id sid (client self) = (inr registry_schema, c') ->
  _get_parsed_schema sid registry_schema (with_client self c') = (inr parsed, self') ->
  let what := "Failed to deserialize message" in
  deserialize message target_class self =
    (match avro_schema_to_python target_class with
     | inl e => inl (deserialize_error what e)
     | inr reader_schema =>
         match schemaless_reader avro_payload parsed (Some reader_schema) with
         | inl e => inl (deserialize_error what e)
         | inr obj_dict =>
             match parse_obj target_class obj_dict with
             | inl e => inl (deserialize_error what e)
             | inr obj => inr obj
             end
         end
     end, self').
Proof.
  intros Hdecode Hfetch Hparse what.
  unfold deserialize, try_except. unfold bind at 1, lift at 1. rewrite Hdecode.
  rewrite (bind_ok _ _ _ _ _ (on_client_run _ _ _ _ Hfetch)).
  rewrite (bind_ok _ _ _ _ _ Hparse). unfold bind, lift.
  destruct (avro_schema_to_python target_class) as [e | reader_schema];
    [apply deserialize_handler_run|].
  destruct (schemaless_reader _ _ _) as [e | obj_dict];
    [apply deserialize_handler_run|].
  destruct (parse_obj _ _) as [e | obj]; [apply deserialize_handler_run | reflexivity].
Qed.

Lemma deserialize_with_schema_run (message : bytes) (target_class : model_class Obj)
    (self : t C) sid avro_payload registry_schema c' parsed self' :
  ConfluentWireFormat.decode message = inr (sid, avro_payload) ->
  client_get_schema_by_global_id sid (client self) = (inr registry_schema, c') ->
  _get_parsed_schema sid registry_schema (with_client self c') = (inr parsed, self') ->
  let what := "Failed to deserialize message with schema" in
  deserialize_with_schema message target_class self =
    (match schemaless_reader avro_payload parsed None with
     | inl e => inl (deserialize_error what e)
     | inr obj_dict =>
         match parse_obj target_class obj_dict with
         | inl e => inl (deserialize_error what e)
         | inr obj => inr (obj, registry_schema)
         end
     end, self').
Proof.
  intros Hdecode Hfetch Hparse what.
  unfold deserialize_with_schema, try_except. unfold bind at 1, lift at 1.
  rewrite Hdecode.
  rewrite (bind_ok _ _ _ _ _ (on_client_run _ _ _ _ Hfetch)).
  rewrite (bind_ok _ _ _ _ _ Hparse). unfold bind, lift, ret.
  destruct (schemaless_reader _ _ _) as [e | obj_dict];
    [apply deserialize_handler_run|].
  destruct (parse_obj _ _) as [e | obj]; [apply deserialize_handler_run | reflexivity].
Qed.

(** C7.  For a well-framed message whose schema the registry returns:
    [deserialize_with_schema] reads the payload with the writer schema and
    no reader schema, and returns, next to the object, the document the
    registry returned for the id of the message; [deserialize] reads the
    same payload with the schema of the target class as reader schema; and
    the result of [deserialize_with_schema] does not depend on the schema of
    the target class. *)
Theorem deserialize_with_schema_writer_only (message : bytes)
    (target_class : model_class Obj) (self : t C)
    sid avro_payload registry_schema c' parsed self' :
  ConfluentWireFormat.decode message = inr (sid, avro_payload) ->
  client_get_schema_by_global_id sid (client self) = (inr registry_schema, c') ->
  _get_parsed_schema sid registry_schema (with_client self c') = (inr parsed, self') ->
  deserialize_with_schema message target_class self =
    (match schemaless_reader avro_payload parsed None with
     | inl e => inl (deserialize_error "Failed to deserialize message with schema" e)
     | inr obj_dict =>
         match parse_obj target_class obj_dict with
         | inl e => inl (deserialize_error "Failed to deserialize message with schema" e)
         | inr obj => inr (obj, registry_schema)
         end
     end, self')
  /\ deserialize message target_class self =
       (match avro_schema_to_python target_class with
        | inl e => inl (deserialize_error "Failed to deserialize message" e)
        | inr reader_schema =>
            match schemaless_reader avro_payload parsed (Some reader_schema) with
            | inl e => inl (deserialize_error "Failed to deserialize message" e)
            | inr obj_dict =>
                match parse_obj target_class obj_dict with
                | inl e => inl (deserialize_error "Failed to deserialize message" e)
                | inr obj => inr obj
                end
            end
        end, self')
  /\ (forall own_schema : result json,
        deserialize_with_schema message
          {| avro_schema_to_python := own_schema;
             parse_obj := parse_obj target_class |} self =
        deserialize_with_schema message target_class self).
Proof.
  intros Hdecode Hfetch Hparse. split; [|split].
  - apply (deserialize_with_schema_run _ _ _ _ _ _ _ _ _ Hdecode Hfetch Hparse).
  - apply (deserialize_run _ _ _ _ _ _ _ _ _ Hdecode Hfetch Hparse).
  - intros own_schema. reflexivity.
Qed.

End Deserialize.

Section DeserializeExamples.
Import AvroSerializer Example.

Lemma deserialize_with_schema_writer_only_witness :
  let message := [x00; x00; x00; x00; x07; x05] in
  let self := init_default (registry true true) in
  let self' := mk (registry true true) true (<[7 := JDict []]> ∅) in
  deserialize_with_schema message IdRecord self = (inr (5, JDict []), self')
  /\ deserialize message IdRecord self = (inr 5, self')
  /\ (forall own_schema : result json,
        deserialize_with_schema message
          {| avro_schema_to_python := own_schema; parse_obj := parse_obj IdRecord |}
          self =
        deserialize_with_schema message IdRecord self).
Proof.
  exact (deserialize_with_schema_writer_only (C := canned)
           [x00; x00; x00; x00; x07; x05] IdRecord (init_default (registry true true))
           7 [x05] (JDict []) (registry true true) (JDict [])
           (mk (registry true true) true (<[7 := JDict []]> ∅))
           eq_refl eq_refl eq_refl).
Defined.

End DeserializeExamples.

(** ** The serializer: the parsed-schema cache *)

Section ParsedSchemaCache.
Import AvroSerializer.
Context {C Obj : Type} `{SchemaRegistryClient C} `{Json} `{Fastavro} `{AvroModel Obj}.


























End ParsedSchemaCache.

Section CacheAndRegistry.
Import AvroSerializer.
Context {C Obj : Type} `{SchemaRegistryClient C} `{Json} `{Fastavro} `{AvroModel Obj}.







End CacheAndRegistry.

Section CacheExamples.
Import AvroSerializer Example.




End CacheExamples.

(** ** The serializer: round trip *)

Section RoundTrip.
Import AvroSerializer.
Context {C Obj : Type} `{SchemaRegistryClient C} `{Json} `{Fastavro} `{AvroModel Obj}.





End RoundTrip.

Section RoundTripExamples.
Import AvroSerializer Example.


End RoundTripExamples.

(** ** The in-memory registry: registration *)

Section OrderedDictFacts.
Context {K V : Type} `{EqDecision K}.

Lemma odict_get_set_eq (k : K) (v : V) (d : list (K * V)) :
  odict_get k (odict_set k v d) = Some v.
Proof.
  induction d as [|[k' v'] d IH]; cbn.
  - rewrite decide_True by reflexivity. reflexivity.
  - destruct (decide (k = k')) as [Heq | Hne]; cbn.
    + rewrite decide_True by reflexivity. reflexivity.
    + rewrite decide_False by exact Hne. exact IH.
Qed.

Lemma odict_get_set_ne (k k0 : K) (v : V) (d : list (K * V)) :
  k0 <> k -> odict_get k0 (odict_set k v d) = odict_get k0 d.
Proof.
  intros Hne. induction d as [|[k' v'] d IH]; cbn.
  - rewrite decide_False by exact Hne. reflexivity.
  - destruct (decide (k = k')) as [-> | Hne']; cbn.
    + rewrite !decide_False by exact Hne. reflexivity.
    + destruct (decide (k0 = k')); [reflexivity | exact IH].
Qed.
End OrderedDictFacts.

Section Registration.
Import InMemoryClient.
Context `{Json}.

Lemma max_key_bound (k : Z) (ks : list Z) (x : Z) :
  x = k \/ x ∈ ks -> x <= foldr Z.max k ks.
Proof.
  induction ks as [|k' ks IH]; cbn.
  - intros [-> | Hin]; [lia | inversion Hin].
  - intros [-> | Hin].
    + specialize (IH (or_introl eq_refl)). lia.
    + apply elem_of_cons in Hin as [-> | Hin]; [lia|].
      specialize (IH (or_intror Hin)). lia.
Qed.

(** [_get_next_global_id] is above every id that holds a schema. *)
Lemma next_global_id_above (self : t) (gid : Z) :
  is_Some (_schemas self !! gid) -> gid < _get_next_global_id self.
Proof.
  intros [schema Hschema]. unfold _get_next_global_id.
  assert (Hin : gid ∈ (map_to_list (_schemas self)).*1).
  { apply list_elem_of_fmap. exists (gid, schema). split; [reflexivity|].
    apply elem_of_map_to_list, Hschema. }
  destruct ((map_to_list (_schemas self)).*1) as [|k ks].
  - inversion Hin.
  - apply elem_of_cons in Hin. pose proof (max_key_bound k ks gid Hin). lia.
Qed.

Lemma next_global_id_fresh (self : t) :
  _schemas self !! _get_next_global_id self = None.
Proof.
  destruct (_schemas self !! _get_next_global_id self) eqn:Hlook; [|reflexivity].
  pose proof (next_global_id_above self _ (mk_is_Some _ _ Hlook)). lia.
Qed.

Lemma has_version_true (key : coordinate) (gid : Z) (self : t) :
  has_version key gid self = true <->
  exists versions v,
    odict_get key (_artifacts self) = Some versions /\ v ∈ versions
    /\ global_id v = gid.
Proof.
  unfold has_version. destruct (odict_get key (_artifacts self)) as [versions|].
  - rewrite existsb_exists. split.
    + intros (v & Hin & Heq). exists versions, v.
      split; [reflexivity|]. split; [apply list_elem_of_In, Hin | lia].
    + intros (versions' & v & Hget & Hin & Heq). injection Hget as <-.
      exists v. split; [apply list_elem_of_In, Hin | lia].
  - split; [discriminate|]. intros (versions & v & Hget & _). discriminate.
Qed.

Lemma versions_indexed_insert artifacts index normalized gid :
  versions_indexed artifacts index ->
  index !! normalized = None ->
  versions_indexed artifacts (<[normalized := gid]> index).
Proof.
  intros Hindexed Hfresh key versions v Hget Hin.
  destruct (Hindexed key versions v Hget Hin) as (n & Hnorm & Hlook).
  exists n. split; [exact Hnorm|].
  rewrite lookup_insert_ne; [exact Hlook | congruence].
Qed.

Lemma versions_indexed_append artifacts index key num gid content normalized :
  versions_indexed artifacts index ->
  _normalize_schema content = inr normalized ->
  index !! normalized = Some gid ->
  versions_indexed
    (odict_set key (default [] (odict_get key artifacts)
                      ++ [mkSchemaVersion num gid content]) artifacts)
    index.
Proof.
  intros Hindexed Hnorm Hlook key0 versions v Hget Hin.
  destruct (decide (key0 = key)) as [-> | Hne].
  - rewrite odict_get_set_eq in Hget. injection Hget as <-.
    apply elem_of_app in Hin as [Hold | Hnew].
    + destruct (odict_get key artifacts) as [old|] eqn:Hold_get; cbn in Hold.
      * apply (Hindexed key old v Hold_get Hold).
      * inversion Hold.
    + apply list_elem_of_singleton in Hnew. subst v. exists normalized.
      split; assumption.
  - rewrite odict_get_set_ne in Hget by exact Hne.
    apply (Hindexed key0 versions v Hget Hin).
Qed.

Lemma has_version_append (key : coordinate) (gid : Z) (content : string) (self : t) :
  has_version key gid (append_version key gid content self) = true.
Proof.
  apply has_version_true. eexists _, _. cbn [append_version _artifacts].
  rewrite odict_get_set_eq. split; [reflexivity|].
  split; [apply elem_of_app; right; apply list_elem_of_singleton; reflexivity|].
  reflexivity.
Qed.

Lemma consistent_append (key : coordinate) (gid : Z) (content normalized : string)
    (self : t) :
  consistent self ->
  _normalize_schema content = inr normalized ->
  _schema_to_global_id self !! normalized = Some gid ->
  consistent (append_version key gid content self).
Proof.
  intros (Hindexed & Hstored & Hinj) Hnorm Hlook. split; [|split].
  - apply (versions_indexed_append _ _ _ _ _ _ _ Hindexed Hnorm Hlook).
  - exact Hstored.
  - exact Hinj.
Qed.

Lemma consistent_store_new (key : coordinate) (content normalized : string)
    (self self' : t) (r : result Z) :
  consistent self ->
  _normalize_schema content = inr normalized ->
  _schema_to_global_id self !! normalized = None ->
  store_new_schema key normalized content self = (r, self') ->
  consistent self'.
Proof.
  intros Hcons Hnorm Hfresh Hstore. unfold store_new_schema in Hstore.
  destruct (json_loads_r content) as [e | schema_dict].
  { injection Hstore as _ <-. exact Hcons. }
  injection Hstore as _ <-.
  destruct Hcons as (Hindexed & Hstored & Hinj).
  pose proof (next_global_id_fresh self) as Hnew.
  apply (consistent_append _ _ _ normalized);
    [|exact Hnorm | apply lookup_insert_eq].
  split; [|split]; cbn [_artifacts _schemas _schema_to_global_id].
  - apply versions_indexed_insert; assumption.
  - intros n gid Hn. destruct (decide (normalized = n)) as [-> | Hne].
    + rewrite lookup_insert_eq in Hn. injection Hn as <-.
      rewrite lookup_insert_eq. eauto.
    + rewrite lookup_insert_ne in Hn by exact Hne.
      destruct (Hstored n gid Hn) as [schema Hschema].
      exists schema. rewrite lookup_insert_ne; [exact Hschema|].
      intros <-. congruence.
  - intros n1 n2 gid Hn1 Hn2.
    destruct (decide (normalized = n1)) as [-> | Hne1];
      destruct (decide (n1 = n2)) as [-> | Hne2]; try reflexivity.
    + rewrite lookup_insert_eq in Hn1. injection Hn1 as <-.
      rewrite lookup_insert_ne in Hn2 by exact Hne2.
      destruct (Hstored n2 _ Hn2) as [schema Hschema]. congruence.
    + rewrite lookup_insert_ne in Hn1 by exact Hne1.
      destruct (decide (normalized = n2)) as [-> | Hne3].
      * rewrite lookup_insert_eq in Hn2. injection Hn2 as <-.
        destruct (Hstored n1 _ Hn1) as [schema Hschema]. congruence.
      * rewrite lookup_insert_ne in Hn2 by exact Hne3.
        apply (Hinj n1 n2 gid Hn1 Hn2).
Qed.

Lemma register_schema_consistent group artifact_name content artifact_type
    (self self' : t) (r : result Z) :
  consistent self ->
  register_schema group artifact_name content artifact_type self = (r, self') ->
  consistent self'.
Proof.
  intros Hcons Hreg. unfold register_schema in Hreg.
  destruct (_normalize_schema content) as [e | normalized] eqn:Hnorm.
  { injection Hreg as _ <-. exact Hcons. }
  destruct (_schema_to_global_id self !! normalized) as [existing_id|] eqn:Hlook.
  - destruct (has_version _ _ _); injection Hreg as _ <-; [exact Hcons|].
    apply (consistent_append _ _ _ _ _ Hcons Hnorm Hlook).
  - apply (consistent_store_new _ _ _ _ _ _ Hcons Hnorm Hlook Hreg).
Qed.

Lemma register_schema_version_consistent group_id artifact_id content
    (self self' : t) (r : result Z) :
  consistent self ->
  register_schema_version group_id artifact_id content self = (r, self') ->
  consistent self'.
Proof.
  intros Hcons Hreg. unfold register_schema_version in Hreg.
  destruct (_normalize_schema content) as [e | normalized] eqn:Hnorm.
  { injection Hreg as _ <-. exact Hcons. }
  destruct (odict_get _ _).
  2:{ injection Hreg as _ <-. exact Hcons. }
  destruct (_schema_to_global_id self !! normalized) as [existing_id|] eqn:Hlook.
  - destruct (has_version _ _ _); injection Hreg as _ <-; [exact Hcons|].
    apply (consistent_append _ _ _ _ _ Hcons Hnorm Hlook).
  - apply (consistent_store_new _ _ _ _ _ _ Hcons Hnorm Hlook Hreg).
Qed.

Lemma consistent_init : consistent init.
Proof.
  split; [|split].
  - intros key versions v Hget. discriminate.
  - intros n gid Hn. unfold init in Hn. cbn [_schema_to_global_id] in Hn.
    rewrite lookup_empty in Hn. discriminate.
  - intros n1 n2 gid Hn. unfold init in Hn. cbn [_schema_to_global_id] in Hn.
    rewrite lookup_empty in Hn. discriminate.
Qed.

Lemma reachable_consistent (self : t) : reachable self -> consistent self.
Proof.
  induction 1 as [| ? ? ? ? ? ? ? _ IH Hreg | ? ? ? ? ? ? _ IH Hreg].
  - apply consistent_init.
  - apply (register_schema_consistent _ _ _ _ _ _ _ IH Hreg).
  - apply (register_schema_version_consistent _ _ _ _ _ _ IH Hreg).
Qed.

(** The shared tail: after a successful [store_new_schema] the index maps
    the canonical form to the id returned and [key] has a version with it. *)
Lemma store_new_schema_ok (key : coordinate) (normalized content : string)
    (self self1 : t) (gid : Z) :
  store_new_schema key normalized content self = (inr gid, self1) ->
  _schema_to_global_id self1 !! normalized = Some gid
  /\ has_version key gid self1 = true
  /\ is_Some (odict_get key (_artifacts self1)).
Proof.
  unfold store_new_schema. destruct (json_loads_r content); [discriminate|].
  intros Hstore. injection Hstore as <- <-. split; [|split].
  - apply lookup_insert_eq.
  - apply has_version_append.
  - cbn [append_version _artifacts]. rewrite odict_get_set_eq. eauto.
Qed.

Lemma append_version_ok (key : coordinate) (gid : Z) (content : string) (self : t) :
  _schema_to_global_id (append_version key gid content self) = _schema_to_global_id self
  /\ has_version key gid (append_version key gid content self) = true
  /\ is_Some (odict_get key (_artifacts (append_version key gid content self))).
Proof.
  split; [reflexivity|]. split; [apply has_version_append|].
  cbn [append_version _artifacts]. rewrite odict_get_set_eq. eauto.
Qed.

Lemma register_schema_twice group artifact_name content artifact_type
    (self self1 : t) (gid : Z) :
  register_schema group artifact_name content artifact_type self = (inr gid, self1) ->
  register_schema group artifact_name content artifact_type self1 = (inr gid, self1).
Proof.
  unfold register_schema. cbn zeta.
  destruct (_normalize_schema content) as [e | normalized]; [discriminate|].
  destruct (_schema_to_global_id self !! normalized) as [existing_id|] eqn:Hlook.
  - destruct (has_version _ existing_id self) eqn:Hhas; intros Hreg;
      injection Hreg as <- <-.
    + rewrite Hlook, Hhas. reflexivity.
    + destruct (append_version_ok (group, artifact_name) existing_id content self)
        as (Hindex & Hnow & _).
      rewrite Hindex, Hlook, Hnow. reflexivity.
  - intros Hstore.
    destruct (store_new_schema_ok _ _ _ _ _ _ Hstore) as (Hindex & Hnow & _).
    rewrite Hindex, Hnow. reflexivity.
Qed.

Lemma register_schema_version_twice group_id artifact_id content
    (self self1 : t) (gid : Z) :
  register_schema_version group_id artifact_id content self = (inr gid, self1) ->
  register_schema_version group_id artifact_id content self1 = (inr gid, self1).
Proof.
  unfold register_schema_version. cbn zeta.
  destruct (_normalize_schema content) as [e | normalized]; [discriminate|].
  destruct (odict_get (group_id, artifact_id) (_artifacts self))
    as [versions|] eqn:Hkey; [|discriminate].
  destruct (_schema_to_global_id self !! normalized) as [existing_id|] eqn:Hlook.
  - destruct (has_version _ existing_id self) eqn:Hhas; intros Hreg;
      injection Hreg as <- <-.
    + rewrite Hkey, Hlook, Hhas. reflexivity.
    + destruct (append_version_ok (group_id, artifact_id) existing_id content self)
        as (Hindex & Hnow & [versions' Hkey']).
      rewrite Hkey', Hindex, Hlook, Hnow. reflexivity.
  - intros Hstore.
    destruct (store_new_schema_ok _ _ _ _ _ _ Hstore)
      as (Hindex & Hnow & [versions' Hkey']).
    rewrite Hkey', Hindex, Hnow. reflexivity.
Qed.

Lemma registered_indexed (key : coordinate) (normalized : string) (v : SchemaVersion)
    (self : t) :
  consistent self -> registered_under key normalized v self ->
  _schema_to_global_id self !! normalized = Some (global_id v).
Proof.
  intros (Hindexed & _) (versions & Hget & Hin & Hnorm).
  destruct (Hindexed key versions v Hget Hin) as (n & Hn & Hlook). congruence.
Qed.

Lemma register_same_coordinate group artifact_name content artifact_type
    (self : t) (normalized : string) (v : SchemaVersion) :
  consistent self ->
  registered_under (group, artifact_name) normalized v self ->
  _normalize_schema content = inr normalized ->
  register_schema group artifact_name content artifact_type self =
    (inr (global_id v), self)
  /\ register_schema_version group artifact_name content self =
       (inr (global_id v), self).
Proof.
  intros Hcons Hreg Hnorm.
  pose proof (registered_indexed _ _ _ _ Hcons Hreg) as Hlook.
  destruct Hreg as (versions & Hget & Hin & _).
  assert (Hhas : has_version (group, artifact_name) (global_id v) self = true).
  { apply has_version_true. exists versions, v. auto. }
  unfold register_schema, register_schema_version.
  rewrite Hnorm, Hlook, Hhas, Hget. split; reflexivity.
Qed.

Lemma register_other_coordinate group artifact_name content artifact_type
    (self : t) (key' : coordinate) (normalized : string) (v' : SchemaVersion) :
  consistent self ->
  registered_under key' normalized v' self ->
  _normalize_schema content = inr normalized ->
  (forall v, ~ registered_under (group, artifact_name) normalized v self) ->
  let self' := append_version (group, artifact_name) (global_id v') content self in
  register_schema group artifact_name content artifact_type self =
    (inr (global_id v'), self')
  /\ (is_Some (odict_get (group, artifact_name) (_artifacts self)) ->
      register_schema_version group artifact_name content self =
        (inr (global_id v'), self')).
Proof.
  intros Hcons Hreg Hnorm Hnone self'.
  pose proof (registered_indexed _ _ _ _ Hcons Hreg) as Hlook.
  assert (Hhas : has_version (group, artifact_name) (global_id v') self = false).
  { destruct (has_version _ _ _) eqn:Hhas; [|reflexivity]. exfalso.
    apply has_version_true in Hhas as (versions & v & Hget & Hin & Hgid).
    destruct Hcons as (Hindexed & _ & Hinj).
    destruct (Hindexed _ versions v Hget Hin) as (n & Hn & Hlook_v).
    rewrite Hgid in Hlook_v. rewrite (Hinj n normalized _ Hlook_v Hlook) in Hn.
    apply (Hnone v). exists versions. auto. }
  unfold register_schema, register_schema_version.
  rewrite Hnorm, Hlook, Hhas. split; [reflexivity|].
  intros [versions ->]. reflexivity.
Qed.

(** C8.  Registration is idempotent.  From any state, a registration that
    returned an id returns the same id when repeated and then leaves the
    registry as it is.  In every state whose content index is [consistent]
    with its versions, whatever built it, registering content whose
    canonical form is that of a version the coordinate holds returns the
    global id of that version and changes nothing; registering content
    whose canonical form is that of a version held elsewhere, and of none
    under this coordinate, returns the global id of that version, leaves the
    stored schemas and the content index as they are, and appends one
    version with that id, the given content and the next version number to
    the coordinate, creating the coordinate if the registry did not list
    it.  The empty registry is consistent and the two registration methods
    keep a registry consistent, so this holds in every state built by
    registrations. *)
Theorem registration_idempotent :
  (forall group artifact_name content artifact_type (self self1 : t) gid,
      register_schema group artifact_name content artifact_type self = (inr gid, self1) ->
      register_schema group artifact_name content artifact_type self1 = (inr gid, self1))
  /\ (forall group_id artifact_id content (self self1 : t) gid,
        register_schema_version group_id artifact_id content self = (inr gid, self1) ->
        register_schema_version group_id artifact_id content self1 = (inr gid, self1))
  /\ (forall group artifact_name content artifact_type (self : t) normalized v,
        consistent self ->
        registered_under (group, artifact_name) normalized v self ->
        _normalize_schema content = inr normalized ->
        register_schema group artifact_name content artifact_type self =
          (inr (global_id v), self)
        /\ register_schema_version group artifact_name content self =
             (inr (global_id v), self))
  /\ (forall group artifact_name content artifact_type (self : t) key' normalized v',
        consistent self ->
        registered_under key' normalized v' self ->
        _normalize_schema content = inr normalized ->
        (forall v, ~ registered_under (group, artifact_name) normalized v self) ->
        let versions :=
          default [] (odict_get (group, artifact_name) (_artifacts self)) in
        let self' :=
          mk (_schemas self)
             (odict_set (group, artifact_name)
                (versions
                   ++ [mkSchemaVersion (Z.of_nat (length versions) + 1)
                         (global_id v') content])
                (_artifacts self))
             (_schema_to_global_id self) in
        register_schema group artifact_name content artifact_type self =
          (inr (global_id v'), self')
        /\ (is_Some (odict_get (group, artifact_name) (_artifacts self)) ->
            register_schema_version group artifact_name content self =
              (inr (global_id v'), self')))
  /\ consistent init
  /\ (forall group artifact_name content artifact_type (self self' : t) r,
        consistent self ->
        register_schema group artifact_name content artifact_type self = (r, self') ->
        consistent self')
  /\ (forall group_id artifact_id content (self self' : t) r,
        consistent self ->
        register_schema_version group_id artifact_id content self = (r, self') ->
        consistent self').
Proof.
  split; [|split; [|split; [|split; [|split; [|split]]]]].
  - apply register_schema_twice.
  - apply register_schema_version_twice.
  - intros group artifact_name content artifact_type self normalized v.
    apply register_same_coordinate.
  - intros group artifact_name content artifact_type self key' normalized v'.
    apply register_other_coordinate.
  - apply consistent_init.
  - intros group artifact_name content artifact_type self self' r Hcons Hreg.
    apply (register_schema_consistent _ _ _ _ _ _ _ Hcons Hreg).
  - intros group_id artifact_id content self self' r Hcons Hreg.
    apply (register_schema_version_consistent _ _ _ _ _ _ Hcons Hreg).
Qed.

End Registration.

Section RegistrationExamples.
Import InMemoryClient Example.

(** The schema of [IdRecord] is registered under [default/ids]; the same
    schema, spelled with a space, is then registered there again, and under
    [copies/ids]: the id is 1 each time, the first coordinate keeps its one
    version, the second gets its first version, and nothing else is
    stored. *)
Lemma registration_idempotent_witness :
  register_schema "default" "ids" "{}" "AVRO" one_schema = (inr 1, one_schema)
  /\ register_schema "default" "ids" "{ }" "AVRO" one_schema = (inr 1, one_schema)
  /\ register_schema_version "default" "ids" "{ }" one_schema = (inr 1, one_schema)
  /\ register_schema "copies" "ids" "{ }" "AVRO" one_schema =
       (inr 1,
        mk (<[1 := JDict []]> ∅)
           [(("default", "ids"), [mkSchemaVersion 1 1 "{}"]);
            (("copies", "ids"), [mkSchemaVersion 1 1 "{ }"])]
           (<["{}" := 1]> ∅)).
Proof.
  destruct registration_idempotent
    as (Htwice & _ & Hsame & Hother & Hinit & Hkeeps & _).
  assert (Hcons : consistent one_schema).
  { apply (Hkeeps "default" "ids" "{}" "AVRO" init one_schema (inr 1) Hinit).
    reflexivity. }
  assert (Hheld : registered_under ("default", "ids") "{}"
                    (mkSchemaVersion 1 1 "{}") one_schema).
  { exists [mkSchemaVersion 1 1 "{}"]. split; [reflexivity|].
    split; [apply list_elem_of_singleton; reflexivity | reflexivity]. }
  split; [|split; [|split]].
  - apply (Htwice "default" "ids" "{}" "AVRO" init). reflexivity.
  - apply (Hsame "default" "ids" "{ }" "AVRO" one_schema "{}"
             (mkSchemaVersion 1 1 "{}") Hcons Hheld).
    reflexivity.
  - apply (Hsame "default" "ids" "{ }" "AVRO" one_schema "{}"
             (mkSchemaVersion 1 1 "{}") Hcons Hheld).
    reflexivity.
  - apply (Hother "copies" "ids" "{ }" "AVRO" one_schema ("default", "ids") "{}"
             (mkSchemaVersion 1 1 "{}") Hcons Hheld); [reflexivity|].
    intros v (versions & Hget & _). discriminate.
Defined.

End RegistrationExamples.

(** ** The HTTP client: fingerprint search and existence check *)

Section Apicurio.
Import ApicurioClient.
Context {W : Type} `{Httpx W} `{Json} `{Fastavro}.

Lemma scan_artifacts_cons (target : string) (artifact : json) (rest : list json)
    (self : t W) :
  scan_artifacts target (artifact :: rest) self =
    match compare_candidate target artifact self with
    | (inr (Some coordinate), self') => (inr (Some coordinate), self')
    | (inr None, self') => scan_artifacts target rest self'
    | (inl _, self') => scan_artifacts target rest self'
    end.
Proof.
  cbn [scan_artifacts]. unfold bind, try_except, ret.
  destruct (compare_candidate target artifact self) as [[e | [coordinate|]] self'];
    reflexivity.
Qed.

(** The [try] block of the loop, step by step. *)
Lemma compare_candidate_run (target : string) (artifact : json) (self : t W) :
  compare_candidate target artifact self =
    match py_getitem artifact "groupId" with
    | inl e => (inl e, self)
    | inr g =>
        match py_getitem artifact "artifactId" with
        | inl e => (inl e, self)
        | inr a =>
            match get_latest_schema (py_format g) (py_format a) self with
            | (inl e, self1) => (inl e, self1)
            | (inr latest, self1) =>
                match json_loads_value (schema_text (snd latest)) with
                | inl e => (inl e, self1)
                | inr artifact_schema =>
                    match md5_fingerprint artifact_schema with
                    | inl e => (inl e, self1)
                    | inr fp =>
                        (inr (if String.eqb fp target then Some (g, a) else None),
                         self1)
                    end
                end
            end
        end
    end.
Proof.
  unfold compare_candidate, schema_text, bind, lift, ret.
  destruct (py_getitem artifact "groupId") as [e | g]; [reflexivity|].
  destruct (py_getitem artifact "artifactId") as [e | a]; [reflexivity|].
  destruct (get_latest_schema (py_format g) (py_format a) self)
    as [[e | latest] self1]; [reflexivity|].
  destruct (json_loads_value _) as [e | artifact_schema]; [reflexivity|].
  destruct (md5_fingerprint artifact_schema) as [e | fp]; [reflexivity|].
  destruct (String.eqb fp target); reflexivity.
Qed.

(** Every candidate has an outcome, and it decides what the [try] block of
    the loop does. *)
Lemma compare_candidate_outcome (target : string) (artifact : json) (self : t W) :
  exists outcome self1,
    candidate_fingerprint artifact self outcome self1
    /\ match outcome with
       | Some (g, a, fp) =>
           compare_candidate target artifact self =
             (inr (if String.eqb fp target then Some (g, a) else None), self1)
       | None => exists e, compare_candidate target artifact self = (inl e, self1)
       end.
Proof.
  rewrite compare_candidate_run.
  destruct (py_getitem artifact "groupId") as [e | g] eqn:Hgroup.
  { exists None, self. split; [apply (no_group_id _ _ _ Hgroup) | eauto]. }
  destruct (py_getitem artifact "artifactId") as [e | a] eqn:Hid.
  { exists None, self. split; [apply (no_artifact_id _ _ _ _ Hgroup Hid) | eauto]. }
  destruct (get_latest_schema (py_format g) (py_format a) self)
    as [[e | latest] self1] eqn:Hlatest.
  { exists None, self1.
    split; [apply (no_latest_schema _ _ _ _ _ _ Hgroup Hid Hlatest) | eauto]. }
  destruct (fingerprint_of_text (schema_text (snd latest))) as [e | fp] eqn:Hfp.
  - exists None, self1.
    split; [apply (no_fingerprint _ _ _ _ _ _ _ Hgroup Hid Hlatest Hfp)|].
    revert Hfp. unfold fingerprint_of_text, md5_fingerprint, rbind.
    destruct (json_loads_value _) as [e1 | doc]; [eauto|].
    destruct (to_parsing_canonical_form doc) as [e2 | canonical]; [eauto|].
    destruct (fingerprint canonical "md5") as [e3 | fp]; [eauto | discriminate].
  - exists (Some (g, a, fp)), self1.
    split; [apply (fingerprint_known _ _ _ _ _ _ _ Hgroup Hid Hlatest Hfp)|].
    revert Hfp. unfold fingerprint_of_text, md5_fingerprint, rbind.
    destruct (json_loads_value _) as [e1 | doc]; [discriminate|].
    destruct (to_parsing_canonical_form doc) as [e2 | canonical]; [discriminate|].
    destruct (fingerprint canonical "md5") as [e3 | fp']; [discriminate|].
    intros Heq. injection Heq as ->. reflexivity.
Qed.

Lemma candidate_fingerprint_unique (artifact : json) (self : t W)
    outcome1 self1 outcome2 self2 :
  candidate_fingerprint artifact self outcome1 self1 ->
  candidate_fingerprint artifact self outcome2 self2 ->
  outcome1 = outcome2 /\ self1 = self2.
Proof.
  intros Hfirst Hsecond. destruct Hfirst; destruct Hsecond; split; congruence.
Qed.

(** One turn of the loop, by the outcome of the candidate. *)
Lemma scan_artifacts_step (target : string) (artifact : json) (rest : list json)
    (self : t W) outcome self1 :
  candidate_fingerprint artifact self outcome self1 ->
  scan_artifacts target (artifact :: rest) self =
    match outcome with
    | Some (g, a, fp) =>
        if String.eqb fp target then (inr (Some (g, a)), self1)
        else scan_artifacts target rest self1
    | None => scan_artifacts target rest self1
    end.
Proof.
  intros Houtcome. rewrite scan_artifacts_cons.
  destruct (compare_candidate_outcome target artifact self)
    as (outcome' & self1' & Houtcome' & Hcompare).
  destruct (candidate_fingerprint_unique _ _ _ _ _ _ Houtcome' Houtcome) as [-> ->].
  destruct outcome as [[[g a] fp]|].
  - rewrite Hcompare. destruct (String.eqb fp target); reflexivity.
  - destruct Hcompare as [e ->]. reflexivity.
Qed.

Lemma scan_artifacts_first_match (target : string) (artifacts : list json) :
  forall self : t W,
    exists found self',
      scan_artifacts target artifacts self = (inr found, self')
      /\ first_match target artifacts self found self'.
Proof.
  induction artifacts as [|artifact rest IH]; intros self.
  - exists None, self. split; [reflexivity | constructor].
  - destruct (compare_candidate_outcome target artifact self)
      as (outcome & self1 & Houtcome & _).
    rewrite (scan_artifacts_step _ _ _ _ _ _ Houtcome).
    destruct outcome as [[[g a] fp]|].
    + destruct (String.eqb fp target) eqn:Hfp.
      * apply String.eqb_eq in Hfp. subst fp.
        exists (Some (g, a)), self1. split; [reflexivity|].
        apply (first_match_hit _ _ _ _ _ _ _ Houtcome).
      * apply String.eqb_neq in Hfp.
        destruct (IH self1) as (found & self' & Hscan & Hmatch).
        exists found, self'. split; [exact Hscan|].
        apply (first_match_differs _ _ _ _ _ _ _ _ _ _ Houtcome Hfp Hmatch).
    + destruct (IH self1) as (found & self' & Hscan & Hmatch).
      exists found, self'. split; [exact Hscan|].
      apply (first_match_fails _ _ _ _ _ _ _ Houtcome Hmatch).
Qed.

Lemma first_match_scan_artifacts (target : string) (artifacts : list json)
    (self : t W) found self' :
  first_match target artifacts self found self' ->
  scan_artifacts target artifacts self = (inr found, self').
Proof.
  induction 1 as [self | artifact rest self g a self' Houtcome
                  | artifact rest self g a fp self1 found self' Houtcome Hfp _ IH
                  | artifact rest self self1 found self' Houtcome _ IH].
  - reflexivity.
  - rewrite (scan_artifacts_step _ _ _ _ _ _ Houtcome), String.eqb_refl. reflexivity.
  - rewrite (scan_artifacts_step _ _ _ _ _ _ Houtcome).
    apply String.eqb_neq in Hfp. rewrite Hfp. exact IH.
  - rewrite (scan_artifacts_step _ _ _ _ _ _ Houtcome). exact IH.
Qed.

(** A coordinate found is that of a listed candidate whose latest schema
    has the target fingerprint, and every candidate listed before it was
    passed over. *)
Lemma first_match_found (target : string) (artifacts : list json) (self : t W)
    g a self' :
  first_match target artifacts self (Some (g, a)) self' ->
  exists before artifact after self0 latest,
    artifacts = before ++ artifact :: after
    /\ first_match target before self None self0
    /\ py_getitem artifact "groupId" = inr g
    /\ py_getitem artifact "artifactId" = inr a
    /\ get_latest_schema (py_format g) (py_format a) self0 = (inr latest, self')
    /\ fingerprint_of_text (schema_text (snd latest)) = inr target.
Proof.
  intros Hmatch. remember (Some (g, a)) as found eqn:Hfound.
  induction Hmatch as [self | artifact rest self g0 a0 self' Houtcome
                       | artifact rest self g0 a0 fp self1 found self' Houtcome Hfp
                           Hrest IH
                       | artifact rest self self1 found self' Houtcome Hrest IH].
  - discriminate.
  - injection Hfound as -> ->. inversion Houtcome; subst.
    exists [], artifact, rest, self, latest. split; [reflexivity|].
    split; [constructor|]. auto.
  - destruct (IH Hfound)
      as (before & hit & after & self0 & latest & -> & Hbefore & Hrest').
    exists (artifact :: before), hit, after, self0, latest. split; [reflexivity|].
    split; [|exact Hrest'].
    apply (first_match_differs _ _ _ _ _ _ _ _ _ _ Houtcome Hfp Hbefore).
  - destruct (IH Hfound)
      as (before & hit & after & self0 & latest & -> & Hbefore & Hrest').
    exists (artifact :: before), hit, after, self0, latest. split; [reflexivity|].
    split; [|exact Hrest'].
    apply (first_match_fails _ _ _ _ _ _ _ Houtcome Hbefore).
Qed.

(** No match means that no candidate has the target fingerprint: each one
    is without an outcome or has another fingerprint. *)
Lemma first_match_nothing (target : string) (artifacts : list json) (self : t W)
    self' :
  first_match target artifacts self None self' ->
  forall artifact, artifact ∈ artifacts ->
    exists self0 outcome self1,
      candidate_fingerprint artifact self0 outcome self1
      /\ match outcome with
         | Some (_, _, fp) => fp <> target
         | None => True
         end.
Proof.
  intros Hmatch. remember None as found eqn:Hfound.
  induction Hmatch as [self | artifact rest self g0 a0 self' Houtcome
                       | artifact rest self g0 a0 fp self1 found self' Houtcome Hfp
                           Hrest IH
                       | artifact rest self self1 found self' Houtcome Hrest IH];
    intros candidate Hin.
  - inversion Hin.
  - discriminate.
  - apply elem_of_cons in Hin as [-> | Hin]; [|apply (IH Hfound _ Hin)].
    exists self, (Some (g0, a0, fp)), self1. split; [exact Houtcome | exact Hfp].
  - apply elem_of_cons in Hin as [-> | Hin]; [|apply (IH Hfound _ Hin)].
    exists self, None, self1. split; [exact Houtcome | exact I].
Qed.

(** The target of the search is the fingerprint of the content given. *)
Lemma fingerprint_candidates_target (content : string) (group_id : option string)
    (self self1 : t W) (target : string) (candidates : list json) :
  fingerprint_candidates content group_id self = (inr (target, candidates), self1) ->
  fingerprint_of_text (JStr content) = inr target
  /\ exists r search_results artifacts,
       http_get "/apis/registry/v3/search/artifacts" (search_params group_id)
         (transport self) = (inr r, transport self1)
       /\ is_success (status_code r) = true
       /\ json_loads (text r) = inr search_results
       /\ py_get search_results "artifacts" (JList []) = inr artifacts
       /\ py_iter artifacts = inr candidates.
Proof.
  unfold fingerprint_candidates, fingerprint_of_text, md5_fingerprint.
  cbn [json_loads_value]. unfold bind at 1, lift at 1.
  destruct (json_loads_r content) as [e | target_schema]; [discriminate|].
  unfold bind at 1, lift at 1. cbn [rbind].
  destruct (rbind (to_parsing_canonical_form target_schema) _)
    as [e | target_fingerprint]; [discriminate|].
  unfold bind at 1, get.
  destruct (http_get _ _ _) as [[e | r] w'] eqn:Hget; [discriminate|].
  unfold bind at 1, lift at 1, raise_for_status.
  destruct (is_success (status_code r)) eqn:Hsuccess; [|discriminate].
  unfold bind at 1, lift at 1, response_json, json_loads_r.
  destruct (json_loads (text r)) as [e | search_results] eqn:Hjson; [discriminate|].
  unfold bind at 1, lift at 1.
  destruct (py_get search_results "artifacts" (JList [])) as [e | artifacts] eqn:Hlist;
    [discriminate|].
  unfold bind at 1, lift at 1.
  destruct (py_iter artifacts) as [e | listed] eqn:Hiter; [discriminate|].
  unfold ret. intros Heq. injection Heq as -> -> <-. cbn [transport].
  split; [reflexivity|]. exists r, search_results, artifacts. auto.
Qed.

Lemma find_artifact_by_fingerprint_run (content : string) (group_id : option string)
    (self : t W) :
  find_artifact_by_fingerprint content group_id self =
    match fingerprint_candidates content group_id (snd (_ensure_client self)) with
    | (inr (target, candidates), self1) => scan_artifacts target candidates self1
    | (inl e, self1) => (inl (search_error e), self1)
    end.
Proof.
  unfold find_artifact_by_fingerprint. unfold bind at 1.
  assert (Hensure : _ensure_client self = (inr tt, snd (_ensure_client self))).
  { unfold _ensure_client. destruct (_client self); reflexivity. }
  rewrite Hensure. cbn [snd]. unfold try_except, bind at 1.
  destruct (fingerprint_candidates content group_id (snd (_ensure_client self)))
    as [[e | [target candidates]] self1].
  - unfold search_error, raise.
    destruct (is_HTTPStatusError e); [reflexivity|].
    destruct (is_RequestError e); [reflexivity|].
    destruct (is_JSONDecodeError e); reflexivity.
  - cbn [fst snd].
    destruct (scan_artifacts_first_match target candidates self1)
      as (found & self' & -> & _).
    reflexivity.
Qed.

(** C9.  The loop of the fingerprint search never raises: a candidate
    that lacks its coordinate, whose latest schema cannot be fetched, or
    whose schema cannot be fingerprinted is passed over, as is one whose
    fingerprint differs, and the scan goes on with the next candidate.
    What the loop returns is [first_match]: the coordinate of the first
    candidate, in the order the registry listed them, for which the latest
    schema of its coordinate, fetched from the registry, has the target
    fingerprint; or [None] when no candidate is left, and then every
    candidate was without an outcome or had another fingerprint.
    [find_artifact_by_fingerprint] is that loop run on the candidates the
    registry lists, with the fingerprint of the content given as target;
    only a failure before the loop makes it raise. *)
Theorem fingerprint_search_skips_failures :
  (forall (target : string) (artifacts : list json) (self : t W),
      exists found self',
        scan_artifacts target artifacts self = (inr found, self')
        /\ first_match target artifacts self found self')
  /\ (forall (target : string) (artifacts : list json) (self : t W) found self',
        first_match target artifacts self found self' ->
        scan_artifacts target artifacts self = (inr found, self'))
  /\ (forall (artifact : json) (self : t W),
        exists outcome self1, candidate_fingerprint artifact self outcome self1)
  /\ (forall (target : string) (artifacts : list json) (self : t W) g a self',
        scan_artifacts target artifacts self = (inr (Some (g, a)), self') ->
        exists before artifact after self0 latest,
          artifacts = before ++ artifact :: after
          /\ scan_artifacts target before self = (inr None, self0)
          /\ py_getitem artifact "groupId" = inr g
          /\ py_getitem artifact "artifactId" = inr a
          /\ get_latest_schema (py_format g) (py_format a) self0 = (inr latest, self')
          /\ fingerprint_of_text (schema_text (snd latest)) = inr target)
  /\ (forall (target : string) (artifacts : list json) (self self' : t W),
        scan_artifacts target artifacts self = (inr None, self') ->
        forall artifact, artifact ∈ artifacts ->
          exists self0 outcome self1,
            candidate_fingerprint artifact self0 outcome self1
            /\ match outcome with
               | Some (_, _, fp) => fp <> target
               | None => True
               end)
  /\ (forall (content : string) (group_id : option string) (self : t W),
        find_artifact_by_fingerprint content group_id self =
          match fingerprint_candidates content group_id (snd (_ensure_client self)) with
          | (inr (target, candidates), self1) => scan_artifacts target candidates self1
          | (inl e, self1) => (inl (search_error e), self1)
          end)
  /\ (forall (content : string) (group_id : option string) (self self1 : t W)
             (target : string) (candidates : list json),
        fingerprint_candidates content group_id self =
          (inr (target, candidates), self1) ->
        fingerprint_of_text (JStr content) = inr target
        /\ exists r search_results artifacts,
             http_get "/apis/registry/v3/search/artifacts" (search_params group_id)
               (transport self) = (inr r, transport self1)
             /\ is_success (status_code r) = true
             /\ json_loads (text r) = inr search_results
             /\ py_get search_results "artifacts" (JList []) = inr artifacts
             /\ py_iter artifacts = inr candidates).
Proof.
  split; [|split; [|split; [|split; [|split; [|split]]]]].
  - intros target artifacts self. apply scan_artifacts_first_match.
  - intros target artifacts self found self'. apply first_match_scan_artifacts.
  - intros artifact self.
    destruct (compare_candidate_outcome "" artifact self)
      as (outcome & self1 & Houtcome & _).
    exists outcome, self1. exact Houtcome.
  - intros target artifacts self g a self' Hscan.
    destruct (scan_artifacts_first_match target artifacts self)
      as (found & self1 & Hscan' & Hmatch).
    rewrite Hscan in Hscan'. injection Hscan' as <- <-.
    destruct (first_match_found _ _ _ _ _ _ Hmatch)
      as (before & artifact & after & self0 & latest & Hsplit & Hbefore & Hrest).
    exists before, artifact, after, self0, latest. split; [exact Hsplit|].
    split; [apply first_match_scan_artifacts, Hbefore | exact Hrest].
  - intros target artifacts self self' Hscan.
    destruct (scan_artifacts_first_match target artifacts self)
      as (found & self1 & Hscan' & Hmatch).
    rewrite Hscan in Hscan'. injection Hscan' as <- <-.
    apply (first_match_nothing _ _ _ _ Hmatch).
  - apply find_artifact_by_fingerprint_run.
  - apply fingerprint_candidates_target.
Qed.

Lemma check_artifact_exists_run (group_id artifact_id : string) (self : t W) :
  let self0 := snd (_ensure_client self) in
  check_artifact_exists group_id artifact_id self =
    match http_get ("/apis/registry/v3/groups/" +:+ group_id +:+ "/artifacts/"
                    +:+ artifact_id) [] (transport self0) with
    | (inr response, w') =>
        (inr (status_code response =? 200),
         mk (_client self0) (_schema_cache self0) w')
    | (inl e, w') =>
        (if is_httpx_error e then inr false else inl e,
         mk (_client self0) (_schema_cache self0) w')
    end.
Proof.
  cbn zeta. unfold check_artifact_exists. unfold bind at 1.
  assert (Hensure : _ensure_client self = (inr tt, snd (_ensure_client self))).
  { unfold _ensure_client. destruct (_client self); reflexivity. }
  rewrite Hensure. cbn [snd]. unfold try_except, bind, get, ret, raise.
  destruct (http_get _ _ _) as [[e | response] w']; [|reflexivity].
  unfold is_httpx_error. destruct (is_HTTPStatusError e); [reflexivity|].
  destruct (is_RequestError e); reflexivity.
Qed.

End Apicurio.

Section ApicurioExamples.
Import ApicurioClient Example.

(** Two candidates and scripted answers.  The request for the latest
    version of the first is answered 404, and the candidate is passed over;
    the second has a latest version, with global id 7, whose schema has the
    target fingerprint: its coordinate is returned, and the schema fetched
    on the way is in the cache. *)
Lemma fingerprint_search_skips_failures_witness :
  scan_artifacts (H0 := json_metadata) "{}"
    [JDict [("groupId", JStr "default"); ("artifactId", JStr "gone")];
     JDict [("groupId", JStr "default"); ("artifactId", JStr "ids")]]
    (mk false ∅
       [mkResponse 404 "no such artifact"; mkResponse 200 metadata_text;
        mkResponse 200 "{}"]) =
  (inr (Some (JStr "default", JStr "ids")), mk true (<[7 := JDict []]> ∅) []).
Proof.
  apply (proj1 (proj2 (fingerprint_search_skips_failures
                         (W := list response) (H0 := json_metadata)))).
  eapply first_match_fails.
  - eapply no_latest_schema; reflexivity.
  - eapply first_match_hit. eapply fingerprint_known; reflexivity.
Defined.

End ApicurioExamples.

Section ArtifactExists.
Context {W : Type} `{Httpx W}.

(** C10, as the code has it.  [ApicurioClient.check_artifact_exists] makes
    sure the HTTP client exists, sends one GET and returns whether the
    status of the answer is 200; when the GET raises [HTTPStatusError] or
    [RequestError] it returns [False]; an exception of any other class goes
    on to the caller.  [InMemoryClient.check_artifact_exists] never raises,
    changes nothing, and returns whether the coordinate holds at least one
    version. *)
Theorem check_artifact_exists_spec :
  (forall (group_id artifact_id : string) (self : ApicurioClient.t W),
      let self0 := snd (ApicurioClient._ensure_client self) in
      ApicurioClient.check_artifact_exists group_id artifact_id self =
        match http_get ("/apis/registry/v3/groups/" +:+ group_id +:+ "/artifacts/"
                        +:+ artifact_id) [] (ApicurioClient.transport self0) with
        | (inr response, w') =>
            (inr (status_code response =? 200),
             ApicurioClient.mk (ApicurioClient._client self0)
               (ApicurioClient._schema_cache self0) w')
        | (inl e, w') =>
            (if is_httpx_error e then inr false else inl e,
             ApicurioClient.mk (ApicurioClient._client self0)
               (ApicurioClient._schema_cache self0) w')
        end)
  /\ (forall (group_id artifact_id : string) (self : InMemoryClient.t),
        InMemoryClient.check_artifact_exists group_id artifact_id self =
          (inr match odict_get (group_id, artifact_id) (InMemoryClient._artifacts self) with
               | Some (_ :: _) => true
               | _ => false
               end, self)).
Proof.
  split.
  - intros group_id artifact_id self. apply check_artifact_exists_run.
  - intros group_id artifact_id self. unfold InMemoryClient.check_artifact_exists.
    destruct (odict_get _ _) as [[|v versions]|]; reflexivity.
Qed.

End ArtifactExists.

Section ArtifactExistsExamples.
Import Example.

(** C10, as the claim states it, fails: with a client whose GET raises
    [InvalidURL], which is neither of the two classes the method catches,
    [check_artifact_exists] raises. *)
Lemma check_artifact_exists_raises :
  ApicurioClient.check_artifact_exists "default" "ids" (ApicurioClient.mk false ∅ tt) =
    (inl (Exn (OtherError "InvalidURL") "Invalid URL" None), ApicurioClient.mk true ∅ tt)
  /\ ~ (exists answer : bool,
          fst (ApicurioClient.check_artifact_exists "default" "ids"
                 (ApicurioClient.mk false ∅ tt)) = inr answer).
Proof.
  split; [reflexivity|]. intros [answer Hanswer]. discriminate Hanswer.
Qed.

End ArtifactExistsExamples.

(** ** The in-memory registry: what registration keeps *)

Section OrderedDictKeys.
Context {K V : Type} `{EqDecision K}.

Lemma odict_set_keys (k : K) (v : V) (d : list (K * V)) (x : K) :
  x ∈ (odict_set k v d).*1 <-> x = k \/ x ∈ d.*1.
Proof.
  induction d as [|[k' v'] d IH]; cbn.
  - rewrite list_elem_of_singleton, elem_of_nil. tauto.
  - destruct (decide (k = k')) as [<- | Hne]; cbn.
    + rewrite !elem_of_cons. tauto.
    + rewrite !elem_of_cons, IH. tauto.
Qed.

Lemma odict_set_NoDup (k : K) (v : V) (d : list (K * V)) :
  NoDup d.*1 -> NoDup (odict_set k v d).*1.
Proof.
  induction d as [|[k' v'] d IH]; cbn; intros Hnodup.
  - apply NoDup_singleton.
  - apply NoDup_cons in Hnodup as [Hnotin Hnodup].
    destruct (decide (k = k')) as [<- | Hne]; cbn.
    + apply NoDup_cons. split; assumption.
    + apply NoDup_cons. split; [|apply IH, Hnodup].
      rewrite odict_set_keys. intros [-> | Hin]; [congruence | contradiction].
Qed.

Lemma odict_get_Some_elem (k : K) (v : V) (d : list (K * V)) :
  odict_get k d = Some v -> (k, v) ∈ d.
Proof.
  induction d as [|[k' v'] d IH]; cbn; [discriminate|].
  destruct (decide (k = k')) as [<- | Hne].
  - intros Hv. injection Hv as <-. apply elem_of_cons. left. reflexivity.
  - intros Hv. apply elem_of_cons. right. apply IH, Hv.
Qed.

Lemma odict_elem_get (k : K) (v : V) (d : list (K * V)) :
  NoDup d.*1 -> (k, v) ∈ d -> odict_get k d = Some v.
Proof.
  induction d as [|[k' v'] d IH]; cbn; intros Hnodup Hin.
  - inversion Hin.
  - apply NoDup_cons in Hnodup as [Hnotin Hnodup].
    apply elem_of_cons in Hin as [Heq | Hin].
    + injection Heq as <- <-. rewrite decide_True by reflexivity. reflexivity.
    + destruct (decide (k = k')) as [<- | Hne]; [|apply IH; assumption].
      exfalso. apply Hnotin. apply list_elem_of_fmap. exists (k, v). auto.
Qed.
End OrderedDictKeys.

Section RegistrationKeeps.
Import InMemoryClient.
Context `{Json}.

Lemma normalize_inv (content normalized : string) :
  _normalize_schema content = inr normalized ->
  exists schema_dict,
    json_loads_r content = inr schema_dict
    /\ json_dumps_sorted schema_dict = normalized.
Proof.
  unfold _normalize_schema.
  destruct (json_loads_r content) as [e | schema_dict]; cbn; [discriminate|].
  intros Hnorm. injection Hnorm as <-. eauto.
Qed.

Lemma grows_refl (self : t) : grows self self.
Proof.
  split; [|split]; auto.
  intros key versions Hget. exists []. rewrite app_nil_r. exact Hget.
Qed.

Lemma grows_append (key : coordinate) (gid : Z) (content : string) (self : t) :
  grows self (append_version key gid content self).
Proof.
  split; [|split]; auto.
  intros key0 versions Hget. cbn [append_version _artifacts].
  destruct (decide (key0 = key)) as [-> | Hne].
  - rewrite odict_get_set_eq, Hget. cbn. eauto.
  - rewrite odict_get_set_ne by exact Hne. exists [].
    rewrite app_nil_r. exact Hget.
Qed.

Lemma grows_trans (self1 self2 self3 : t) :
  grows self1 self2 -> grows self2 self3 -> grows self1 self3.
Proof.
  intros (Hs1 & Hi1 & Ha1) (Hs2 & Hi2 & Ha2). split; [|split]; auto.
  intros key versions Hget.
  destruct (Ha1 key versions Hget) as [more1 Hget1].
  destruct (Ha2 key _ Hget1) as [more2 Hget2].
  exists (more1 ++ more2). rewrite app_assoc. exact Hget2.
Qed.

Lemma grows_store_new (key : coordinate) (normalized content : string) (self : t) :
  _schema_to_global_id self !! normalized = None ->
  grows self (snd (store_new_schema key normalized content self)).
Proof.
  intros Hfresh. unfold store_new_schema.
  destruct (json_loads_r content) as [e | schema_dict]; cbn [snd];
    [apply grows_refl|].
  eapply grows_trans; [|apply grows_append].
  pose proof (next_global_id_fresh self) as Hnew.
  split; [|split]; cbn [_schemas _artifacts _schema_to_global_id].
  - intros gid d Hd. rewrite lookup_insert_ne; [exact Hd | congruence].
  - intros n gid Hn. rewrite lookup_insert_ne; [exact Hn | congruence].
  - intros key0 versions Hget. exists []. rewrite app_nil_r. exact Hget.
Qed.

Lemma register_schema_grows group artifact_name content artifact_type (self : t) :
  grows self (snd (register_schema group artifact_name content artifact_type self)).
Proof.
  unfold register_schema.
  destruct (_normalize_schema content) as [e | normalized]; [apply grows_refl|].
  cbn zeta.
  destruct (_schema_to_global_id self !! normalized) as [existing_id|] eqn:Hlook.
  - destruct (has_version _ _ _); cbn [snd]; [apply grows_refl | apply grows_append].
  - apply grows_store_new, Hlook.
Qed.

Lemma register_schema_version_grows group_id artifact_id content (self : t) :
  grows self (snd (register_schema_version group_id artifact_id content self)).
Proof.
  unfold register_schema_version.
  destruct (_normalize_schema content) as [e | normalized]; [apply grows_refl|].
  cbn zeta. destruct (odict_get _ _); [|apply grows_refl].
  destruct (_schema_to_global_id self !! normalized) as [existing_id|] eqn:Hlook.
  - destruct (has_version _ _ _); cbn [snd]; [apply grows_refl | apply grows_append].
  - apply grows_store_new, Hlook.
Qed.

(** X1.  Registration only adds.  Whatever [register_schema] or
    [register_schema_version] does, every document stays stored under its
    id, every entry of the content index stays, and every coordinate keeps
    its versions, in order, as its first versions. *)
Theorem registration_only_adds :
  forall group artifact_name content artifact_type (self : t),
    grows self (snd (register_schema group artifact_name content artifact_type self))
    /\ grows self (snd (register_schema_version group artifact_name content self)).
Proof.
  intros. split; [apply register_schema_grows | apply register_schema_version_grows].
Qed.

(** The next global id is 1 in an empty registry, and else one more than
    an id that holds a document. *)
Lemma next_global_id_successor (self : t) :
  (_schemas self = ∅ /\ _get_next_global_id self = 1)
  \/ exists top,
       is_Some (_schemas self !! top) /\ _get_next_global_id self = top + 1.
Proof.
  unfold _get_next_global_id.
  destruct (map_to_list (_schemas self)) as [|[k schema_dict] items] eqn:Hlist.
  - left. split; [apply map_to_list_empty_iff, Hlist | reflexivity].
  - right. cbn [fmap list_fmap fst].
    assert (Hin : forall x, x ∈ k :: items.*1 -> is_Some (_schemas self !! x)).
    { intros x Hx.
      assert (Hx' : x ∈ (map_to_list (_schemas self)).*1) by (rewrite Hlist; exact Hx).
      apply list_elem_of_fmap in Hx' as ([x' d] & -> & Hpair).
      apply elem_of_map_to_list in Hpair. eauto. }
    assert (Hmax : forall ks, foldr Z.max k ks ∈ k :: ks).
    { induction ks as [|k' ks IH]; cbn [foldr].
      - apply elem_of_cons. left. reflexivity.
      - destruct (Z.max_spec k' (foldr Z.max k ks)) as [[_ ->] | [_ ->]].
        + apply elem_of_cons in IH as [-> | IH];
            [apply elem_of_cons; left; reflexivity|].
          apply elem_of_cons. right. apply elem_of_cons. right. exact IH.
        + apply elem_of_cons. right. apply elem_of_cons. left. reflexivity. }
    exists (foldr Z.max k items.*1). split; [apply Hin, Hmax | reflexivity].
Qed.

(** X2.  Content whose canonical form the index does not know gets a new
    global id: 1 in an empty registry, and else one more than the largest id
    that holds a document; no document was stored under it before, and
    afterwards it holds the parsed content, the index maps the canonical
    form to it and the coordinate holds a version with it. *)
Theorem new_content_gets_fresh_id group artifact_name content artifact_type
    (self : t) (normalized : string) :
  _normalize_schema content = inr normalized ->
  _schema_to_global_id self !! normalized = None ->
  exists schema_dict self',
    json_loads_r content = inr schema_dict
    /\ register_schema group artifact_name content artifact_type self =
         (inr (_get_next_global_id self), self')
    /\ _schemas self !! _get_next_global_id self = None
    /\ (forall gid, is_Some (_schemas self !! gid) -> gid < _get_next_global_id self)
    /\ (_schemas self = ∅ -> _get_next_global_id self = 1)
    /\ (forall top,
          is_Some (_schemas self !! top) ->
          (forall gid, is_Some (_schemas self !! gid) -> gid <= top) ->
          _get_next_global_id self = top + 1)
    /\ _schemas self' !! _get_next_global_id self = Some schema_dict
    /\ _schema_to_global_id self' !! normalized = Some (_get_next_global_id self)
    /\ has_version (group, artifact_name) (_get_next_global_id self) self' = true.
Proof.
  intros Hnorm Hfresh.
  destruct (normalize_inv _ _ Hnorm) as (schema_dict & Hloads & _).
  exists schema_dict. eexists. split; [exact Hloads|]. split.
  { unfold register_schema. rewrite Hnorm. cbn zeta. rewrite Hfresh.
    unfold store_new_schema. rewrite Hloads. reflexivity. }
  split; [apply next_global_id_fresh|].
  split; [apply next_global_id_above|].
  split.
  { intros Hempty. unfold _get_next_global_id. rewrite Hempty, map_to_list_empty.
    reflexivity. }
  split.
  { intros top Hstored Hlargest.
    pose proof (next_global_id_above self top Hstored) as Habove.
    destruct (next_global_id_successor self)
      as [[Hempty _] | (top' & Hstored' & Hnext)].
    - rewrite Hempty, lookup_empty in Hstored. destruct Hstored as [? Hnone].
      discriminate.
    - specialize (Hlargest top' Hstored'). rewrite Hnext in Habove |- *. lia. }
  split; [apply lookup_insert_eq|]. split; [apply lookup_insert_eq|].
  apply has_version_append.
Qed.

Lemma numbered_snoc (versions : list SchemaVersion) (gid : Z) (content : string) :
  numbered versions ->
  numbered (versions ++ [mkSchemaVersion (Z.of_nat (length versions) + 1) gid content]).
Proof.
  intros Hnum i v Hlook.
  apply lookup_app_Some in Hlook as [Hold | [Hlen Hnew]].
  - apply Hnum, Hold.
  - destruct (i - length versions)%nat as [|n] eqn:Hdiff; cbn in Hnew; [|discriminate].
    injection Hnew as <-. cbn [version]. f_equal. lia.
Qed.

Lemma orderly_append (key : coordinate) (gid : Z) (content : string) (self : t) :
  orderly self -> orderly (append_version key gid content self).
Proof.
  intros [Hnodup Hvers]. split; cbn [append_version _artifacts].
  - apply odict_set_NoDup, Hnodup.
  - intros key0 versions Hget. destruct (decide (key0 = key)) as [-> | Hne].
    + rewrite odict_get_set_eq in Hget. injection Hget as <-. split.
      * intros Hnil. apply app_eq_nil in Hnil as [_ Hnil]. discriminate.
      * apply numbered_snoc.
        destruct (odict_get key (_artifacts self)) as [old|] eqn:Hold; cbn.
        -- apply (Hvers key old Hold).
        -- intros i v Hlook. rewrite lookup_nil in Hlook. discriminate.
    + rewrite odict_get_set_ne in Hget by exact Hne. apply (Hvers key0 versions Hget).
Qed.

Lemma orderly_store_new (key : coordinate) (normalized content : string) (self : t) :
  orderly self -> orderly (snd (store_new_schema key normalized content self)).
Proof.
  intros Hord. unfold store_new_schema.
  destruct (json_loads_r content); cbn [snd]; [exact Hord|].
  apply orderly_append. exact Hord.
Qed.

Lemma index_sound_store_new (key : coordinate) (normalized content : string)
    (self : t) :
  index_sound self ->
  _normalize_schema content = inr normalized ->
  index_sound (snd (store_new_schema key normalized content self)).
Proof.
  intros Hsound Hnorm. unfold store_new_schema.
  destruct (normalize_inv _ _ Hnorm) as (schema_dict & -> & Hdump). cbn [snd].
  pose proof (next_global_id_fresh self) as Hnew.
  intros n gid Hn. cbn [append_version _schemas _schema_to_global_id] in *.
  destruct (decide (normalized = n)) as [<- | Hne].
  - rewrite lookup_insert_eq in Hn. injection Hn as <-.
    exists schema_dict. rewrite lookup_insert_eq. auto.
  - rewrite lookup_insert_ne in Hn by exact Hne.
    destruct (Hsound n gid Hn) as (d & Hd & Hdn). exists d.
    rewrite lookup_insert_ne; [auto | congruence].
Qed.

Lemma register_schema_tidy group artifact_name content artifact_type (self : t) :
  orderly self /\ index_sound self ->
  let self' := snd (register_schema group artifact_name content artifact_type self) in
  orderly self' /\ index_sound self'.
Proof.
  intros [Hord Hsound]. cbn zeta. unfold register_schema.
  destruct (_normalize_schema content) as [e | normalized] eqn:Hnorm; [auto|].
  cbn zeta. destruct (_schema_to_global_id self !! normalized) as [existing_id|].
  - destruct (has_version _ _ _); cbn [snd]; [auto|].
    split; [apply orderly_append, Hord | exact Hsound].
  - split; [apply orderly_store_new, Hord | apply index_sound_store_new; assumption].
Qed.

Lemma register_schema_version_tidy group_id artifact_id content (self : t) :
  orderly self /\ index_sound self ->
  let self' := snd (register_schema_version group_id artifact_id content self) in
  orderly self' /\ index_sound self'.
Proof.
  intros [Hord Hsound]. cbn zeta. unfold register_schema_version.
  destruct (_normalize_schema content) as [e | normalized] eqn:Hnorm; [auto|].
  cbn zeta. destruct (odict_get _ _); [|auto].
  destruct (_schema_to_global_id self !! normalized) as [existing_id|].
  - destruct (has_version _ _ _); cbn [snd]; [auto|].
    split; [apply orderly_append, Hord | exact Hsound].
  - split; [apply orderly_store_new, Hord | apply index_sound_store_new; assumption].
Qed.

Lemma reachable_tidy (self : t) : reachable self -> orderly self /\ index_sound self.
Proof.
  induction 1 as [| ? ? ? ? ? ? ? _ IH Hreg | ? ? ? ? ? ? _ IH Hreg].
  - split; [split|].
    + apply NoDup_nil_2.
    + intros key versions Hget. discriminate.
    + intros n gid Hn. unfold init in Hn. cbn [_schema_to_global_id] in Hn.
      rewrite lookup_empty in Hn. discriminate.
  - pose proof (register_schema_tidy group artifact_name content artifact_type
                  self IH) as Htidy.
    cbn zeta in Htidy. rewrite Hreg in Htidy. exact Htidy.
  - pose proof (register_schema_version_tidy group_id artifact_id content self IH)
      as Htidy.
    cbn zeta in Htidy. rewrite Hreg in Htidy. exact Htidy.
Qed.

(** After a registration that returned [gid], the index maps the canonical
    form of the content to [gid] and the coordinate holds a version with
    [gid]. *)
Lemma register_schema_ok_inv group artifact_name content artifact_type
    (self self' : t) (gid : Z) :
  register_schema group artifact_name content artifact_type self = (inr gid, self') ->
  exists normalized,
    _normalize_schema content = inr normalized
    /\ _schema_to_global_id self' !! normalized = Some gid
    /\ has_version (group, artifact_name) gid self' = true
    /\ (has_version (group, artifact_name) gid self = false ->
        exists num,
          odict_get (group, artifact_name) (_artifacts self') =
            Some (default [] (odict_get (group, artifact_name) (_artifacts self))
                    ++ [mkSchemaVersion num gid content])).
Proof.
  unfold register_schema.
  destruct (_normalize_schema content) as [e | normalized]; [discriminate|].
  cbn zeta. intros Hreg. exists normalized. split; [reflexivity|]. revert Hreg.
  destruct (_schema_to_global_id self !! normalized) as [existing_id|] eqn:Hlook.
  - destruct (has_version _ existing_id self) eqn:Hhas; intros Hreg;
      injection Hreg as <- <-.
    + split; [exact Hlook|]. split; [exact Hhas|]. congruence.
    + split; [exact Hlook|]. split; [apply has_version_append|].
      intros _. eexists. cbn [append_version _artifacts].
      rewrite odict_get_set_eq. reflexivity.
  - intros Hstore. destruct (store_new_schema_ok _ _ _ _ _ _ Hstore) as (Hi & Hv & _).
    split; [exact Hi|]. split; [exact Hv|]. intros _.
    unfold store_new_schema in Hstore.
    destruct (json_loads_r content); [discriminate|]. injection Hstore as <- <-.
    eexists. cbn [append_version _artifacts]. rewrite odict_get_set_eq. reflexivity.
Qed.

Lemma registered_id_stored group artifact_name content artifact_type
    (self self' : t) (gid : Z) :
  reachable self ->
  register_schema group artifact_name content artifact_type self = (inr gid, self') ->
  exists schema_dict,
    get_schema_by_global_id gid self' = (inr schema_dict, self')
    /\ _normalize_schema content = inr (json_dumps_sorted schema_dict).
Proof.
  intros Hreach Hreg.
  assert (Hreach' : reachable self') by (eapply reachable_register; eassumption).
  destruct (reachable_tidy _ Hreach') as [_ Hsound].
  destruct (register_schema_ok_inv _ _ _ _ _ _ _ Hreg) as (normalized & Hnorm & Hidx & _).
  destruct (Hsound _ _ Hidx) as (schema_dict & Hstored & Hdump).
  exists schema_dict. unfold get_schema_by_global_id. rewrite Hstored.
  split; [reflexivity|]. rewrite Hdump. exact Hnorm.
Qed.

(** X3.  In a registry built by registrations, the id a registration
    returns resolves: [get_schema_by_global_id] returns a document for it,
    and that document has the canonical form of the content registered. *)
Theorem registered_id_resolves group artifact_name content artifact_type
    (self self' : t) (gid : Z) :
  reachable self ->
  register_schema group artifact_name content artifact_type self = (inr gid, self') ->
  exists schema_dict,
    get_schema_by_global_id gid self' = (inr schema_dict, self')
    /\ _normalize_schema content = inr (json_dumps_sorted schema_dict).
Proof. apply registered_id_stored. Qed.

(** X4.  After a successful [register_schema], in any state,
    [check_artifact_exists] answers [True] for the coordinate. *)
Theorem registered_coordinate_exists group artifact_name content artifact_type
    (self self' : t) (gid : Z) :
  register_schema group artifact_name content artifact_type self = (inr gid, self') ->
  check_artifact_exists group artifact_name self' = (inr true, self').
Proof.
  intros Hreg.
  destruct (register_schema_ok_inv _ _ _ _ _ _ _ Hreg) as (_ & _ & _ & Hhas & _).
  apply has_version_true in Hhas as (versions & v & Hget & Hin & _).
  unfold check_artifact_exists. rewrite Hget.
  destruct versions; [inversion Hin | reflexivity].
Qed.

(** X5.  In a registry built by registrations, when [register_schema]
    returns an id the coordinate had no version of, [get_latest_schema] of
    the coordinate then returns that id, with the document stored under
    it. *)
Theorem registered_version_is_latest group artifact_name content artifact_type
    (self self' : t) (gid : Z) :
  reachable self ->
  register_schema group artifact_name content artifact_type self = (inr gid, self') ->
  has_version (group, artifact_name) gid self = false ->
  exists schema_dict,
    get_latest_schema group artifact_name self' = (inr (gid, schema_dict), self')
    /\ get_schema_by_global_id gid self' = (inr schema_dict, self').
Proof.
  intros Hreach Hreg Hnew.
  destruct (registered_id_stored _ _ _ _ _ _ _ Hreach Hreg)
    as (schema_dict & Hfetch & _).
  exists schema_dict. split; [|exact Hfetch].
  destruct (register_schema_ok_inv _ _ _ _ _ _ _ Hreg) as (_ & _ & _ & _ & Happ).
  destruct (Happ Hnew) as [num Hget].
  unfold get_latest_schema. rewrite Hget, last_snoc. cbn [global_id].
  unfold get_schema_by_global_id in Hfetch.
  destruct (_schemas self' !! gid) as [d|]; [|discriminate].
  injection Hfetch as ->. reflexivity.
Qed.

(** X6.  In a registry built by registrations no coordinate is listed twice,
    every coordinate listed holds at least one version, and its versions
    carry the numbers 1, 2, 3, ... in the order they were added. *)
Theorem reachable_versions_numbered (self : t) :
  reachable self ->
  NoDup (_artifacts self).*1
  /\ forall key versions,
       (key, versions) ∈ _artifacts self ->
       versions <> []
       /\ forall (i : nat) v, versions !! i = Some v -> version v = Z.of_nat i + 1.
Proof.
  intros Hreach. destruct (reachable_tidy _ Hreach) as [[Hnodup Hvers] _].
  split; [exact Hnodup|]. intros key versions Hin.
  apply (Hvers key versions). apply odict_elem_get; assumption.
Qed.

End RegistrationKeeps.

(** ** The in-memory registry: searching by content *)

Section ContentSearch.
Import InMemoryClient.
Context `{Json}.

Lemma any_version_matches_true (normalized : string) (versions : list SchemaVersion) :
  any_version_matches normalized versions = inr true ->
  exists v, v ∈ versions /\ _normalize_schema (schema_content v) = inr normalized.
Proof.
  induction versions as [|v versions IH]; cbn; [discriminate|].
  destruct (_normalize_schema (schema_content v)) as [e | n] eqn:Hnorm; cbn;
    [discriminate|].
  destruct (String.eqb n normalized) eqn:Heq.
  - intros _. apply String.eqb_eq in Heq. subst n. exists v.
    split; [apply elem_of_cons; left; reflexivity | exact Hnorm].
  - intros Hrest. destruct (IH Hrest) as (v' & Hin & Hv'). exists v'.
    split; [apply elem_of_cons; right; exact Hin | exact Hv'].
Qed.

Lemma any_version_matches_false (normalized : string) (versions : list SchemaVersion) :
  any_version_matches normalized versions = inr false ->
  forall v, v ∈ versions -> _normalize_schema (schema_content v) <> inr normalized.
Proof.
  induction versions as [|v versions IH]; cbn.
  - intros _ v Hin. inversion Hin.
  - destruct (_normalize_schema (schema_content v)) as [e | n] eqn:Hnorm; cbn;
      [discriminate|].
    destruct (String.eqb n normalized) eqn:Heq; [discriminate|].
    intros Hrest v' Hin. apply elem_of_cons in Hin as [-> | Hin].
    + rewrite Hnorm. apply String.eqb_neq in Heq. congruence.
    + apply (IH Hrest v' Hin).
Qed.

Lemma any_version_matches_total (normalized : string) (versions : list SchemaVersion) :
  (forall v, v ∈ versions -> exists n, _normalize_schema (schema_content v) = inr n) ->
  exists found, any_version_matches normalized versions = inr found.
Proof.
  induction versions as [|v versions IH]; cbn; intros Hall; [eauto|].
  destruct (Hall v) as [n ->]; [apply elem_of_cons; left; reflexivity|]. cbn.
  destruct (String.eqb n normalized); [eauto|].
  apply IH. intros v' Hin. apply Hall. apply elem_of_cons. right. exact Hin.
Qed.

Lemma filtered_out_false (group_id : option string) (art_group_id : string) :
  match group_id with
  | Some g => negb (String.eqb g "") && negb (String.eqb art_group_id g)
  | None => false
  end = false <-> group_passes group_id art_group_id.
Proof.
  unfold group_passes. destruct group_id as [g|].
  - destruct (String.eqb g "") eqn:Hempty; cbn.
    + apply String.eqb_eq in Hempty. split; [|reflexivity].
      intros _ g' Hg' Hne. injection Hg' as <-. contradiction.
    + apply String.eqb_neq in Hempty.
      destruct (String.eqb art_group_id g) eqn:Hsame; cbn.
      * apply String.eqb_eq in Hsame. split; [|reflexivity].
        intros _ g' Hg' _. congruence.
      * apply String.eqb_neq in Hsame. split; [discriminate|].
        intros Hpass. exfalso. apply Hsame. apply (Hpass g eq_refl Hempty).
  - split; [|reflexivity]. intros _ g Hg. discriminate.
Qed.

Lemma scan_artifacts_found (normalized : string) (group_id : option string)
    (items : list (coordinate * list SchemaVersion)) (key : coordinate) :
  scan_artifacts normalized group_id items = inr (Some key) ->
  exists versions v,
    (key, versions) ∈ items /\ v ∈ versions
    /\ _normalize_schema (schema_content v) = inr normalized
    /\ group_passes group_id (fst key).
Proof.
  induction items as [|[[art_group_id artifact_id] versions] items IH];
    cbn [scan_artifacts]; [discriminate|].
  destruct (match group_id with Some _ => _ | None => _ end) eqn:Hfilter.
  - intros Hrest. destruct (IH Hrest) as (vs & v & Hin & Hrest').
    exists vs, v. split; [apply elem_of_cons; right; exact Hin | exact Hrest'].
  - destruct (any_version_matches normalized versions) as [e | [|]] eqn:Hany; cbn;
      [discriminate| |].
    + intros Hkey. injection Hkey as <-.
      destruct (any_version_matches_true _ _ Hany) as (v & Hin & Hv).
      exists versions, v. split; [apply elem_of_cons; left; reflexivity|].
      split; [exact Hin|]. split; [exact Hv|]. apply filtered_out_false, Hfilter.
    + intros Hrest. destruct (IH Hrest) as (vs & v & Hin & Hrest').
      exists vs, v. split; [apply elem_of_cons; right; exact Hin | exact Hrest'].
Qed.

Lemma scan_artifacts_none (normalized : string) (group_id : option string)
    (items : list (coordinate * list SchemaVersion)) :
  scan_artifacts normalized group_id items = inr None ->
  forall key versions v,
    (key, versions) ∈ items -> group_passes group_id (fst key) -> v ∈ versions ->
    _normalize_schema (schema_content v) <> inr normalized.
Proof.
  induction items as [|[[art_group_id artifact_id] versions] items IH];
    cbn [scan_artifacts].
  - intros _ key versions v Hin. inversion Hin.
  - destruct (match group_id with Some _ => _ | None => _ end) eqn:Hfilter.
    + intros Hrest key vs v Hin Hpass Hv. apply elem_of_cons in Hin as [Heq | Hin].
      * injection Heq as -> ->. cbn [fst] in Hpass.
        apply filtered_out_false in Hpass. congruence.
      * apply (IH Hrest key vs v Hin Hpass Hv).
    + destruct (any_version_matches normalized versions) as [e | [|]] eqn:Hany; cbn;
        [discriminate | discriminate |].
      intros Hrest key vs v Hin Hpass Hv. apply elem_of_cons in Hin as [Heq | Hin].
      * injection Heq as -> ->. apply (any_version_matches_false _ _ Hany v Hv).
      * apply (IH Hrest key vs v Hin Hpass Hv).
Qed.

Lemma scan_artifacts_finds (normalized : string) (group_id : option string)
    (items : list (coordinate * list SchemaVersion)) :
  (forall key versions v,
      (key, versions) ∈ items -> v ∈ versions ->
      exists n, _normalize_schema (schema_content v) = inr n) ->
  (exists key versions v,
      (key, versions) ∈ items /\ group_passes group_id (fst key) /\ v ∈ versions
      /\ _normalize_schema (schema_content v) = inr normalized) ->
  exists key, scan_artifacts normalized group_id items = inr (Some key).
Proof.
  induction items as [|[[art_group_id artifact_id] versions] items IH];
    intros Hall (key & vs & v & Hin & Hpass & Hv & Hnorm).
  - inversion Hin.
  - cbn [scan_artifacts].
    assert (Hall' : forall key versions v,
               (key, versions) ∈ items -> v ∈ versions ->
               exists n, _normalize_schema (schema_content v) = inr n).
    { intros k' vs' v' Hin' Hv'. apply (Hall k' vs' v'); [|exact Hv'].
      apply elem_of_cons. right. exact Hin'. }
    destruct (match group_id with Some _ => _ | None => _ end) eqn:Hfilter.
    + apply IH; [exact Hall'|]. exists key, vs, v.
      apply elem_of_cons in Hin as [Heq | Hin]; [|auto].
      injection Heq as -> ->. cbn [fst] in Hpass.
      apply filtered_out_false in Hpass. congruence.
    + destruct (any_version_matches_total normalized versions) as [found Hany].
      { intros v' Hv'. apply (Hall (art_group_id, artifact_id) versions v'); [|exact Hv'].
        apply elem_of_cons. left. reflexivity. }
      rewrite Hany. cbn. destruct found; [eauto|].
      apply IH; [exact Hall'|]. exists key, vs, v.
      apply elem_of_cons in Hin as [Heq | Hin]; [|auto].
      injection Heq as -> ->.
      exfalso. apply (any_version_matches_false _ _ Hany v Hv Hnorm).
Qed.

Lemma find_artifact_by_content_inv (content : string) (group_id : option string)
    (self self' : t) (found : option coordinate) :
  find_artifact_by_content content group_id self = (inr found, self') ->
  self' = self
  /\ exists normalized,
      _normalize_schema content = inr normalized
      /\ match found with
         | Some key =>
             exists versions v,
               (key, versions) ∈ _artifacts self /\ v ∈ versions
               /\ _normalize_schema (schema_content v) = inr normalized
               /\ group_passes group_id (fst key)
         | None =>
             forall key versions v,
               (key, versions) ∈ _artifacts self ->
               group_passes group_id (fst key) -> v ∈ versions ->
               _normalize_schema (schema_content v) <> inr normalized
         end.
Proof.
  unfold find_artifact_by_content.
  destruct (_normalize_schema content) as [e | normalized]; [discriminate|].
  intros Hfind. injection Hfind as Hscan <-. split; [reflexivity|].
  exists normalized. split; [reflexivity|]. destruct found as [key|].
  - apply scan_artifacts_found, Hscan.
  - apply scan_artifacts_none, Hscan.
Qed.

(** X7.  What [find_artifact_by_content] returns, when it returns: the
    registry is as it was; a coordinate returned is listed, passes the group
    filter and holds a version whose content has the canonical form of the
    content searched for; and [None] is returned only when no listed
    coordinate that passes the filter holds such a version. *)
Theorem find_artifact_by_content_sound (content : string) (group_id : option string)
    (self self' : t) (found : option coordinate) :
  find_artifact_by_content content group_id self = (inr found, self') ->
  self' = self
  /\ exists normalized,
      _normalize_schema content = inr normalized
      /\ match found with
         | Some key =>
             exists versions v,
               (key, versions) ∈ _artifacts self /\ v ∈ versions
               /\ _normalize_schema (schema_content v) = inr normalized
               /\ group_passes group_id (fst key)
         | None =>
             forall key versions v,
               (key, versions) ∈ _artifacts self ->
               group_passes group_id (fst key) -> v ∈ versions ->
               _normalize_schema (schema_content v) <> inr normalized
         end.
Proof. apply find_artifact_by_content_inv. Qed.

End ContentSearch.

(** ** The in-memory registry: registration, search and lookup together *)

Section RegistryComposition.
Import InMemoryClient.
Context `{Json}.

Lemma reachable_versions_normalize (self : t) :
  reachable self ->
  forall key versions v,
    (key, versions) ∈ _artifacts self -> v ∈ versions ->
    exists n,
      _normalize_schema (schema_content v) = inr n
      /\ _schema_to_global_id self !! n = Some (global_id v).
Proof.
  intros Hreach key versions v Hin Hv.
  destruct (reachable_consistent _ Hreach) as (Hindexed & _).
  destruct (reachable_tidy _ Hreach) as [[Hnodup _] _].
  apply (Hindexed key versions v); [|exact Hv]. apply odict_elem_get; assumption.
Qed.

Lemma content_found_after_registration group artifact_name content artifact_type
    (self self' : t) (gid : Z) (group_filter : option string) :
  reachable self ->
  register_schema group artifact_name content artifact_type self = (inr gid, self') ->
  group_passes group_filter group ->
  exists key,
    find_artifact_by_content content group_filter self' = (inr (Some key), self')
    /\ group_passes group_filter (fst key).
Proof.
  intros Hreach Hreg Hpass.
  assert (Hreach' : reachable self') by (eapply reachable_register; eassumption).
  destruct (register_schema_ok_inv _ _ _ _ _ _ _ Hreg)
    as (normalized & Hnorm & Hidx & Hhas & _).
  apply has_version_true in Hhas as (versions & v & Hget & Hv & Hgid).
  pose proof (odict_get_Some_elem _ _ _ Hget) as Hin.
  destruct (reachable_versions_normalize _ Hreach' _ _ _ Hin Hv) as (n & Hn & Hidx_v).
  destruct (reachable_consistent _ Hreach') as (_ & _ & Hinj).
  rewrite Hgid in Hidx_v. pose proof (Hinj _ _ _ Hidx_v Hidx) as ->.
  destruct (scan_artifacts_finds normalized group_filter (_artifacts self'))
    as [key Hscan].
  { intros k vs v' Hk Hv'.
    destruct (reachable_versions_normalize _ Hreach' _ _ _ Hk Hv') as (n' & Hn' & _).
    eauto. }
  { exists (group, artifact_name), versions, v. auto. }
  exists key. unfold find_artifact_by_content. rewrite Hnorm, Hscan.
  split; [reflexivity|].
  destruct (scan_artifacts_found _ _ _ _ Hscan) as (_ & _ & _ & _ & _ & Hkey).
  exact Hkey.
Qed.

(** X8.  In a registry built by registrations, content that has just been
    registered is found: [find_artifact_by_content] of the same content
    returns a coordinate, under no group filter and under any filter that
    lets the group of the registration through; it does not raise and does
    not return [None]. *)
Theorem registered_content_is_found group artifact_name content artifact_type
    (self self' : t) (gid : Z) (group_filter : option string) :
  reachable self ->
  register_schema group artifact_name content artifact_type self = (inr gid, self') ->
  group_passes group_filter group ->
  exists key,
    find_artifact_by_content content group_filter self' = (inr (Some key), self')
    /\ group_passes group_filter (fst key).
Proof. apply content_found_after_registration. Qed.

Lemma found_coordinate_latest (content : string) (group_filter : option string)
    (self self' : t) (group_id artifact_id : string) :
  reachable self ->
  find_artifact_by_content content group_filter self =
    (inr (Some (group_id, artifact_id)), self') ->
  exists gid schema_dict,
    get_latest_schema group_id artifact_id self = (inr (gid, schema_dict), self)
    /\ get_schema_by_global_id gid self = (inr schema_dict, self).
Proof.
  intros Hreach Hfind.
  destruct (find_artifact_by_content_inv _ _ _ _ _ Hfind)
    as (_ & normalized & _ & versions & v & Hin & Hv & _).
  destruct (reachable_tidy _ Hreach) as [[Hnodup Hvers] _].
  pose proof (odict_elem_get _ _ _ Hnodup Hin) as Hget.
  destruct (Hvers _ _ Hget) as [Hne _].
  apply last_is_Some in Hne as [latest_version Hlast].
  pose proof (last_Some_elem_of _ _ Hlast) as Hlatest.
  destruct (reachable_versions_normalize _ Hreach _ _ _ Hin Hlatest)
    as (n & _ & Hidx).
  destruct (reachable_consistent _ Hreach) as (_ & Hstored & _).
  destruct (Hstored _ _ Hidx) as [schema_dict Hschema].
  exists (global_id latest_version), schema_dict.
  unfold get_latest_schema, get_schema_by_global_id.
  rewrite Hget, Hlast, Hschema. split; reflexivity.
Qed.

(** X9.  In a registry built by registrations, a coordinate that
    [find_artifact_by_content] returns has a latest schema:
    [get_latest_schema] of it returns an id and the document stored under
    that id, so the automatic lookup of the serializer cannot fail between
    the two calls. *)
Theorem found_coordinate_has_latest (content : string) (group_filter : option string)
    (self self' : t) (group_id artifact_id : string) :
  reachable self ->
  find_artifact_by_content content group_filter self =
    (inr (Some (group_id, artifact_id)), self') ->
  exists gid schema_dict,
    get_latest_schema group_id artifact_id self = (inr (gid, schema_dict), self)
    /\ get_schema_by_global_id gid self = (inr schema_dict, self).
Proof. apply found_coordinate_latest. Qed.

(** X10.  [register_schema] fails exactly when [json.loads] fails on the
    content, in any state: it then raises the exception of [json.loads] as
    it is, whatever its class, with no context added, and leaves the
    registry as it was.  For content that [json.loads] accepts it returns
    an id. *)
Theorem register_schema_fails_only_on_bad_json group artifact_name content
    artifact_type (self : t) :
  match json_loads content with
  | inl e =>
      register_schema group artifact_name content artifact_type self = (inl e, self)
  | inr _ =>
      exists gid self',
        register_schema group artifact_name content artifact_type self = (inr gid, self')
  end.
Proof.
  unfold register_schema, _normalize_schema, store_new_schema, json_loads_r.
  destruct (json_loads content) as [e | schema_dict]; cbn; [reflexivity|].
  destruct (_schema_to_global_id self !! json_dumps_sorted schema_dict);
    [destruct (has_version _ _ _)|]; eauto.
Qed.

(** X11.  [register_schema_version] does not create coordinates: for a
    coordinate the registry does not list it raises and changes nothing.
    The content is parsed first, so what it raises is the exception of
    [json.loads], whatever its class, when [json.loads] fails on the
    content, and otherwise the [AvroCurioError] that names the
    coordinate. *)
Theorem register_schema_version_unknown_coordinate group_id artifact_id content
    (self : t) :
  odict_get (group_id, artifact_id) (_artifacts self) = None ->
  register_schema_version group_id artifact_id content self =
    (inl match json_loads content with
         | inl e => e
         | inr _ =>
             Exn AvroCurioError
               ("Artifact " +:+ group_id +:+ "/" +:+ artifact_id +:+ " does not exist")
               None
         end, self).
Proof.
  intros Hnone. unfold register_schema_version, _normalize_schema, json_loads_r.
  destruct (json_loads content) as [e | schema_dict]; cbn; [reflexivity|].
  rewrite Hnone. reflexivity.
Qed.

(** X12.  [add_schema] stores the document under the id before it does
    anything that can fail, so the document is there even when the call
    raises.  When the call returns, [get_schema_by_global_id] of the id gives
    the document back, the coordinate exists and [get_latest_schema] of it
    returns the id and the document. *)
Theorem add_schema_stores (gid : Z) (schema_dict : json) (group_id artifact_id : string)
    (self : t) :
  let self' := snd (add_schema gid schema_dict group_id artifact_id self) in
  get_schema_by_global_id gid self' = (inr schema_dict, self')
  /\ (fst (add_schema gid schema_dict group_id artifact_id self) = inr tt ->
      get_latest_schema group_id artifact_id self' = (inr (gid, schema_dict), self')
      /\ check_artifact_exists group_id artifact_id self' = (inr true, self')).
Proof.
  cbn zeta. unfold add_schema.
  destruct (_normalize_schema (json_dumps schema_dict)) as [e | normalized];
    cbn [fst snd].
  - split; [|discriminate].
    unfold get_schema_by_global_id. cbn [_schemas]. rewrite lookup_insert_eq.
    reflexivity.
  - assert (Hfetch : forall s : t,
              _schemas s !! gid = Some schema_dict ->
              get_schema_by_global_id gid s = (inr schema_dict, s)).
    { intros s Hs. unfold get_schema_by_global_id. rewrite Hs. reflexivity. }
    split; [apply Hfetch; cbn; apply lookup_insert_eq|]. intros _. split.
    + unfold get_latest_schema. cbn [append_version _artifacts _schemas].
      rewrite odict_get_set_eq, last_snoc. cbn [global_id].
      rewrite lookup_insert_eq. reflexivity.
    + unfold check_artifact_exists. cbn [append_version _artifacts].
      rewrite odict_get_set_eq, length_app. cbn [length].
      rewrite Nat.add_1_r. reflexivity.
Qed.

End RegistryComposition.

(** ** The in-memory registry: listing artifacts *)

Section ArtifactListing.
Import InMemoryClient.
Context `{Json} `{PyStr}.

Lemma search_items_elem (name : option string) (artifact_type : string)
    (items : list (coordinate * list SchemaVersion)) (entry : json) :
  entry ∈ search_items name artifact_type items <->
  exists group_id artifact_id versions latest_version,
    ((group_id, artifact_id), versions) ∈ items
    /\ last versions = Some latest_version
    /\ name_excludes name artifact_id = false
    /\ entry = artifact_entry group_id artifact_id artifact_type latest_version.
Proof.
  induction items as [|[[g a] versions] items IH]; cbn [search_items].
  - split; [intros Hin; inversion Hin|].
    intros (? & ? & ? & ? & Hin & _). inversion Hin.
  - assert (Hrest :
      (exists group_id artifact_id vs latest_version,
          ((group_id, artifact_id), vs) ∈ items
          /\ last vs = Some latest_version
          /\ name_excludes name artifact_id = false
          /\ entry = artifact_entry group_id artifact_id artifact_type latest_version) ->
      exists group_id artifact_id vs latest_version,
        ((group_id, artifact_id), vs) ∈ ((g, a), versions) :: items
        /\ last vs = Some latest_version
        /\ name_excludes name artifact_id = false
        /\ entry = artifact_entry group_id artifact_id artifact_type latest_version).
    { intros (g' & a' & vs & lv & Hin & Hrest). exists g', a', vs, lv.
      split; [apply elem_of_cons; right; exact Hin | exact Hrest]. }
    destruct (name_excludes name a) eqn:Hexcl.
    + rewrite IH. split; [exact Hrest|].
      intros (g' & a' & vs & lv & Hin & Hlast & Hname & Hentry).
      apply elem_of_cons in Hin as [Heq | Hin]; [|eauto 10].
      injection Heq as -> -> ->. congruence.
    + destruct (last versions) as [lv|] eqn:Hlast.
      * rewrite elem_of_cons, IH. split.
        -- intros [-> | Hin]; [|apply Hrest, Hin].
           exists g, a, versions, lv.
           split; [apply elem_of_cons; left; reflexivity | auto].
        -- intros (g' & a' & vs & lv' & Hin & Hlast' & Hname & Hentry).
           apply elem_of_cons in Hin as [Heq | Hin]; [|right; eauto 10].
           injection Heq as -> -> ->. left. congruence.
      * rewrite IH. split; [exact Hrest|].
        intros (g' & a' & vs & lv & Hin & Hlast' & Hname & Hentry).
        apply elem_of_cons in Hin as [Heq | Hin]; [|eauto 10].
        injection Heq as -> -> ->. congruence.
Qed.

Lemma search_items_listed (name : option string) (artifact_type : string)
    (items : list (coordinate * list SchemaVersion)) :
  search_items name artifact_type items = omap (listed_entry name artifact_type) items.
Proof.
  induction items as [|[[g a] versions] items IH]; [reflexivity|].
  cbn [search_items omap list_omap]. unfold listed_entry at 1. cbn [fst snd].
  destruct (name_excludes name a); [exact IH|].
  destruct (last versions) as [latest_version|]; cbn; [f_equal|]; exact IH.
Qed.

Lemma listed_entry_key (name : option string) (artifact_type : string)
    (item item' : coordinate * list SchemaVersion) (entry : json) :
  listed_entry name artifact_type item = Some entry ->
  listed_entry name artifact_type item' = Some entry ->
  fst item = fst item'.
Proof.
  destruct item as [[g a] versions], item' as [[g' a'] versions'].
  unfold listed_entry, artifact_entry. cbn [fst snd].
  destruct (name_excludes name a); [discriminate|].
  destruct (name_excludes name a'); [discriminate|].
  destruct (last versions); [|discriminate].
  destruct (last versions'); [|discriminate].
  cbn. intros Hentry Hentry'. congruence.
Qed.

Lemma listed_NoDup (name : option string) (artifact_type : string)
    (items : list (coordinate * list SchemaVersion)) :
  NoDup items.*1 -> NoDup (omap (listed_entry name artifact_type) items).
Proof.
  induction items as [|item items IH]; cbn [omap list_omap fmap list_fmap].
  - intros _. constructor.
  - intros Hnodup. apply NoDup_cons in Hnodup as [Hfresh Hnodup].
    destruct (listed_entry name artifact_type item) as [entry|] eqn:Hentry;
      [|apply IH, Hnodup].
    apply NoDup_cons. split; [|apply IH, Hnodup].
    intros Hin. apply list_elem_of_omap in Hin as (item' & Hin' & Hentry').
    apply Hfresh. rewrite (listed_entry_key _ _ _ _ _ Hentry Hentry').
    apply list_elem_of_fmap. exists item'. split; [reflexivity | exact Hin'].
Qed.

Lemma listed_length (name : option string) (artifact_type : string)
    (items : list (coordinate * list SchemaVersion)) :
  (length (omap (listed_entry name artifact_type) items) <= length items)%nat.
Proof.
  induction items as [|item items IH]; cbn [omap list_omap length]; [lia|].
  destruct (listed_entry name artifact_type item); cbn [length]; lia.
Qed.

(** X13.  [search_artifacts] changes nothing and never raises.  Its result
    holds, in the order of the coordinates, exactly one entry for every
    listed coordinate that holds at least one version and whose artifact id
    the name filter lets through, with the global id and the number of its
    latest version, and nothing else: no entry occurs twice; a name filter
    only leaves entries out. *)
Theorem search_artifacts_lists (name : option string) (artifact_type : string)
    (self : t) :
  exists results everything,
    search_artifacts name artifact_type self = (inr results, self)
    /\ search_artifacts None artifact_type self = (inr everything, self)
    /\ results = omap (listed_entry name artifact_type) (_artifacts self)
    /\ (NoDup (_artifacts self).*1 -> NoDup results)
    /\ (length results <= length (_artifacts self))%nat
    /\ (forall entry,
          entry ∈ results <->
          exists group_id artifact_id versions latest_version,
            ((group_id, artifact_id), versions) ∈ _artifacts self
            /\ last versions = Some latest_version
            /\ name_excludes name artifact_id = false
            /\ entry =
                 JDict [("groupId", JStr group_id);
                        ("artifactId", JStr artifact_id);
                        ("id", JStr artifact_id);
                        ("name", JStr artifact_id);
                        ("artifactType", JStr artifact_type);
                        ("globalId", JNum (global_id latest_version));
                        ("version", JNum (version latest_version))])
    /\ (forall entry, entry ∈ results -> entry ∈ everything).
Proof.
  eexists _, _. split; [reflexivity|]. split; [reflexivity|].
  split; [apply search_items_listed|]. split.
  { rewrite search_items_listed. apply listed_NoDup. }
  split.
  { rewrite search_items_listed. apply listed_length. }
  split.
  - intros entry. apply search_items_elem.
  - intros entry Hin. apply search_items_elem in Hin
      as (g & a & vs & lv & Hin & Hlast & _ & Hentry).
    apply search_items_elem. exists g, a, vs, lv. auto.
Qed.

(** X14.  In a registry built by registrations the listing agrees with the
    lookups: a coordinate has an entry in the unfiltered listing exactly when
    [check_artifact_exists] answers [True] for it, and the global id of the
    entry is the id [get_latest_schema] returns for the coordinate. *)
Theorem search_agrees_with_lookup (artifact_type : string) (self : t)
    (group_id artifact_id : string) :
  reachable self ->
  (check_artifact_exists group_id artifact_id self = (inr true, self) <->
   exists latest_version,
     artifact_entry group_id artifact_id artifact_type latest_version
       ∈ search_items None artifact_type (_artifacts self))
  /\ (forall latest_version,
        artifact_entry group_id artifact_id artifact_type latest_version
          ∈ search_items None artifact_type (_artifacts self) ->
        exists schema_dict,
          get_latest_schema group_id artifact_id self =
            (inr (global_id latest_version, schema_dict), self)).
Proof.
  intros Hreach. destruct (reachable_tidy _ Hreach) as [[Hnodup Hvers] _].
  assert (Hentry : forall lv,
    artifact_entry group_id artifact_id artifact_type lv
      ∈ search_items None artifact_type (_artifacts self) ->
    exists versions lv',
      odict_get (group_id, artifact_id) (_artifacts self) = Some versions
      /\ last versions = Some lv'
      /\ global_id lv' = global_id lv).
  { intros lv Hin. apply search_items_elem in Hin
      as (g & a & vs & lv' & Hin & Hlast & _ & Heq).
    injection Heq as <- <- Hgid Hnum. exists vs, lv'.
    split; [apply odict_elem_get; assumption|]. split; [exact Hlast | congruence]. }
  split; [split|].
  - unfold check_artifact_exists.
    destruct (odict_get (group_id, artifact_id) (_artifacts self))
      as [versions|] eqn:Hget; [|discriminate].
    intros _. destruct (Hvers _ _ Hget) as [Hne _].
    apply last_is_Some in Hne as [lv Hlast]. exists lv.
    apply search_items_elem. exists group_id, artifact_id, versions, lv.
    split; [apply odict_get_Some_elem, Hget | auto].
  - intros [lv Hin]. destruct (Hentry lv Hin) as (versions & lv' & Hget & Hlast & _).
    unfold check_artifact_exists. rewrite Hget.
    destruct versions; [discriminate | reflexivity].
  - intros lv Hin. destruct (Hentry lv Hin) as (versions & lv' & Hget & Hlast & Hgid).
    pose proof (last_Some_elem_of _ _ Hlast) as Hlv.
    destruct (reachable_versions_normalize _ Hreach _ _ _
                (odict_get_Some_elem _ _ _ Hget) Hlv) as (n & _ & Hidx).
    destruct (reachable_consistent _ Hreach) as (_ & Hstored & _).
    destruct (Hstored _ _ Hidx) as [schema_dict Hschema].
    exists schema_dict. unfold get_latest_schema. rewrite Hget, Hlast, Hschema, Hgid.
    reflexivity.
Qed.

End ArtifactListing.

(** ** The HTTP client: fetching schemas *)

Section ApicurioFetch.
Import ApicurioClient.
Context {W : Type} `{Httpx W} `{Json} `{Fastavro}.

Lemma ensure_client_run (self : t W) :
  _ensure_client self = (inr tt, snd (_ensure_client self)).
Proof. unfold _ensure_client. destruct (_client self); reflexivity. Qed.

Lemma ensure_client_keeps (self : t W) :
  _schema_cache (snd (_ensure_client self)) = _schema_cache self
  /\ transport (snd (_ensure_client self)) = transport self.
Proof. unfold _ensure_client. destruct (_client self); split; reflexivity. Qed.

Lemma fetch_handler_run {A} (not_found : string) (e : exn) (self : t W) :
  fetch_handler (A := A) not_found e self = (inl (fetch_error not_found e), self).
Proof.
  unfold fetch_handler, fetch_error, raise.
  destruct (is_HTTPStatusError e) as [r|].
  - destruct (status_code r =? 404); reflexivity.
  - destruct (is_RequestError e); reflexivity.
Qed.

Lemma fetch_error_not_httpx (not_found : string) (e : exn) :
  is_httpx_error (fetch_error not_found e) = false.
Proof.
  unfold fetch_error, is_httpx_error.
  destruct (is_HTTPStatusError e) as [r|] eqn:Hstatus.
  - destruct (status_code r =? 404); reflexivity.
  - destruct (is_RequestError e) eqn:Hrequest; [reflexivity|].
    rewrite Hstatus. exact Hrequest.
Qed.

Lemma listing_error_not_httpx (e : exn) : is_httpx_error (listing_error e) = false.
Proof.
  unfold listing_error, is_httpx_error.
  destruct (is_HTTPStatusError e) as [r|] eqn:Hstatus; [reflexivity|].
  destruct (is_RequestError e) eqn:Hrequest; [reflexivity|].
  rewrite Hstatus. exact Hrequest.
Qed.

(** The state in which the request of [get_schema_by_global_id] has been
    answered, and the one in which the schema has been cached as well. *)
Lemma get_schema_by_global_id_run (gid : Z) (self : t W) :
  _schema_cache self !! gid = None ->
  let not_found := "Schema with global ID " +:+ pretty gid +:+ " not found" in
  let self0 := snd (_ensure_client self) in
  get_schema_by_global_id gid self =
    match http_get ("/apis/registry/v3/ids/globalIds/" +:+ pretty gid) []
            (transport self) with
    | (inl e, w') =>
        (inl (fetch_error not_found e), mk (_client self0) (_schema_cache self) w')
    | (inr r, w') =>
        if status_code r =? 404 then
          (inl (Exn SchemaNotFoundError not_found None),
           mk (_client self0) (_schema_cache self) w')
        else if is_success (status_code r) then
          match schema_of_response r with
          | inr schema =>
              (inr schema,
               mk (_client self0) (<[gid := schema]> (_schema_cache self)) w')
          | inl e =>
              (inl (fetch_error not_found e),
               mk (_client self0) (_schema_cache self) w')
          end
        else
          (inl (http_error (Exn (HTTPStatusError r) (status_error_message r) None) r),
           mk (_client self0) (_schema_cache self) w')
    end.
Proof.
  intros Hmiss. cbn zeta. unfold get_schema_by_global_id. rewrite Hmiss.
  unfold bind at 1. rewrite ensure_client_run.
  destruct (ensure_client_keeps self) as [Hcache Htransport].
  unfold try_except, bind at 1, get. rewrite Htransport, Hcache.
  destruct (http_get _ _ _) as [[e | r] w']; [apply fetch_handler_run|].
  destruct (status_code r =? 404) eqn:H404.
  - unfold raise. rewrite fetch_handler_run. reflexivity.
  - unfold bind at 1, lift at 1, raise_for_status.
    destruct (is_success (status_code r)).
    + unfold bind at 1, lift at 1. fold (schema_of_response r).
      destruct (schema_of_response r) as [e | schema];
        [apply fetch_handler_run | reflexivity].
    + rewrite fetch_handler_run. unfold fetch_error. cbn. rewrite H404. reflexivity.
Qed.

End ApicurioFetch.

(** ** The HTTP client: the schema cache *)

Section ApicurioCache.
Import ApicurioClient.
Context {W : Type} `{Httpx W} `{Json} `{Fastavro}.

Lemma get_schema_by_global_id_hit (gid : Z) (schema : json) (self : t W) :
  _schema_cache self !! gid = Some schema ->
  get_schema_by_global_id gid self = (inr schema, self).
Proof. intros Hhit. unfold get_schema_by_global_id. rewrite Hhit. reflexivity. Qed.

(** After a call for [gid] the cache holds all it held, and the schema
    returned under [gid]; a failed call leaves the cache as it was. *)
Lemma get_schema_by_global_id_cache (gid : Z) (self : t W) :
  _schema_cache self ⊆ _schema_cache (snd (get_schema_by_global_id gid self))
  /\ match fst (get_schema_by_global_id gid self) with
     | inr schema =>
         _schema_cache (snd (get_schema_by_global_id gid self)) !! gid = Some schema
     | inl _ =>
         _schema_cache (snd (get_schema_by_global_id gid self)) = _schema_cache self
     end.
Proof.
  destruct (_schema_cache self !! gid) as [schema|] eqn:Hcache.
  - rewrite (get_schema_by_global_id_hit _ _ _ Hcache). cbn. split; [reflexivity|exact Hcache].
  - rewrite (get_schema_by_global_id_run _ _ Hcache).
    destruct (http_get _ _ _) as [[e | r] w']; [cbn; split; reflexivity|].
    destruct (status_code r =? 404); [cbn; split; reflexivity|].
    destruct (is_success (status_code r)); [|cbn; split; reflexivity].
    destruct (schema_of_response r) as [e | schema]; [cbn; split; reflexivity|].
    cbn. split; [apply insert_subseteq; exact Hcache | apply lookup_insert_eq].
Qed.

Lemma keeps_entries_ret {A} (a : A) : keeps_entries (W := W) (ret a).
Proof. intros self. reflexivity. Qed.

Lemma keeps_entries_lift {A} (r : result A) : keeps_entries (W := W) (lift r).
Proof. intros self. reflexivity. Qed.

Lemma keeps_entries_raise {A} (e : exn) : keeps_entries (W := W) (A := A) (raise e).
Proof. intros self. reflexivity. Qed.

Lemma keeps_entries_bind {A B} (m : M (t W) A) (k : A -> M (t W) B) :
  keeps_entries m -> (forall a, keeps_entries (k a)) -> keeps_entries (bind m k).
Proof.
  intros Hm Hk self. specialize (Hm self). unfold bind.
  destruct (m self) as [[e | a] self1]; cbn in *; [exact Hm|].
  etransitivity; [exact Hm | apply Hk].
Qed.

Lemma keeps_entries_try_except {A} (m : M (t W) A) (h : exn -> M (t W) A) :
  keeps_entries m -> (forall e, keeps_entries (h e)) -> keeps_entries (try_except m h).
Proof.
  intros Hm Hh self. specialize (Hm self). unfold try_except.
  destruct (m self) as [[e | a] self1]; cbn in *; [|exact Hm].
  etransitivity; [exact Hm | apply Hh].
Qed.

Lemma keeps_entries_ensure_client : keeps_entries (W := W) _ensure_client.
Proof. intros self. destruct (ensure_client_keeps self) as [-> _]. reflexivity. Qed.

Lemma keeps_entries_get (url : string) (params : list (string * json)) :
  keeps_entries (get url params).
Proof. intros self. unfold get. destruct (http_get _ _ _). reflexivity. Qed.

Lemma keeps_entries_fetch_handler {A} (not_found : string) (e : exn) :
  keeps_entries (W := W) (fetch_handler (A := A) not_found e).
Proof. intros self. rewrite fetch_handler_run. reflexivity. Qed.

Lemma keeps_entries_get_schema_by_global_id (gid : Z) :
  keeps_entries (get_schema_by_global_id gid).
Proof. intros self. apply get_schema_by_global_id_cache. Qed.

Lemma keeps_entries_get_latest_schema (group_id artifact_id : string) :
  keeps_entries (get_latest_schema group_id artifact_id).
Proof.
  unfold get_latest_schema. cbn zeta.
  apply keeps_entries_bind; [apply keeps_entries_ensure_client|]. intros _.
  apply keeps_entries_try_except; [|intros e; apply keeps_entries_fetch_handler].
  apply keeps_entries_bind; [apply keeps_entries_get|]. intros r.
  destruct (status_code r =? 404); [apply keeps_entries_raise|].
  apply keeps_entries_bind; [apply keeps_entries_lift|]. intros _.
  apply keeps_entries_bind; [apply keeps_entries_lift|]. intros version_metadata.
  apply keeps_entries_bind; [apply keeps_entries_lift|]. intros global_id.
  destruct global_id; try apply keeps_entries_raise;
    (apply keeps_entries_bind; [apply keeps_entries_lift|]; intros gid;
     apply keeps_entries_bind; [apply keeps_entries_get_schema_by_global_id|];
     intros schema; apply keeps_entries_ret).
Qed.

Lemma keeps_entries_compare_candidate (target : string) (artifact : json) :
  keeps_entries (compare_candidate target artifact).
Proof.
  unfold compare_candidate.
  apply keeps_entries_bind; [apply keeps_entries_lift|]. intros g.
  apply keeps_entries_bind; [apply keeps_entries_lift|]. intros a.
  apply keeps_entries_bind; [apply keeps_entries_get_latest_schema|]. intros latest.
  cbn zeta.
  apply keeps_entries_bind; [apply keeps_entries_lift|]. intros artifact_schema.
  apply keeps_entries_bind; [apply keeps_entries_lift|]. intros fp.
  destruct (String.eqb fp target); apply keeps_entries_ret.
Qed.

Lemma keeps_entries_scan_artifacts (target : string) (artifacts : list json) :
  keeps_entries (scan_artifacts target artifacts).
Proof.
  induction artifacts as [|artifact rest IH]; [apply keeps_entries_ret|].
  cbn [scan_artifacts].
  apply keeps_entries_bind.
  - apply keeps_entries_try_except; [apply keeps_entries_compare_candidate|].
    intros e. apply keeps_entries_ret.
  - intros [coordinate|]; [apply keeps_entries_ret | exact IH].
Qed.

Lemma keeps_entries_search_handler {A} (e : exn) :
  keeps_entries (W := W) (search_handler (A := A) e).
Proof.
  unfold search_handler. destruct (is_HTTPStatusError e); [apply keeps_entries_raise|].
  destruct (is_RequestError e); apply keeps_entries_raise.
Qed.

Lemma keeps_entries_find_artifact_by_fingerprint (content : string)
    (group_id : option string) :
  keeps_entries (find_artifact_by_fingerprint content group_id).
Proof.
  unfold find_artifact_by_fingerprint.
  apply keeps_entries_bind; [apply keeps_entries_ensure_client|]. intros _.
  apply keeps_entries_try_except.
  - apply keeps_entries_bind; [|intros prepared; apply keeps_entries_scan_artifacts].
    unfold fingerprint_candidates.
    apply keeps_entries_bind; [apply keeps_entries_lift|]. intros target_schema.
    apply keeps_entries_bind; [apply keeps_entries_lift|]. intros target.
    apply keeps_entries_bind; [apply keeps_entries_get|]. intros r.
    apply keeps_entries_bind; [apply keeps_entries_lift|]. intros _.
    apply keeps_entries_bind; [apply keeps_entries_lift|]. intros search_results.
    apply keeps_entries_bind; [apply keeps_entries_lift|]. intros artifacts.
    apply keeps_entries_bind; [apply keeps_entries_lift|]. intros candidates.
    apply keeps_entries_ret.
  - intros e. destruct (is_HTTPStatusError e); [apply keeps_entries_raise|].
    destruct (is_RequestError e); [apply keeps_entries_raise|].
    destruct (is_JSONDecodeError e); apply keeps_entries_raise.
Qed.

Lemma keeps_entries_check_artifact_exists (group_id artifact_id : string) :
  keeps_entries (check_artifact_exists group_id artifact_id).
Proof.
  unfold check_artifact_exists.
  apply keeps_entries_bind; [apply keeps_entries_ensure_client|]. intros _.
  apply keeps_entries_try_except.
  - apply keeps_entries_bind; [apply keeps_entries_get|]. intros r.
    apply keeps_entries_ret.
  - intros e. destruct (is_HTTPStatusError e); [apply keeps_entries_ret|].
    destruct (is_RequestError e); [apply keeps_entries_ret | apply keeps_entries_raise].
Qed.

Lemma keeps_entries_search_artifacts (name : option string) (artifact_type : string) :
  keeps_entries (search_artifacts name artifact_type).
Proof.
  unfold search_artifacts.
  apply keeps_entries_bind; [apply keeps_entries_ensure_client|]. intros _.
  apply keeps_entries_try_except; [|intros e; apply keeps_entries_search_handler].
  cbn zeta.
  apply keeps_entries_bind; [apply keeps_entries_get|]. intros r.
  apply keeps_entries_bind; [apply keeps_entries_lift|]. intros _.
  apply keeps_entries_bind; [apply keeps_entries_lift|]. intros search_results.
  apply keeps_entries_lift.
Qed.

(** X15.  A schema that [get_schema_by_global_id] has returned is served
    from the cache from then on: the same call in the state reached returns
    the same schema and leaves the state, and so the transport, as it is. *)
Theorem fetched_schema_is_cached (gid : Z) (self self' : t W) (schema : json) :
  get_schema_by_global_id gid self = (inr schema, self') ->
  get_schema_by_global_id gid self' = (inr schema, self').
Proof.
  intros Hfetch. apply get_schema_by_global_id_hit.
  destruct (get_schema_by_global_id_cache gid self) as [_ Hcached].
  rewrite Hfetch in Hcached. exact Hcached.
Qed.

(** X16.  A failed fetch is not remembered: when [get_schema_by_global_id]
    raises, the cache is as it was, so that a call for an id the cache does
    not hold sends its request again in the state reached. *)
Theorem failed_fetch_is_not_cached (gid : Z) (self self' : t W) (e : exn) :
  get_schema_by_global_id gid self = (inl e, self') ->
  _schema_cache self' = _schema_cache self
  /\ _schema_cache self' !! gid = None
  /\ transport self' =
       snd (http_get ("/apis/registry/v3/ids/globalIds/" +:+ pretty gid) []
              (transport self)).
Proof.
  intros Hfetch.
  destruct (_schema_cache self !! gid) as [schema|] eqn:Hcache.
  - rewrite (get_schema_by_global_id_hit _ _ _ Hcache) in Hfetch. discriminate.
  - rewrite (get_schema_by_global_id_run _ _ Hcache) in Hfetch.
    destruct (http_get _ _ _) as [[e0 | r] w'].
    + injection Hfetch as _ <-. cbn. auto.
    + destruct (status_code r =? 404); [injection Hfetch as _ <-; cbn; auto|].
      destruct (is_success (status_code r)).
      * destruct (schema_of_response r) as [e1 | schema]; [|discriminate].
        injection Hfetch as _ <-. cbn. auto.
      * injection Hfetch as _ <-. cbn. auto.
Qed.

(** X18.  The schema that [get_latest_schema] returns is in the cache under
    the global id it returns with it: [get_schema_by_global_id] for that id
    answers from the cache in the state reached. *)
Theorem latest_schema_is_cached (group_id artifact_id : string) (self self' : t W)
    (gid : Z) (schema : json) :
  get_latest_schema group_id artifact_id self = (inr (gid, schema), self') ->
  get_schema_by_global_id gid self' = (inr schema, self').
Proof.
  unfold get_latest_schema. cbn zeta. unfold bind at 1. rewrite ensure_client_run.
  unfold try_except.
  destruct (bind _ _ (snd (_ensure_client self))) as [[e | latest] self1] eqn:Hbody.
  { rewrite fetch_handler_run. discriminate. }
  intros Hlatest. injection Hlatest as -> ->. revert Hbody.
  unfold bind at 1. destruct (get _ _ _) as [[e | r] self2]; [discriminate|].
  destruct (status_code r =? 404); [discriminate|].
  unfold bind at 1, lift at 1.
  destruct (raise_for_status r); [discriminate|].
  unfold bind at 1, lift at 1.
  destruct (response_json r) as [e | version_metadata]; [discriminate|].
  unfold bind at 1, lift at 1.
  destruct (py_get version_metadata "globalId" JNull) as [e | global_id];
    [discriminate|].
  assert (Hrest : forall g,
    bind (lift (as_global_id g)) (fun gid0 =>
      bind (get_schema_by_global_id gid0) (fun schema0 => ret (gid0, schema0))) self2 =
      (inr (gid, schema), self') ->
    get_schema_by_global_id gid self' = (inr schema, self')).
  { intros g. unfold bind at 1, lift at 1.
    destruct (as_global_id g) as [e | gid0]; [discriminate|].
    unfold bind, ret.
    destruct (get_schema_by_global_id gid0 self2) as [[e | schema0] self3] eqn:Hfetch;
      [discriminate|].
    intros Heq. injection Heq as -> -> ->.
    apply get_schema_by_global_id_hit.
    destruct (get_schema_by_global_id_cache gid self2) as [_ Hcached].
    rewrite Hfetch in Hcached. exact Hcached. }
  destruct global_id; try (apply Hrest); discriminate.
Qed.

End ApicurioCache.

(** ** The HTTP client: what it raises *)

Section ApicurioErrors.
Import ApicurioClient.
Context {W : Type} `{Httpx W} `{Json} `{Fastavro} `{HttpxPost W}.

Lemma search_handler_run {A} (e : exn) (self : t W) :
  search_handler (A := A) e self = (inl (listing_error e), self).
Proof.
  unfold search_handler, listing_error, raise.
  destruct (is_HTTPStatusError e); [reflexivity|].
  destruct (is_RequestError e); reflexivity.
Qed.

Lemma search_error_not_httpx (e : exn) : is_httpx_error (search_error e) = false.
Proof.
  unfold search_error, is_httpx_error.
  destruct (is_HTTPStatusError e) as [r|] eqn:Hstatus; [reflexivity|].
  destruct (is_RequestError e) eqn:Hrequest; [reflexivity|].
  destruct (is_JSONDecodeError e); [reflexivity|].
  rewrite Hstatus. exact Hrequest.
Qed.

(** A [try] block whose handler turns every exception into one that is not
    of [httpx] lets none of [httpx] out. *)
Lemma catches_httpx_guarded {A} (m : M (t W) A) (h : exn -> M (t W) A)
    (f : exn -> exn) :
  (forall e self, h e self = (inl (f e), self)) ->
  (forall e, is_httpx_error (f e) = false) ->
  catches_httpx (bind _ensure_client (fun _ => try_except m h)).
Proof.
  intros Hh Hf self. unfold bind. rewrite ensure_client_run. unfold try_except.
  destruct (m _) as [[e | a] self1]; [|exact I].
  rewrite Hh. cbn. apply Hf.
Qed.

Lemma catches_httpx_get_schema_by_global_id (gid : Z) :
  catches_httpx (get_schema_by_global_id gid).
Proof.
  intros self. unfold get_schema_by_global_id.
  destruct (_schema_cache self !! gid) as [schema|]; [exact I|].
  cbn zeta.
  apply (catches_httpx_guarded _ _
           (fetch_error ("Schema with global ID " +:+ pretty gid +:+ " not found"))).
  - intros e self0. apply fetch_handler_run.
  - intros e. apply fetch_error_not_httpx.
Qed.

Lemma keeps_entries_post (url content : string) (params : list (string * json)) :
  keeps_entries (post url content params).
Proof. intros self. unfold post. destruct (http_post _ _ _ _). reflexivity. Qed.

Lemma keeps_entries_find_artifact_by_content (content : string)
    (group_id : option string) :
  keeps_entries (find_artifact_by_content content group_id).
Proof.
  unfold find_artifact_by_content.
  apply keeps_entries_bind; [apply keeps_entries_ensure_client|]. intros _.
  apply keeps_entries_try_except; [|intros e; apply keeps_entries_search_handler].
  apply keeps_entries_bind; [apply keeps_entries_post|]. intros r.
  apply keeps_entries_bind; [apply keeps_entries_lift|]. intros _.
  apply keeps_entries_bind; [apply keeps_entries_lift|]. intros search_results.
  apply keeps_entries_bind; [apply keeps_entries_lift|]. intros artifacts.
  destruct (py_truthy artifacts); [|apply keeps_entries_ret].
  apply keeps_entries_bind; [apply keeps_entries_lift|]. intros first_artifact.
  apply keeps_entries_bind; [apply keeps_entries_lift|]. intros artifact_id.
  apply keeps_entries_bind; [apply keeps_entries_lift|]. intros found_group_id.
  apply keeps_entries_ret.
Qed.

(** X17.  No method of the client drops or changes an entry of the schema
    cache: after any of them the cache holds every schema it held, under
    the same id. *)
Theorem schema_cache_only_grows :
  (forall gid, keeps_entries (get_schema_by_global_id gid))
  /\ (forall group_id artifact_id,
        keeps_entries (get_latest_schema group_id artifact_id))
  /\ (forall group_id artifact_id,
        keeps_entries (check_artifact_exists group_id artifact_id))
  /\ (forall name artifact_type, keeps_entries (search_artifacts name artifact_type))
  /\ (forall content group_id,
        keeps_entries (find_artifact_by_content content group_id))
  /\ (forall content group_id,
        keeps_entries (find_artifact_by_fingerprint content group_id)).
Proof.
  split; [|split; [|split; [|split; [|split]]]].
  - apply keeps_entries_get_schema_by_global_id.
  - apply keeps_entries_get_latest_schema.
  - apply keeps_entries_check_artifact_exists.
  - apply keeps_entries_search_artifacts.
  - apply keeps_entries_find_artifact_by_content.
  - apply keeps_entries_find_artifact_by_fingerprint.
Qed.

(** X19.  The methods that catch the exceptions of [httpx] let none of
    them out: whatever [get_schema_by_global_id], [get_latest_schema],
    [search_artifacts], [find_artifact_by_content] and
    [find_artifact_by_fingerprint] raise is neither an [HTTPStatusError] nor
    a [RequestError]. *)
Theorem no_httpx_error_escapes :
  (forall gid, catches_httpx (get_schema_by_global_id gid))
  /\ (forall group_id artifact_id,
        catches_httpx (get_latest_schema group_id artifact_id))
  /\ (forall name artifact_type, catches_httpx (search_artifacts name artifact_type))
  /\ (forall content group_id,
        catches_httpx (find_artifact_by_content content group_id))
  /\ (forall content group_id,
        catches_httpx (find_artifact_by_fingerprint content group_id)).
Proof.
  split; [|split; [|split; [|split]]].
  - apply catches_httpx_get_schema_by_global_id.
  - intros group_id artifact_id. unfold get_latest_schema. cbn zeta.
    apply (catches_httpx_guarded _ _
             (fetch_error ("Schema " +:+ (group_id +:+ "/" +:+ artifact_id)
                             +:+ " not found"))).
    + intros e self0. apply fetch_handler_run.
    + intros e. apply fetch_error_not_httpx.
  - intros name artifact_type. unfold search_artifacts.
    apply (catches_httpx_guarded _ _ listing_error).
    + intros e self0. apply search_handler_run.
    + apply listing_error_not_httpx.
  - intros content group_id. unfold find_artifact_by_content.
    apply (catches_httpx_guarded _ _ listing_error).
    + intros e self0. apply search_handler_run.
    + apply listing_error_not_httpx.
  - intros content group_id self.
    rewrite find_artifact_by_fingerprint_run.
    destruct (fingerprint_candidates _ _ _) as [[e | [target candidates]] self1].
    + cbn. apply search_error_not_httpx.
    + destruct (scan_artifacts_first_match target candidates self1)
        as (found & self' & -> & _).
      exact I.
Qed.

Lemma fetch_error_other (not_found : string) (e : exn) :
  is_httpx_error e = false -> fetch_error not_found e = e.
Proof.
  unfold is_httpx_error, fetch_error.
  destruct (is_HTTPStatusError e); [discriminate|]. intros ->. reflexivity.
Qed.

(** X20.  What a request for a schema the cache does not hold comes to,
    by the answer [r] of the registry.  Status 404 raises
    [SchemaNotFoundError] and caches nothing.  A success whose body
    [json.loads] accepts returns the parsed body and caches it under the
    id; a success whose body raises [JSONDecodeError] returns the body in a
    [schema] envelope and caches that; a success on whose body [json.loads]
    raises another exception raises that exception and caches nothing.
    Any other status raises [AvroCurioError] whose text gives the status and
    the body, with the [HTTPStatusError] as context, and caches nothing. *)
Theorem fetch_by_answer (gid : Z) (self : t W) (r : response) (w' : W) :
  _schema_cache self !! gid = None ->
  http_get ("/apis/registry/v3/ids/globalIds/" +:+ pretty gid) [] (transport self) =
    (inr r, w') ->
  let result := fst (get_schema_by_global_id gid self) in
  let cache' := _schema_cache (snd (get_schema_by_global_id gid self)) in
  let not_found := "Schema with global ID " +:+ pretty gid +:+ " not found" in
  transport (snd (get_schema_by_global_id gid self)) = w'
  /\ (status_code r = 404 ->
        result = inl (Exn SchemaNotFoundError not_found None)
        /\ cache' = _schema_cache self)
  /\ (status_code r <> 404 -> is_success (status_code r) = true ->
        match json_loads (text r) with
        | inr schema =>
            result = inr schema /\ cache' = <[gid := schema]> (_schema_cache self)
        | inl e =>
            if is_JSONDecodeError e then
              result = inr (JDict [("schema", JStr (text r))])
              /\ cache' =
                   <[gid := JDict [("schema", JStr (text r))]]> (_schema_cache self)
            else
              result = inl (fetch_error not_found e)
              /\ (is_httpx_error e = false -> result = inl e)
              /\ cache' = _schema_cache self
        end)
  /\ (status_code r <> 404 -> is_success (status_code r) = false ->
        result =
          inl (Exn AvroCurioError
                 ("HTTP error " +:+ pretty (status_code r) +:+ ": " +:+ text r)
                 (Some (Exn (HTTPStatusError r) (status_error_message r) None)))
        /\ cache' = _schema_cache self).
Proof.
  intros Hmiss Hanswer. cbn zeta.
  rewrite (get_schema_by_global_id_run _ _ Hmiss), Hanswer.
  destruct (status_code r =? 404) eqn:H404.
  - apply Z.eqb_eq in H404. cbn. split; [reflexivity|].
    split; [auto|]. split; intros Hnot; contradiction.
  - apply Z.eqb_neq in H404.
    destruct (is_success (status_code r)) eqn:Hsuccess.
    + unfold schema_of_response.
      destruct (json_loads (text r)) as [e | schema].
      * destruct (is_JSONDecodeError e); cbn.
        -- split; [reflexivity|]. split; [intros; contradiction|].
           split; [auto | intros; discriminate].
        -- split; [reflexivity|]. split; [intros; contradiction|].
           split; [|intros; discriminate]. intros _ _.
           split; [reflexivity|]. split; [|reflexivity].
           intros Hother. rewrite (fetch_error_other _ _ Hother). reflexivity.
      * cbn. split; [reflexivity|]. split; [intros; contradiction|].
        split; [auto | intros; discriminate].
    + cbn. split; [reflexivity|]. split; [intros; contradiction|].
      split; [intros; discriminate | auto].
Qed.

End ApicurioErrors.

(** ** The HTTP client and the serializer: an answer that is not JSON *)

Section RawAnswer.
Import ApicurioClient.
Context {W C Obj : Type} `{Httpx W} `{Json} `{Fastavro}
  `{SchemaRegistryClient C} `{AvroModel Obj}.

(** X21.  When the registry answers a request for a schema with a success
    on whose body [json.loads] raises [JSONDecodeError],
    [get_schema_by_global_id] returns the body in a
    [schema] envelope and caches it; the serializer cannot use such a
    document: parsing it for any schema id fails with
    [DeserializationError], and so does [_get_parsed_schema] in every state
    of the serializer that has no parsed schema cached for the id. *)
Theorem raw_answer_is_rejected (gid : Z) (self : t W) (r : response) (w' : W)
    (failure : exn) :
  _schema_cache self !! gid = None ->
  http_get ("/apis/registry/v3/ids/globalIds/" +:+ pretty gid) [] (transport self) =
    (inr r, w') ->
  status_code r <> 404 ->
  is_success (status_code r) = true ->
  json_loads (text r) = inl failure ->
  is_JSONDecodeError failure = true ->
  let envelope := JDict [("schema", JStr (text r))] in
  fst (get_schema_by_global_id gid self) = inr envelope
  /\ (forall sid,
        exists e,
          AvroSerializer.parse_registry_schema sid envelope = inl e
          /\ kind e = DeserializationError
          /\ str e = "Invalid JSON schema for ID " +:+ pretty sid)
  /\ (forall sid (serializer : AvroSerializer.t C),
        AvroSerializer._parsed_schema_cache serializer !! sid = None ->
        exists e,
          AvroSerializer._get_parsed_schema sid envelope serializer =
            (inl e, serializer)
          /\ kind e = DeserializationError).
Proof.
  intros Hmiss Hanswer H404 Hsuccess Hloads Hclass. cbn zeta.
  apply Z.eqb_neq in H404.
  assert (Hparse : forall sid,
    AvroSerializer.parse_registry_schema sid (JDict [("schema", JStr (text r))]) =
      inl (Exn DeserializationError ("Invalid JSON schema for ID " +:+ pretty sid)
             (Some failure))).
  { intros sid. unfold AvroSerializer.parse_registry_schema. cbn.
    unfold json_loads_r. rewrite Hloads, Hclass. reflexivity. }
  split; [|split].
  - rewrite (get_schema_by_global_id_run _ _ Hmiss), Hanswer, H404, Hsuccess.
    unfold schema_of_response. rewrite Hloads, Hclass. reflexivity.
  - intros sid. eexists. split; [apply Hparse|]. split; reflexivity.
  - intros sid serializer Hnone. eexists. split.
    + unfold AvroSerializer._get_parsed_schema. rewrite Hnone, Hparse.
      destruct (AvroSerializer.cache_schemas serializer); reflexivity.
    + reflexivity.
Qed.

End RawAnswer.

(** ** The serializer: the classes of its exceptions *)

Section SerializerRaises.
Import AvroSerializer.
Context {C Obj : Type} `{SchemaRegistryClient C} `{Json} `{Fastavro} `{AvroModel Obj}.

Lemma deserialize_error_class (what : string) (e : exn) :
  is_DeserializationError (deserialize_error what e) = true.
Proof.
  unfold deserialize_error.
  destruct (is_DeserializationError e) eqn:Hclass; [exact Hclass | reflexivity].
Qed.

Lemma try_deserialize_class {A} (m : M (t C) A) (what : string) (self : t C) :
  match fst (try_except m (deserialize_handler what) self) with
  | inl e => is_DeserializationError e = true
  | inr _ => True
  end.
Proof.
  unfold try_except. destruct (m self) as [[e | a] self']; [|exact I].
  rewrite deserialize_handler_run. apply deserialize_error_class.
Qed.

Lemma passes_through_wrapped (schema_id : option Z) (e : exn) :
  passes_through (wrapped schema_id e) = true.
Proof. reflexivity. Qed.

(** X22.  Whatever goes wrong in [deserialize] or in
    [deserialize_with_schema], framing, registry, parsing, codec or model,
    the exception that leaves the method is a [DeserializationError]. *)
Theorem deserialize_raises_own_class (message : bytes)
    (target_class : model_class Obj) (self : t C) :
  match fst (deserialize message target_class self) with
  | inl e => is_DeserializationError e = true
  | inr _ => True
  end
  /\ match fst (deserialize_with_schema message target_class self) with
     | inl e => is_DeserializationError e = true
     | inr _ => True
     end.
Proof. split; apply try_deserialize_class. Qed.

(** X23.  Whatever goes wrong in [serialize], with an explicit id or with
    the automatic lookup, the exception that leaves the method is a
    [SerializationError], a [SchemaMismatchError] or a [SchemaMatchError];
    one that the [try] block did not raise as such is a
    [SerializationError] carrying the original as context. *)
Theorem serialize_raises_own_classes (obj : Obj) (schema_id : option Z) (self : t C) :
  match fst (serialize obj schema_id self), fst (serialize_body obj schema_id self) with
  | inl e, inl e0 =>
      passes_through e = true
      /\ (passes_through e0 = true -> e = e0)
      /\ (passes_through e0 = false ->
            is_SerializationError e = true /\ context e = Some e0)
  | inr message, inr message0 => message = message0
  | _, _ => False
  end.
Proof.
  rewrite serialize_run.
  destruct (serialize_body obj schema_id self) as [[e0 | message] self']; cbn;
    [|reflexivity].
  destruct (passes_through e0) eqn:Hclass.
  - split; [exact Hclass|]. split; [reflexivity | discriminate].
  - split; [reflexivity|]. split; [discriminate|]. intros _. split; reflexivity.
Qed.

(** X24.  A message that fails the framing check is rejected before the
    registry is asked anything: both deserializing methods raise a
    [DeserializationError] with the framing failure as context, and leave
    the serializer, its client and its cache, exactly as they were. *)
Theorem malformed_message_asks_nothing (message : bytes)
    (target_class : model_class Obj) (self : t C) (e : exn) :
  ConfluentWireFormat.decode message = inl e ->
  is_DeserializationError e = false ->
  deserialize message target_class self =
    (inl (Exn DeserializationError ("Failed to deserialize message: " +:+ str e)
            (Some e)), self)
  /\ deserialize_with_schema message target_class self =
       (inl (Exn DeserializationError
               ("Failed to deserialize message with schema: " +:+ str e) (Some e)),
        self).
Proof.
  intros Hdecode Hclass.
  unfold deserialize, deserialize_with_schema, try_except, bind, lift.
  rewrite Hdecode, !deserialize_handler_run. unfold deserialize_error.
  rewrite Hclass. split; reflexivity.
Qed.

End SerializerRaises.

(** ** The serializer on the in-memory registry *)

Section InMemoryLookup.
Import AvroSerializer.
Context {Obj : Type} `{Json} `{Fastavro} `{AvroModel Obj}.

Lemma on_client_same {A} (m : M InMemoryClient.t A) (self : t InMemoryClient.t) r :
  m (client self) = (r, client self) -> on_client m self = (r, self).
Proof.
  intros Hm. rewrite (on_client_run _ _ _ _ Hm). destruct self. reflexivity.
Qed.

(** X25.  On the in-memory registry the automatic lookup has no second
    try: the class has no [find_artifact_by_fingerprint], so when the
    content search finds nothing, [serialize] raises not [SchemaMatchError]
    but a [SerializationError] whose context is the [AttributeError] of the
    missing method, and the registry is as it was. *)
Theorem in_memory_lookup_has_no_fallback (obj : Obj) (content : string)
    (self : t InMemoryClient.t) :
  avro_schema obj = inr content ->
  InMemoryClient.find_artifact_by_content content None (client self) =
    (inr None, client self) ->
  let missing :=
    Exn AttributeError
      "'InMemoryClient' object has no attribute 'find_artifact_by_fingerprint'"
      None in
  serialize obj None self = (inl (wrapped None missing), self)
  /\ is_SchemaMatchError (wrapped None missing) = false.
Proof.
  intros Hschema Hfind. cbn zeta. split; [|reflexivity].
  rewrite serialize_run. unfold serialize_body.
  unfold bind at 1, lift at 1. rewrite Hschema.
  rewrite (bind_ok _ _ _ _ _ (on_client_same _ _ _ Hfind)).
  assert (Hmissing :
    client_find_artifact_by_fingerprint content None (client self) =
      (inl (Exn AttributeError
              "'InMemoryClient' object has no attribute 'find_artifact_by_fingerprint'"
              None), client self)) by reflexivity.
  unfold bind at 1. rewrite (on_client_same _ _ _ Hmissing). reflexivity.
Qed.

(** X26.  In a registry built by registrations, once the schema of an
    object has been registered, the automatic lookup resolves it with the
    content search alone: [serialize] without an id runs
    [_serialize_with_schema_id] with the id of the latest version of the
    coordinate found, an id whose schema the registry returns, and what it
    raises is never the [SchemaMatchError] of an empty search. *)
Theorem in_memory_lookup_after_registration (obj : Obj) (content : string)
    group artifact_name artifact_type (before : InMemoryClient.t) (gid : Z)
    (self : t InMemoryClient.t) :
  reachable before ->
  InMemoryClient.register_schema group artifact_name content artifact_type before =
    (inr gid, client self) ->
  avro_schema obj = inr content ->
  exists group_id artifact_id found_id schema_dict,
    InMemoryClient.find_artifact_by_content content None (client self) =
      (inr (Some (group_id, artifact_id)), client self)
    /\ InMemoryClient.get_latest_schema group_id artifact_id (client self) =
         (inr (found_id, schema_dict), client self)
    /\ InMemoryClient.get_schema_by_global_id found_id (client self) =
         (inr schema_dict, client self)
    /\ serialize_body obj None self = _serialize_with_schema_id obj found_id self.
Proof.
  intros Hreach Hreg Hschema.
  assert (Hreach' : reachable (client self))
    by (eapply reachable_register; eassumption).
  destruct (content_found_after_registration _ _ _ _ _ _ _ None Hreach Hreg)
    as ([group_id artifact_id] & Hfind & _); [intros g Hg; discriminate|].
  destruct (found_coordinate_latest _ _ _ _ _ _ Hreach' Hfind)
    as (found_id & schema_dict & Hlatest & Hfetch).
  exists group_id, artifact_id, found_id, schema_dict.
  split; [exact Hfind|]. split; [exact Hlatest|]. split; [exact Hfetch|].
  unfold serialize_body. unfold bind at 1, lift at 1. rewrite Hschema.
  rewrite (bind_ok _ _ _ _ _ (on_client_same _ _ _ Hfind)).
  unfold bind at 1, ret at 1.
  rewrite (bind_ok _ _ _ _ _ (on_client_same _ _ _ Hlatest)).
  reflexivity.
Qed.

End InMemoryLookup.

(** ** Examples on the in-memory registry *)

Section RegistryExamples.
Import InMemoryClient Example.

Lemma new_content_gets_fresh_id_witness :
  exists self', register_schema "default" "ids" "{}" "AVRO" init = (inr 1, self').
Proof.
  destruct (new_content_gets_fresh_id "default" "ids" "{}" "AVRO" init "{}")
    as (schema_dict & self' & _ & Hreg & _); [reflexivity | reflexivity |].
  exists self'. exact Hreg.
Defined.

Lemma registered_id_resolves_witness :
  exists schema_dict,
    get_schema_by_global_id 1 one_schema = (inr schema_dict, one_schema)
    /\ _normalize_schema "{}" = inr (json_dumps_sorted schema_dict).
Proof.
  apply (registered_id_resolves "default" "ids" "{}" "AVRO" init one_schema 1);
    [apply reachable_init | reflexivity].
Defined.

Lemma registered_coordinate_exists_witness :
  check_artifact_exists "default" "ids" one_schema = (inr true, one_schema).
Proof.
  apply (registered_coordinate_exists "default" "ids" "{}" "AVRO" init one_schema 1).
  reflexivity.
Defined.

Lemma registered_version_is_latest_witness :
  exists schema_dict,
    get_latest_schema "default" "ids" one_schema = (inr (1, schema_dict), one_schema)
    /\ get_schema_by_global_id 1 one_schema = (inr schema_dict, one_schema).
Proof.
  apply (registered_version_is_latest "default" "ids" "{}" "AVRO" init one_schema 1);
    [apply reachable_init | reflexivity | reflexivity].
Defined.

Lemma reachable_versions_numbered_witness :
  NoDup (_artifacts one_schema).*1
  /\ forall key versions,
       (key, versions) ∈ _artifacts one_schema ->
       versions <> []
       /\ forall (i : nat) v, versions !! i = Some v -> version v = Z.of_nat i + 1.
Proof.
  apply (reachable_versions_numbered one_schema).
  apply (reachable_register "default" "ids" "{}" "AVRO" init (inr 1) one_schema);
    [apply reachable_init | reflexivity].
Defined.

Lemma find_artifact_by_content_sound_witness :
  exists normalized versions v,
    _normalize_schema "{ }" = inr normalized
    /\ (("default", "ids"), versions) ∈ _artifacts one_schema
    /\ v ∈ versions
    /\ _normalize_schema (schema_content v) = inr normalized.
Proof.
  destruct (find_artifact_by_content_sound "{ }" None one_schema one_schema
              (Some ("default", "ids")))
    as (_ & normalized & Hnorm & versions & v & Hin & Hv & Hsame & _);
    [reflexivity|].
  exists normalized, versions, v. auto.
Defined.

Lemma registered_content_is_found_witness :
  exists key,
    find_artifact_by_content "{}" None one_schema = (inr (Some key), one_schema)
    /\ group_passes None (fst key).
Proof.
  apply (registered_content_is_found "default" "ids" "{}" "AVRO" init one_schema 1 None);
    [apply reachable_init | reflexivity | intros g Hg; discriminate].
Defined.

Lemma found_coordinate_has_latest_witness :
  exists gid schema_dict,
    get_latest_schema "default" "ids" one_schema = (inr (gid, schema_dict), one_schema)
    /\ get_schema_by_global_id gid one_schema = (inr schema_dict, one_schema).
Proof.
  apply (found_coordinate_has_latest "{ }" None one_schema one_schema "default" "ids");
    [|reflexivity].
  apply (reachable_register "default" "ids" "{}" "AVRO" init (inr 1) one_schema);
    [apply reachable_init | reflexivity].
Defined.

Lemma register_schema_version_unknown_coordinate_witness :
  register_schema_version "default" "ids" "{}" init =
    (inl (Exn AvroCurioError "Artifact default/ids does not exist" None), init).
Proof.
  etransitivity;
    [apply (register_schema_version_unknown_coordinate "default" "ids" "{}" init);
     reflexivity
    | reflexivity].
Defined.

Lemma search_agrees_with_lookup_witness :
  check_artifact_exists "default" "ids" one_schema = (inr true, one_schema) <->
  exists latest_version,
    artifact_entry "default" "ids" "AVRO" latest_version
      ∈ search_items None "AVRO" (_artifacts one_schema).
Proof.
  apply (search_agrees_with_lookup "AVRO" one_schema "default" "ids").
  apply (reachable_register "default" "ids" "{}" "AVRO" init (inr 1) one_schema);
    [apply reachable_init | reflexivity].
Defined.

End RegistryExamples.

(** ** Examples on the HTTP client *)

Section ApicurioFetchExamples.
Import ApicurioClient Example.

(** The second call has no answer left to take: it is served from the
    cache. *)
Lemma fetched_schema_is_cached_witness :
  get_schema_by_global_id 7 (mk true (<[7 := JDict []]> ∅) ([] : list response)) =
    (inr (JDict []), mk true (<[7 := JDict []]> ∅) []).
Proof.
  apply (fetched_schema_is_cached (W := list response) 7
           (mk false ∅ [mkResponse 200 "{}"])).
  reflexivity.
Defined.

Lemma failed_fetch_is_not_cached_witness :
  _schema_cache (mk true ∅ ([] : list response)) = ∅
  /\ _schema_cache (mk true ∅ ([] : list response)) !! 7 = None
  /\ transport (mk true ∅ ([] : list response)) = [].
Proof.
  destruct (failed_fetch_is_not_cached (W := list response) 7
              (mk false ∅ [mkResponse 500 "boom"]) (mk true ∅ [])
              (http_error
                 (Exn (HTTPStatusError (mkResponse 500 "boom")) "Client error" None)
                 (mkResponse 500 "boom")))
    as (Hcache & Hmiss & Htransport); [reflexivity|].
  split; [exact Hcache|]. split; [exact Hmiss | exact Htransport].
Defined.

Lemma latest_schema_is_cached_witness :
  get_schema_by_global_id (H0 := json_metadata) 7
    (mk true (<[7 := JDict []]> ∅) ([] : list response)) =
    (inr (JDict []), mk true (<[7 := JDict []]> ∅) []).
Proof.
  apply (latest_schema_is_cached (H0 := json_metadata) "default" "ids"
           (mk false ∅ [mkResponse 200 metadata_text; mkResponse 200 "{}"])).
  reflexivity.
Defined.

Lemma fetch_by_answer_witness :
  fst (get_schema_by_global_id 7 (mk false ∅ [mkResponse 404 "gone"])) =
    inl (Exn SchemaNotFoundError "Schema with global ID 7 not found" None).
Proof.
  destruct (fetch_by_answer (W := list response) 7
              (mk false ∅ [mkResponse 404 "gone"]) (mkResponse 404 "gone") [])
    as (_ & Hgone & _); [reflexivity | reflexivity |].
  apply Hgone. reflexivity.
Defined.

Lemma raw_answer_is_rejected_witness :
  fst (get_schema_by_global_id 7 (mk false ∅ [mkResponse 200 "record"])) =
    inr (JDict [("schema", JStr "record")]).
Proof.
  destruct (raw_answer_is_rejected (W := list response) (C := canned) 7
              (mk false ∅ [mkResponse 200 "record"]) (mkResponse 200 "record") []
              (Exn JSONDecodeError "Expecting value" None))
    as (Henvelope & _); [reflexivity | reflexivity | discriminate | reflexivity
                        | reflexivity | reflexivity |].
  exact Henvelope.
Defined.

End ApicurioFetchExamples.

(** ** Examples on the serializer *)

Section SerializerExamples.
Import AvroSerializer Example.

Lemma malformed_message_asks_nothing_witness :
  deserialize [x01; x00] IdRecord (init_default (registry true true)) =
    (inl (Exn DeserializationError
            "Failed to deserialize message: Message too short"
            (Some (Exn InvalidWireFormatError "Message too short" None))),
     init_default (registry true true)).
Proof.
  apply (proj1 (malformed_message_asks_nothing (C := canned) [x01; x00] IdRecord
                  (init_default (registry true true))
                  (Exn InvalidWireFormatError "Message too short" None)
                  eq_refl eq_refl)).
Defined.

Lemma in_memory_lookup_has_no_fallback_witness :
  serialize 5 None (init_default InMemoryClient.init) =
    (inl (wrapped None
            (Exn AttributeError
               "'InMemoryClient' object has no attribute 'find_artifact_by_fingerprint'"
               None)),
     init_default InMemoryClient.init).
Proof.
  destruct (in_memory_lookup_has_no_fallback (Obj := Z) 5 "{}"
              (init_default InMemoryClient.init))
    as [Hraise _]; [reflexivity | reflexivity |].
  exact Hraise.
Defined.

Lemma in_memory_lookup_after_registration_witness :
  exists found_id,
    serialize_body 5 None (init_default one_schema) =
      _serialize_with_schema_id 5 found_id (init_default one_schema).
Proof.
  destruct (in_memory_lookup_after_registration (Obj := Z) 5 "{}" "default" "ids"
              "AVRO" InMemoryClient.init 1 (init_default one_schema))
    as (group_id & artifact_id & found_id & schema_dict & _ & _ & _ & Hrun);
    [apply reachable_init | reflexivity | reflexivity |].
  exists found_id. exact Hrun.
Defined.

End SerializerExamples.
